(** * thesis-blog-generator: the selection, slug and index logic of
      [generate-blog.ts], embedded and verified.

    The script picks a topic and an image, asks a remote API for a post,
    writes the post as an MDX file and upserts a record into [index.json].
    Every function below is a transcription of the TypeScript function of
    the same name.

    Conventions of the embedding.
    - A JavaScript string is a [string]: one character per UTF-16 code
      unit, for code units below U+0100.  [toLowerCase], [\s] and [trim]
      are written out for that range.
    - [Math.random()] is an input: a rational [r] with [0 <= r < 1].
    - An exception is a value ([Throws]); [try]/[catch] is a match on it.
    - The file system is a finite map from paths to file contents and a
      set of directories, one path per file; whether a write or a
      [mkdir] throws is decided by the operating system, an input.
    - Paths are POSIX paths, and [path.join] is Node's function for
      that platform, normalisation included.
    - The payload of the remote API is any JSON value; its properties
      are read and converted to strings as JavaScript does it. *)

From Stdlib Require Import ZArith QArith Qround Lia String Ascii List.
From stdpp Require Import base strings list gmap.

Open Scope string_scope.

(** ** JavaScript strings *)
Module JsString.

Definition code (c : ascii) : N := N_of_ascii c.

Definition between (lo hi : N) (c : ascii) : bool :=
  ((lo <=? code c) && (code c <=? hi))%N.

Definition isUpper (c : ascii) : bool := between 65 90 c.
Definition isLower (c : ascii) : bool := between 97 122 c.
Definition isDigit (c : ascii) : bool := between 48 57 c.
Definition isHyphen (c : ascii) : bool := (code c =? 45)%N.

(** The regular expression class [\s] (also what [trim] strips): TAB, LF,
    VT, FF, CR, SPACE and NO-BREAK SPACE are its members below U+0100. *)
Definition isWhiteSpace (c : ascii) : bool :=
  between 9 13 c || (code c =? 32)%N || (code c =? 160)%N.

(** [String.prototype.toLowerCase] on one code unit: A-Z, and the
    Latin-1 capitals U+00C0..U+00DE without the multiplication sign. *)
Definition lowerChar (c : ascii) : ascii :=
  if isUpper c || between 192 214 c || between 216 222 c
  then ascii_of_N (code c + 32)
  else c.

Fixpoint mapChars (f : ascii -> ascii) (s : string) : string :=
  match s with
  | EmptyString => EmptyString
  | String c s' => String (f c) (mapChars f s')
  end.

Definition toLowerCase (s : string) : string := mapChars lowerChar s.

(** [s.replace(/[C]/g, '')] for a character class [C]: the characters
    for which [keep] is false are deleted. *)
Fixpoint keepChars (keep : ascii -> bool) (s : string) : string :=
  match s with
  | EmptyString => EmptyString
  | String c s' =>
      if keep c then String c (keepChars keep s') else keepChars keep s'
  end.

(** [s.replace(/C+/g, r)]: every maximal run of characters of class [C]
    becomes the single character [r].  [inRun] records that the previous
    character belonged to the run being replaced. *)
Fixpoint replaceRunsFrom (cls : ascii -> bool) (r : ascii) (inRun : bool)
         (s : string) : string :=
  match s with
  | EmptyString => EmptyString
  | String c s' =>
      if cls c
      then if inRun then replaceRunsFrom cls r true s'
           else String r (replaceRunsFrom cls r true s')
      else String c (replaceRunsFrom cls r false s')
  end.

Definition replaceRuns (cls : ascii -> bool) (r : ascii) (s : string) : string :=
  replaceRunsFrom cls r false s.

Fixpoint trimStart (s : string) : string :=
  match s with
  | EmptyString => EmptyString
  | String c s' => if isWhiteSpace c then trimStart s' else s
  end.

Fixpoint trimEnd (s : string) : string :=
  match s with
  | EmptyString => EmptyString
  | String c s' =>
      match trimEnd s' with
      | EmptyString => if isWhiteSpace c then EmptyString else String c EmptyString
      | rest => String c rest
      end
  end.

Definition trim (s : string) : string := trimEnd (trimStart s).

(** [s.split(sep)] for a one-character separator; [''.split(' ')] is
    [['']] and adjacent separators give empty pieces. *)
Fixpoint split (sep : ascii) (s : string) : list string :=
  match s with
  | EmptyString => [EmptyString]
  | String c s' =>
      if Ascii.eqb c sep then EmptyString :: split sep s'
      else match split sep s' with
           | w :: ws => String c w :: ws
           | [] => [String c EmptyString]
           end
  end.

(** [s.includes(sub)]: [sub] occurs in [s] at some position. *)
Fixpoint includes (s sub : string) : bool :=
  if String.prefix sub s then true
  else match s with
       | EmptyString => false
       | String _ s' => includes s' sub
       end.

(** Predicates on the characters of a string. *)
Fixpoint allChars (p : ascii -> bool) (s : string) : bool :=
  match s with
  | EmptyString => true
  | String c s' => p c && allChars p s'
  end.

Definition startsWith (p : ascii -> bool) (s : string) : bool :=
  match s with
  | EmptyString => false
  | String c _ => p c
  end.

Fixpoint endsWith (p : ascii -> bool) (s : string) : bool :=
  match s with
  | EmptyString => false
  | String c EmptyString => p c
  | String _ s' => endsWith p s'
  end.

(** No two adjacent characters are both of class [p]. *)
Fixpoint noAdjacent (p : ascii -> bool) (s : string) : bool :=
  match s with
  | EmptyString => true
  | String c s' => negb (p c && startsWith p s') && noAdjacent p s'
  end.

End JsString.

(** ** Slug derivation *)
Module Slug.
Import JsString.

(** The class kept by [/[^a-z0-9\s-]/g]. *)
Definition keptBySlug (c : ascii) : bool :=
  isLower c || isDigit c || isWhiteSpace c || isHyphen c.

(** [generateSlug]: the chain of six string methods, innermost first. *)
Definition generateSlug (title : string) : string :=
  let s1 := toLowerCase title in
  let s2 := keepChars keptBySlug s1 in
  let s3 := replaceRuns isWhiteSpace "-" s2 in
  let s4 := replaceRuns isHyphen "-" s3 in
  let s5 := trim s4 in
  substring 0 60 s5.

(** The stages of [generateSlug] before [substring]. *)
Definition beforeTruncation (title : string) : string :=
  trim (replaceRuns isHyphen "-"
          (replaceRuns isWhiteSpace "-"
             (keepChars keptBySlug (toLowerCase title)))).

(** What a slug is made of. *)
Definition slugChar (c : ascii) : bool := isLower c || isDigit c || isHyphen c.

(** The specification's words for an already-slugified string:
    lowercase, hyphenated (its words are joined by hyphens, not by white
    space), at most 60 characters, alphanumeric characters and hyphens
    only. *)
Definition isAlphanumeric (c : ascii) : bool := isUpper c || isLower c || isDigit c.
Definition alreadyLowercase (s : string) : Prop := toLowerCase s = s.
Definition hyphenated (s : string) : Prop :=
  allChars (fun c => negb (isWhiteSpace c)) s = true.
Definition alnumOrHyphenOnly (s : string) : Prop :=
  allChars (fun c => isAlphanumeric c || isHyphen c) s = true.

Definition slugified (s : string) : Prop :=
  alreadyLowercase s /\ hyphenated s /\ String.length s <= 60 /\ alnumOrHyphenOnly s.

End Slug.

(** ** Random choice *)
Module Random.

(** [arr[Math.floor(Math.random() * arr.length)]], with [r] the value
    of [Math.random()]; [None] is [undefined], the value of an array
    read outside its bounds. *)
Definition randomElement {A : Type} (arr : list A) (r : Q) : option A :=
  let i := Qfloor (r * inject_Z (Z.of_nat (length arr))) in
  if (i <? 0)%Z then None else arr !! Z.to_nat i.

(** What [Math.random] promises of its result. *)
Definition unitInterval (r : Q) : Prop := (0 <= r)%Q /\ (r < 1)%Q.

End Random.

(** ** Topic selection *)
Module Topics.
Import JsString Random.

Record Topic := mkTopic { topic : string; category : string; featured : bool }.

Definition TOPIC_POOL : list Topic :=
  [mkTopic "How to Write a Compelling Thesis Introduction" "Writing Tips" true;
    mkTopic "Mastering Academic Writing Style: Tips for Graduate Students" "Writing Tips" false;
    mkTopic "Common Thesis Writing Mistakes and How to Avoid Them" "Writing Tips" true;
    mkTopic "How to Write a Strong Thesis Conclusion That Impresses" "Writing Tips" false;
    mkTopic "Transition Words and Phrases for Academic Writing" "Writing Tips" false;
    mkTopic "How to Improve Your Academic Vocabulary" "Writing Tips" false;
    mkTopic "Qualitative vs Quantitative Research: Choosing the Right Method" "Research" true;
    mkTopic "How to Conduct a Systematic Literature Review" "Research" true;
    mkTopic "Primary vs Secondary Sources: A Complete Guide" "Research" false;
    mkTopic "Research Ethics: Guidelines Every Graduate Student Must Know" "Research" false;
    mkTopic "How to Find Credible Sources for Your Thesis" "Research" false;
    mkTopic "Data Collection Methods for Academic Research" "Research" false;
    mkTopic "AI Tools That Will Transform Your Thesis Writing in 2026" "Technology" true;
    mkTopic "Best Reference Management Software for Researchers" "Technology" false;
    mkTopic "How AI is Revolutionizing Academic Writing" "Technology" true;
    mkTopic "Plagiarism Detection Tools: What Every Student Should Know" "Technology" false;
    mkTopic "Using AI for Literature Review: A Complete Guide" "Technology" false;
    mkTopic "Digital Tools for Organizing Your Research" "Technology" false;
    mkTopic "Time Management Strategies for Thesis Writers" "Productivity" true;
    mkTopic "How to Overcome Writer's Block When Writing Your Thesis" "Productivity" false;
    mkTopic "Creating a Realistic Thesis Writing Schedule" "Productivity" false;
    mkTopic "Work-Life Balance During Graduate School" "Productivity" false;
    mkTopic "Productivity Apps Every Graduate Student Needs" "Productivity" false;
    mkTopic "How to Stay Motivated During Long Research Projects" "Productivity" true;
    mkTopic "Complete Guide to Thesis Formatting and Structure" "Guides" true;
    mkTopic "APA vs MLA vs Chicago: Citation Styles Explained" "Guides" false;
    mkTopic "How to Prepare for Your Thesis Defense" "Guides" true;
    mkTopic "Step-by-Step Guide to Writing Your Methodology Chapter" "Guides" false;
    mkTopic "Understanding the Thesis Approval Process" "Guides" false;
    mkTopic "How to Choose the Perfect Thesis Topic" "Guides" true
  ].

(** [s.split(' ').filter(w => w.length > 4)] *)
Definition significantWords (s : string) : list string :=
  List.filter (fun w => (4 <? String.length w)%nat) (split " " s).

(** [arr.includes(w)] on an array of strings. *)
Definition arrayIncludes (arr : list string) (w : string) : bool :=
  existsb (String.eqb w) arr.

(** The body of the [some] callback.  [matches.length > topicWords.length * 0.4]
    is written over the integers as [5 * matches > 2 * topicWords]: when
    [5] divides [n] the binary64 product [n * 0.4] is exactly the integer
    [2n/5], and otherwise it is at least [0.2] away from every integer,
    so the comparison with an integer has the same outcome. *)
Definition similar (topicLower used : string) : bool :=
  let topicWords := significantWords topicLower in
  let usedWords := significantWords used in
  let matches := List.filter (fun w => arrayIncludes usedWords w) topicWords in
  (2 * length topicWords <? 5 * length matches)%nat.

Definition availableTopics (usedTopics : list string) : list Topic :=
  List.filter
    (fun t =>
       let topicLower := toLowerCase (topic t) in
       negb (existsb (fun used => similar topicLower used) usedTopics))
    TOPIC_POOL.

Definition topicsToChoose (usedTopics : list string) : list Topic :=
  let available := availableTopics usedTopics in
  if (5 <? length available)%nat then available else TOPIC_POOL.

(** [selectUniqueTopic]; [None] is JavaScript's [undefined]. *)
Definition selectUniqueTopic (usedTopics : list string) (r : Q) : option Topic :=
  randomElement (topicsToChoose usedTopics) r.

(** The predicate given to [TOPIC_POOL.find] when a topic is provided. *)
Definition matchesProvided (providedTopic : string) (t : Topic) : bool :=
  includes (toLowerCase (topic t)) (toLowerCase providedTopic)
  || includes (toLowerCase providedTopic) (toLowerCase (topic t)).

(** [providedTopic && providedTopic.trim() !== ''] *)
Definition topicProvided (providedTopic : string) : bool :=
  negb (String.eqb providedTopic EmptyString)
  && negb (String.eqb (trim providedTopic) EmptyString).

Definition adHocTopic (providedTopic : string) : Topic :=
  mkTopic providedTopic "Guides" false.

(** The topic selection at the head of [generateBlogPost]. *)
Definition selectTopic (providedTopic : string) (usedTopics : list string) (r : Q)
  : option Topic :=
  if topicProvided providedTopic then
    let matchedTopic := List.find (matchesProvided providedTopic) TOPIC_POOL in
    Some (match matchedTopic with
          | Some t => t
          | None => adHocTopic providedTopic
          end)
  else selectUniqueTopic usedTopics r.

(** The specification's words for the similarity of a pool topic to a recent
    title: the count of the topic's significant words also present in
    the title, over the count of the topic's significant words. *)
Definition overlap (candidate used : string) : Q :=
  let candidateWords := significantWords (toLowerCase candidate) in
  let usedWords := significantWords used in
  let common := List.filter (fun w => arrayIncludes usedWords w) candidateWords in
  inject_Z (Z.of_nat (length common)) / inject_Z (Z.of_nat (length candidateWords)).

(** A pool record passes the filter when no recent title overlaps it by
    more than 40%. *)
Definition passesFilter (usedTopics : list string) (t : Topic) : Prop :=
  forall used, In used usedTopics -> (overlap (topic t) used <= 4 # 10)%Q.

(** [sub] is a substring of [s]. *)
Definition substringOf (sub s : string) : Prop :=
  exists pre post, s = pre +:+ sub +:+ post.

(** Case-insensitive substring match in either direction. *)
Definition matchEitherWay (providedTopic poolTopic : string) : Prop :=
  substringOf (toLowerCase providedTopic) (toLowerCase poolTopic)
  \/ substringOf (toLowerCase poolTopic) (toLowerCase providedTopic).

End Topics.

(** ** Image selection *)
Module Images.
Import JsString Random.

(** The own properties of the object literal [categoryImages]. *)
Definition categoryImages : gmap string (list string) :=
  list_to_map
    [("Writing Tips",
       [ "https://images.unsplash.com/photo-1455390582262-044cdead277a?w=800&q=80";
         "https://images.unsplash.com/photo-1486312338219-ce68d2c6f44d?w=800&q=80";
         "https://images.unsplash.com/photo-1499750310107-5fef28a66643?w=800&q=80";
         "https://images.unsplash.com/photo-1434030216411-0b793f4b4173?w=800&q=80";
         "https://images.unsplash.com/photo-1456324504439-367cee3b3c32?w=800&q=80";
         "https://images.unsplash.com/photo-1488190211105-8b0e65b80b4e?w=800&q=80" ]);
      ("Research",
       [ "https://images.unsplash.com/photo-1456324463128-7ff6903988d8?w=800&q=80";
         "https://images.unsplash.com/photo-1481627834876-b7833e8f5570?w=800&q=80";
         "https://images.unsplash.com/photo-1524995997946-a1c2e315a42f?w=800&q=80";
         "https://images.unsplash.com/photo-1497633762265-9d179a990aa6?w=800&q=80";
         "https://images.unsplash.com/photo-1513475382585-d06e58bcb0e0?w=800&q=80";
         "https://images.unsplash.com/photo-1507003211169-0a1dd7228f2d?w=800&q=80" ]);
      ("Technology",
       [ "https://images.unsplash.com/photo-1677442136019-21780ecad995?w=800&q=80";
         "https://images.unsplash.com/photo-1620712943543-bcc4688e7485?w=800&q=80";
         "https://images.unsplash.com/photo-1555255707-c07966088b7b?w=800&q=80";
         "https://images.unsplash.com/photo-1518770660439-4636190af475?w=800&q=80";
         "https://images.unsplash.com/photo-1485827404703-89b55fcc595e?w=800&q=80";
         "https://images.unsplash.com/photo-1519389950473-47ba0277781c?w=800&q=80" ]);
      ("Productivity",
       [ "https://images.unsplash.com/photo-1484480974693-6ca0a78fb36b?w=800&q=80";
         "https://images.unsplash.com/photo-1506784983877-45594efa4cbe?w=800&q=80";
         "https://images.unsplash.com/photo-1553877522-43269d4ea984?w=800&q=80";
         "https://images.unsplash.com/photo-1551434678-e076c223a692?w=800&q=80";
         "https://images.unsplash.com/photo-1454165804606-c3d57bc86b40?w=800&q=80";
         "https://images.unsplash.com/photo-1522202176988-66273c2fd55f?w=800&q=80" ]);
      ("Guides",
       [ "https://images.unsplash.com/photo-1523050854058-8df90110c9f1?w=800&q=80";
         "https://images.unsplash.com/photo-1541339907198-e08756dedf3f?w=800&q=80";
         "https://images.unsplash.com/photo-1427504494785-3a9ca7044f45?w=800&q=80";
         "https://images.unsplash.com/photo-1562774053-701939374585?w=800&q=80";
         "https://images.unsplash.com/photo-1523580494863-6f3031224c94?w=800&q=80";
         "https://images.unsplash.com/photo-1503676260728-1c00da094a0b?w=800&q=80" ])
    ].

(** [categoryImages] is a plain object, so a property read that finds no
    own property continues in [Object.prototype].  These are the names
    defined there; each holds a function, or for [__proto__] the
    prototype object itself. *)
Definition objectPrototypeNames : list string :=
  [ "constructor"; "__defineGetter__"; "__defineSetter__"; "hasOwnProperty";
    "__lookupGetter__"; "__lookupSetter__"; "isPrototypeOf";
    "propertyIsEnumerable"; "toString"; "valueOf"; "__proto__";
    "toLocaleString" ].

Inductive Property :=
| ImageList (urls : list string)
| Inherited.

(** [categoryImages[key]]; [None] is [undefined]. *)
Definition readCategoryImages (key : string) : option Property :=
  match categoryImages !! key with
  | Some urls => Some (ImageList urls)
  | None => if existsb (String.eqb key) objectPrototypeNames
            then Some Inherited else None
  end.

(** How a call ends: with a string, with [undefined], or by throwing. *)
Inductive Completion :=
| Returns (url : string)
| ReturnsUndefined
| Throws.

(** [selectUniqueImage].  Arrays, functions and objects are truthy, so
    [||] takes its right operand only for [undefined]; calling [filter]
    on an inherited member, which has none, throws a TypeError. *)
Definition selectUniqueImage (category : string) (usedImages : list string) (r : Q)
  : Completion :=
  let images :=
    match readCategoryImages category with
    | Some v => Some v
    | None => readCategoryImages "Guides"
    end in
  match images with
  | Some (ImageList images) =>
      let availableImages :=
        List.filter (fun img => negb (existsb (String.eqb img) usedImages)) images in
      let imagesToChooseFrom :=
        if (0 <? length availableImages)%nat then availableImages else images in
      match randomElement imagesToChooseFrom r with
      | Some url => Returns url
      | None => ReturnsUndefined
      end
  | Some Inherited => Throws
  | None => Throws
  end.

End Images.

(** ** The index and the history read from it *)
Module Index.
Import JsString.

(** JSON values: what [JSON.parse] yields and what an index record's
    properties hold ([Record<string, unknown>]). *)
#[warnings="-register-all"]
Inductive Json :=
| JNull
| JBool (b : bool)
| JNumber (q : Q)
| JString (s : string)
| JArray (items : list Json)
| JObject (members : list (string * Json)).

(** An index record is an object: a finite map from property names to
    values.  The index is an array of them, the shape the script writes
    and its annotation [Array<Record<string, unknown>>] declares. *)
Abbreviation Post := (gmap string Json).

(** [p.slug !== slug] for a string [slug]: strict inequality holds
    unless the property is that very string. *)
Definition slugDiffers (slug : string) (p : Post) : bool :=
  match p !! "slug" with
  | Some (JString s) => negb (String.eqb s slug)
  | _ => true
  end.

(** [posts = posts.filter((p) => p.slug !== slug); posts.unshift(newPost)] *)
Definition upsert (slug : string) (newPost : Post) (posts : list Post) : list Post :=
  newPost :: List.filter (slugDiffers slug) posts.

(** The slug values of an index, one per record that has the property. *)
Definition slugValues (posts : list Post) : list Json :=
  omap (fun p : Post => p !! "slug") posts.

(** At most one record per slug value. *)
Definition uniqueSlugs (posts : list Post) : Prop := NoDup (slugValues posts).

Definition hasSlug (x : string) (p : Post) : Prop := p !! "slug" = Some (JString x).

Definition hasSlugb (x : string) (p : Post) : bool := negb (slugDiffers x p).

End Index.

(** ** Paths: [path.join] of Node, POSIX flavour *)
Module Path.
Import JsString.

Definition isSlash (c : ascii) : bool := Ascii.eqb c "/".

(** The loop of [normalizeString]: the segments between slashes are
    visited in order, empty segments and [.] are skipped, [..] removes
    the segment before it (or is kept, above the start of a relative
    path); [stack] holds the segments kept so far, the last one first. *)
Fixpoint normalizeSegments (allowAboveRoot : bool) (stack segs : list string)
  : list string :=
  match segs with
  | [] => rev stack
  | seg :: rest =>
      if String.eqb seg EmptyString || String.eqb seg "."
      then normalizeSegments allowAboveRoot stack rest
      else if String.eqb seg ".."
      then match stack with
           | top :: below =>
               if String.eqb top ".."
               then if allowAboveRoot
                    then normalizeSegments allowAboveRoot (".." :: stack) rest
                    else normalizeSegments allowAboveRoot stack rest
               else normalizeSegments allowAboveRoot below rest
           | [] =>
               if allowAboveRoot
               then normalizeSegments allowAboveRoot [".."] rest
               else normalizeSegments allowAboveRoot [] rest
           end
      else normalizeSegments allowAboveRoot (seg :: stack) rest
  end.

(** [path.normalize] *)
Definition normalize (path : string) : string :=
  if String.eqb path EmptyString then "."
  else
    let isAbsolute := startsWith isSlash path in
    let trailingSeparator := endsWith isSlash path in
    let body :=
      String.concat "/" (normalizeSegments (negb isAbsolute) [] (split "/" path)) in
    if String.eqb body EmptyString
    then if isAbsolute then "/" else if trailingSeparator then "./" else "."
    else
      let body := if trailingSeparator then body +:+ "/" else body in
      if isAbsolute then "/" +:+ body else body.

(** [path.join(...parts)]: the non-empty parts joined by slashes, then
    normalised. *)
Definition join (parts : list string) : string :=
  match List.filter (fun part => negb (String.eqb part EmptyString)) parts with
  | [] => "."
  | nonEmpty => normalize (String.concat "/" nonEmpty)
  end.

(** The directories on the way from the root to [path], [path] itself
    the last: what a recursive [mkdir] creates where missing.  The root
    is not listed. *)
Definition withParents (path : string) : list string :=
  let segs := split "/" path in
  List.filter (fun dir => negb (String.eqb dir EmptyString))
    (map (fun n => String.concat "/" (take n segs)) (seq 1 (length segs))).

End Path.

(** ** JavaScript values read from parsed JSON *)
Module JsValue.
Import JsString Index.

(** A JavaScript value that is a JSON value or [undefined] ([None]). *)
Abbreviation Value := (option Json).

(** The own property [name] of an object as [JSON.parse] builds it: of
    members with the same name the last one counts. *)
Fixpoint lookupMember (name : string) (members : list (string * Json)) : Value :=
  match members with
  | [] => None
  | (key, v) :: rest =>
      match lookupMember name rest with
      | Some later => Some later
      | None => if String.eqb key name then Some v else None
      end
  end.

(** [v.name] for a value [v] that is not [null] and a name that no
    prototype defines (the script reads [title], [slug], [description],
    [excerpt], [author], [tags], [keywords], [readTime] and [content]):
    an own property of an object, [undefined] otherwise. *)
Definition member (v : Json) (name : string) : Value :=
  match v with
  | JObject members => lookupMember name members
  | _ => None
  end.

(** Truthiness, as [||] and [!] test it. *)
Definition truthy (v : Json) : bool :=
  match v with
  | JNull => false
  | JBool b => b
  | JNumber q => negb (Qeq_bool q 0)
  | JString s => negb (String.eqb s EmptyString)
  | JArray _ => true
  | JObject _ => true
  end.

Section Conversions.
(** [Number.prototype.toString] *)
Variable numberToString : Q -> string.

(** [String(v)], the conversion a template literal applies; [None] when
    it throws.  An array is its elements joined by commas, [null] giving
    the empty string; an object is [[object Object]], unless it has an
    own property [toString], which hides the method and leaves no way to
    a primitive value: a TypeError. *)
Fixpoint toStringJson (v : Json) : option string :=
  match v with
  | JNull => Some "null"
  | JBool b => Some (if b then "true" else "false")
  | JNumber q => Some (numberToString q)
  | JString s => Some s
  | JArray items =>
      let fix pieces (l : list Json) : option (list string) :=
        match l with
        | [] => Some []
        | x :: rest =>
            match (match x with JNull => Some EmptyString | _ => toStringJson x end),
                  pieces rest with
            | Some piece, Some others => Some (piece :: others)
            | _, _ => None
            end
        end in
      match pieces items with
      | Some ps => Some (String.concat "," ps)
      | None => None
      end
  | JObject members =>
      match lookupMember "toString" members with
      | Some _ => None
      | None => Some "[object Object]"
      end
  end.

(** The conversion of a value that may be [undefined]. *)
Definition toStringValue (v : Value) : option string :=
  match v with
  | Some j => toStringJson j
  | None => Some "undefined"
  end.

(** The conversion of an array element by [join]. *)
Definition elementToString (v : Json) : option string :=
  match v with
  | JNull => Some EmptyString
  | _ => toStringJson v
  end.

(** [v.join(separator)]; [None] when it throws: [v] is not an array (no
    other value has a [join] method), or an element does not convert. *)
Definition joinArray (separator : string) (v : Value) : option string :=
  match v with
  | Some (JArray items) =>
      match mapM elementToString items with
      | Some ps => Some (String.concat separator ps)
      | None => None
      end
  | _ => None
  end.

End Conversions.

(** [p.slug !== slug] for the value [slug] of a run: numbers, strings
    and booleans are compared by value; an array or an object of the
    payload is never the same object as one of the index. *)
Definition strictlyDiffers (slug : Json) (p : Post) : bool :=
  match slug, p !! "slug" with
  | JString s, Some (JString s') => negb (String.eqb s' s)
  | JNumber q, Some (JNumber q') => negb (Qeq_bool q' q)
  | JBool b, Some (JBool b') => negb (Bool.eqb b' b)
  | JNull, Some JNull => false
  | _, _ => true
  end.

End JsValue.

(** ** The file system and the history readers *)
Module History.
Import JsString Index.

Record FileSystem := mkFs {
  files : gmap string string;
  directories : gset string
}.

(** [fs.existsSync] *)
Definition existsSync (fs : FileSystem) (path : string) : bool :=
  bool_decide (is_Some (files fs !! path)) || bool_decide (path ∈ directories fs).

(** [fs.readFileSync(path, 'utf-8')]; [None] when it throws. *)
Definition readFileSync (fs : FileSystem) (path : string) : option string :=
  files fs !! path.

(** [fs.writeFileSync(path, data, 'utf-8')]: the file system with the
    file written, or [None] when the call throws (a missing parent
    directory, a parent that is a file, no permission); [throws] is the
    operating system's decision for this file system and path. *)
Definition writeFileSync (throws : FileSystem -> string -> bool)
           (fs : FileSystem) (path data : string) : option FileSystem :=
  if throws fs path then None
  else Some (mkFs (<[path := data]> (files fs)) (directories fs)).

(** [fs.mkdirSync(path, { recursive: true })], likewise: the directory
    is created, and so are the directories above it that are missing. *)
Definition mkdirSync (throws : FileSystem -> string -> bool)
           (fs : FileSystem) (path : string) : option FileSystem :=
  if throws fs path then None
  else Some (mkFs (files fs) (list_to_set (Path.withParents path) ∪ directories fs)).

(** [path.join(...parts)] *)
Definition pathJoin (parts : list string) : string := Path.join parts.

Section Readers.
(** [JSON.parse] on the contents of an index file; [None] when it
    throws. *)
Variable parseIndex : string -> option (list Post).
Variable cwd : string.

Definition historyIndexPath : string :=
  pathJoin [cwd; "posts"; "index.json"].

(** [getRecentlyUsedImages]: the [image] property of the first 15
    records, [None] for a record without one. *)
Definition getRecentlyUsedImages (fs : FileSystem) : list (option Json) :=
  let indexPath := historyIndexPath in
  if negb (existsSync fs indexPath) then []
  else
    let attempt :=
      contents ← readFileSync fs indexPath;
      posts ← parseIndex contents;
      Some (map (fun p : Post => p !! "image") (take 15 posts)) in
    match attempt with
    | Some images => images
    | None => []
    end.

(** [p.title.toLowerCase()]: throws unless the title is a string. *)
Definition lowerTitle (p : Post) : option string :=
  match p !! "title" with
  | Some (JString t) => Some (toLowerCase t)
  | _ => None
  end.

(** [getRecentTopics] *)
Definition getRecentTopics (fs : FileSystem) : list string :=
  let indexPath := historyIndexPath in
  if negb (existsSync fs indexPath) then []
  else
    let attempt :=
      contents ← readFileSync fs indexPath;
      posts ← parseIndex contents;
      mapM lowerTitle posts in
    match attempt with
    | Some titles => titles
    | None => []
    end.

End Readers.

(** [usedImages.includes(img)] compares with SameValueZero, so of the
    recorded values only the strings can equal a URL. *)
Definition imageStrings (usedImages : list (option Json)) : list string :=
  omap (fun v => match v with Some (JString s) => Some s | _ => None end) usedImages.

End History.

(** ** One run of the script *)
Module Run.
Import JsString Random Topics Images Index JsValue History Slug.

Definition seoPrimary : list string :=
  [ "thesis generator";
    "AI thesis writing";
    "thesis writing help";
    "dissertation writing";
    "academic writing AI";
    "thesis writing tool";
    "research paper generator";
    "AI academic writing";
    "essay ai";
    "write my dissertation ai";
    "free thesis writer" ].
Definition seoSecondary : list string :=
  [ "how to write a thesis";
    "thesis writing tips";
    "dissertation help";
    "research methodology";
    "literature review generator";
    "thesis structure";
    "academic writing guide";
    "thesis introduction";
    "thesis conclusion";
    "thesis defense";
    "academic paper generator" ].
Definition seoLongtail : list string :=
  [ "how to write a thesis introduction";
    "best AI thesis generator 2026";
    "thesis writing software free";
    "how to structure a dissertation";
    "AI tools for academic writing";
    "thesis writing step by step guide";
    "how to write methodology chapter";
    "thesis literature review example";
    "automatic thesis statement generator";
    "ai for literature review";
    "best dissertation writing services ai" ].

(** What [await fetch(...)] gives: a rejection, or a response with its
    [ok] flag, its status and its body ([None] when reading it fails). *)
Inductive FetchResult :=
| FetchRejected
| Response (ok : bool) (status : Z) (body : option string).

(** Everything a run reads from outside the file system. *)
Record Inputs := mkInputs {
  DEEPSEEK_API_KEY : option string;
  TOPIC : option string;
  KEYWORDS : option string;
  cwd : string;
  randomTopic : Q;
  randomImage : Q;
  randomPrimary : Q;
  randomSecondary : Q;
  randomLongtail : Q;
  reply : FetchResult;
  nowDate : string;
  nowFrontMatter : string;
  nowIndex : string
}.

(** How the process ends: [process.exit(code)], the promise of
    [generateBlogPost] resolved with the file path, or that promise
    rejected by an exception thrown outside the [try] block. *)
Inductive Ending :=
| Exit (code : Z)
| Resolved (filepath : string)
| Rejected.

Definition nl : string := String (ascii_of_nat 10) EmptyString.
Definition dquote : string := String (ascii_of_nat 34) EmptyString.
Definition quoted (s : string) : string := dquote +:+ s +:+ dquote.
Definition line (key value : string) : string := key +:+ ": " +:+ value +:+ nl.

Definition showBool (b : bool) : string := if b then "true" else "false".
(** A template literal prints [undefined] by name. *)
Definition showImage (img : option string) : string :=
  match img with Some u => u | None => "undefined" end.

(** [process.env.TOPIC || ''] *)
Definition providedTopic (i : Inputs) : string :=
  match TOPIC i with Some t => t | None => EmptyString end.

(** [process.env.KEYWORDS?.split(',').map((k) => k.trim()) || []] *)
Definition envKeywords (i : Inputs) : list string :=
  match KEYWORDS i with
  | Some k => map trim (split "," k)
  | None => []
  end.

(** [arr[Math.floor(Math.random() * arr.length)]] as it is serialised:
    [JSON.stringify] writes an [undefined] array element as [null]. *)
Definition pick (arr : list string) (r : Q) : Json :=
  match randomElement arr r with
  | Some k => JString k
  | None => JNull
  end.

Definition selectedKeywords (i : Inputs) : list Json :=
  let keywords := envKeywords i in
  if (0 <? length keywords)%nat then map JString keywords
  else [ pick seoPrimary (randomPrimary i);
         pick seoSecondary (randomSecondary i);
         pick seoLongtail (randomLongtail i) ].

(** [new Date().toISOString().split('T')[0]] *)
Definition dateOf (iso : string) : string :=
  match split "T" iso with
  | d :: _ => d
  | [] => EmptyString
  end.

(** [blogData.slug || generateSlug(blogData.title)], the value of the
    variable [slug]; [None] when the line throws: [blogData] is [null],
    or the slug is falsy and the title is not a string. *)
Definition slugOf (blogData : Json) : option Json :=
  match blogData with
  | JNull => None
  | _ =>
      let derived :=
        match member blogData "title" with
        | Some (JString title) => Some (JString (generateSlug title))
        | _ => None
        end in
      match member blogData "slug" with
      | Some slug => if truthy slug then Some slug else derived
      | None => derived
      end
  end.

(** [blogData.keywords || selectedKeywords] *)
Definition keywordsOf (i : Inputs) (blogData : Json) : Json :=
  match member blogData "keywords" with
  | Some keywords => if truthy keywords then keywords else JArray (selectedKeywords i)
  | None => JArray (selectedKeywords i)
  end.

(** A property of an object literal: left out of the serialised object
    when its value is [undefined]. *)
Definition property (name : string) (v : Value) : list (string * Json) :=
  match v with
  | Some j => [ (name, j) ]
  | None => []
  end.

Section Script.
(** The library calls whose results depend on text formats: *)
(** [JSON.parse] on the index file; [None] when it throws. *)
Variable parseIndex : string -> option (list Post).
(** The string given to [JSON.parse] for the payload, that is
    [(await response.json()).choices?.[0]?.message?.content]; [None]
    when the body is not JSON or the content is missing or falsy. *)
Variable messageContent : string -> option string.
(** [JSON.parse(content)]; [None] when it throws. *)
Variable parseBlogData : string -> option Json.
(** [JSON.stringify(value)] and [JSON.stringify(posts, null, 2)]. *)
Variable stringify : Json -> string.
Variable stringifyIndex : list Post -> string.
(** [Number.prototype.toString] *)
Variable numberToString : Q -> string.
(** Whether [fs.writeFileSync] and [fs.mkdirSync] throw. *)
Variable writeThrows : FileSystem -> string -> bool.
Variable mkdirThrows : FileSystem -> string -> bool.

(** [JSON.stringify(blogData.tags)] inside the template: [undefined] is
    printed by name. *)
Definition tagsText (blogData : Json) : string :=
  match member blogData "tags" with
  | Some tags => stringify tags
  | None => "undefined"
  end.

(** The template literal [mdxContent]; [None] when the conversion of a
    substitution throws. *)
Definition mdxContent (i : Inputs) (blogData : Json) (selectedTopic : Topic)
           (selectedImage : option string) (date slugText filename : string)
  : option string :=
  title ← toStringValue numberToString (member blogData "title");
  description ← toStringValue numberToString (member blogData "description");
  excerpt ← toStringValue numberToString (member blogData "excerpt");
  author ← toStringValue numberToString (member blogData "author");
  readTime ← toStringValue numberToString (member blogData "readTime");
  content ← toStringValue numberToString (member blogData "content");
  Some ("---" +:+ nl
        +:+ line "title" (quoted title)
        +:+ line "description" (quoted description)
        +:+ line "excerpt" (quoted excerpt)
        +:+ line "date" (quoted date)
        +:+ line "publishedAt" (quoted (nowFrontMatter i))
        +:+ line "author" (quoted author)
        +:+ line "category" (quoted (category selectedTopic))
        +:+ line "tags" (tagsText blogData)
        +:+ line "keywords" (stringify (keywordsOf i blogData))
        +:+ line "image" (quoted (showImage selectedImage))
        +:+ line "readTime" (quoted readTime)
        +:+ line "featured" (showBool (featured selectedTopic))
        +:+ line "slug" (quoted slugText)
        +:+ line "filename" (quoted filename)
        +:+ "---" +:+ nl +:+ nl
        +:+ content +:+ nl).

(** The object literal [newPost] as it is serialised. *)
Definition newPost (i : Inputs) (blogData : Json) (selectedTopic : Topic)
           (selectedImage : option string) (date : string) (slug : Json)
           (filename : string) : Post :=
  list_to_map
    (("slug", slug)
       :: property "title" (member blogData "title")
       ++ property "excerpt" (member blogData "excerpt")
       ++ property "description" (member blogData "description")
       ++ [ ("date", JString date); ("publishedAt", JString (nowIndex i)) ]
       ++ property "author" (member blogData "author")
       ++ [ ("category", JString (category selectedTopic)) ]
       ++ property "tags" (member blogData "tags")
       ++ [ ("keywords", keywordsOf i blogData) ]
       ++ property "image" (JString <$> selectedImage)
       ++ property "readTime" (member blogData "readTime")
       ++ [ ("featured", JBool (featured selectedTopic));
            ("filename", JString filename) ]).

(** The request part of the [try] block, up to [JSON.parse(content)];
    [None] when something in it throws. *)
Definition requestBlogData (i : Inputs) : option Json :=
  match reply i with
  | FetchRejected => None
  | Response ok status body =>
      if negb ok then None
      else
        text ← body;
        content ← messageContent text;
        parseBlogData content
  end.

(** The calls of [join] in the closing log lines; [None] when one
    throws: [blogData.tags.join(', ')] and
    [(blogData.keywords || selectedKeywords).join(', ')]. *)
Definition logLines (i : Inputs) (blogData : Json) : option unit :=
  _ ← joinArray numberToString ", " (member blogData "tags");
  _ ← joinArray numberToString ", " (Some (keywordsOf i blogData));
  Some tt.

(** The rest of the [try] block: the file system it leaves, and the
    returned path or [None] when it throws. *)
Definition writePost (i : Inputs) (blogData : Json) (selectedTopic : Topic)
           (selectedImage : option string) (fs : FileSystem)
  : FileSystem * option string :=
  let date := dateOf (nowDate i) in
  match slugOf blogData with
  | None => (fs, None)
  | Some slug =>
  match toStringJson numberToString slug with
  | None => (fs, None)
  | Some slugText =>
  let filename := date +:+ "-" +:+ slugText +:+ ".mdx" in
  match mdxContent i blogData selectedTopic selectedImage date slugText filename with
  | None => (fs, None)
  | Some mdx =>
  let outputDir := pathJoin [cwd i; "generated-posts"] in
  match (if negb (existsSync fs outputDir)
         then mkdirSync mkdirThrows fs outputDir else Some fs) with
  | None => (fs, None)
  | Some fs1 =>
  let filepath := pathJoin [outputDir; filename] in
  match writeFileSync writeThrows fs1 filepath mdx with
  | None => (fs1, None)
  | Some fs2 =>
  let indexPath := pathJoin [outputDir; "index.json"] in
  let loaded :=
    if existsSync fs2 indexPath
    then contents ← readFileSync fs2 indexPath; parseIndex contents
    else Some [] in
  match loaded with
  | None => (fs2, None)
  | Some posts =>
  let entry := newPost i blogData selectedTopic selectedImage date slug filename in
  let written := entry :: List.filter (strictlyDiffers slug) posts in
  match writeFileSync writeThrows fs2 indexPath (stringifyIndex written) with
  | None => (fs2, None)
  | Some fs3 =>
  match logLines i blogData with
  | None => (fs3, None)
  | Some _ => (fs3, Some filepath)
  end end end end end end end end.

(** [generateBlogPost]: selection, then the [try] block, whose
    [catch] ends the process with [process.exit(1)]. *)
Definition generateBlogPost (i : Inputs) (fs : FileSystem) : FileSystem * Ending :=
  let usedImages := getRecentlyUsedImages parseIndex (cwd i) fs in
  let usedTopics := getRecentTopics parseIndex (cwd i) fs in
  match selectTopic (providedTopic i) usedTopics (randomTopic i) with
  | None => (fs, Rejected)
  | Some selectedTopic =>
      match selectUniqueImage (category selectedTopic) (imageStrings usedImages)
                              (randomImage i) with
      | Throws => (fs, Rejected)
      | chosen =>
          let selectedImage :=
            match chosen with Returns u => Some u | _ => None end in
          match requestBlogData i with
          | None => (fs, Exit 1)
          | Some blogData =>
              match writePost i blogData selectedTopic selectedImage fs with
              | (fs', Some filepath) => (fs', Resolved filepath)
              | (fs', None) => (fs', Exit 1)
              end
          end
      end
  end.

(** The script: the credential check at load time, then the call
    [generateBlogPost()]. *)
Definition script (i : Inputs) (fs : FileSystem) : FileSystem * Ending :=
  match DEEPSEEK_API_KEY i with
  | None => (fs, Exit 1)
  | Some key =>
      if String.eqb key EmptyString then (fs, Exit 1)
      else generateBlogPost i fs
  end.

End Script.

End Run.

(** ** The first version of the script: one image list for all posts *)
Module RandomImage.
Import Random.

(** [blogImages] of [scripts/generate-blog.ts]. *)
Definition blogImages : list string :=
  [ "https://images.unsplash.com/photo-1456324463128-7ff6903988d8?w=800&q=80";
    "https://images.unsplash.com/photo-1507003211169-0a1dd7228f2d?w=800&q=80";
    "https://images.unsplash.com/photo-1481627834876-b7833e8f5570?w=800&q=80";
    "https://images.unsplash.com/photo-1524995997946-a1c2e315a42f?w=800&q=80";
    "https://images.unsplash.com/photo-1497633762265-9d179a990aa6?w=800&q=80";
    "https://images.unsplash.com/photo-1455390582262-044cdead277a?w=800&q=80";
    "https://images.unsplash.com/photo-1486312338219-ce68d2c6f44d?w=800&q=80";
    "https://images.unsplash.com/photo-1499750310107-5fef28a66643?w=800&q=80";
    "https://images.unsplash.com/photo-1434030216411-0b793f4b4173?w=800&q=80";
    "https://images.unsplash.com/photo-1456324504439-367cee3b3c32?w=800&q=80";
    "https://images.unsplash.com/photo-1523050854058-8df90110c9f1?w=800&q=80";
    "https://images.unsplash.com/photo-1541339907198-e08756dedf3f?w=800&q=80";
    "https://images.unsplash.com/photo-1427504494785-3a9ca7044f45?w=800&q=80";
    "https://images.unsplash.com/photo-1562774053-701939374585?w=800&q=80";
    "https://images.unsplash.com/photo-1523580494863-6f3031224c94?w=800&q=80";
    "https://images.unsplash.com/photo-1677442136019-21780ecad995?w=800&q=80";
    "https://images.unsplash.com/photo-1620712943543-bcc4688e7485?w=800&q=80";
    "https://images.unsplash.com/photo-1555255707-c07966088b7b?w=800&q=80";
    "https://images.unsplash.com/photo-1518770660439-4636190af475?w=800&q=80";
    "https://images.unsplash.com/photo-1485827404703-89b55fcc595e?w=800&q=80";
    "https://images.unsplash.com/photo-1551288049-bebda4e38f71?w=800&q=80";
    "https://images.unsplash.com/photo-1460925895917-afdab827c52f?w=800&q=80";
    "https://images.unsplash.com/photo-1504868584819-f8e8b4b6d7e3?w=800&q=80";
    "https://images.unsplash.com/photo-1551434678-e076c223a692?w=800&q=80";
    "https://images.unsplash.com/photo-1454165804606-c3d57bc86b40?w=800&q=80" ].

(** [getRandomImage]; [None] is [undefined]. *)
Definition getRandomImage (r : Q) : option string := randomElement blogImages r.

End RandomImage.

(** ** Sample data for the examples *)
Module Samples.
Import Index History Run.

Definition researchImages : list string :=
  [ "https://images.unsplash.com/photo-1456324463128-7ff6903988d8?w=800&q=80";
    "https://images.unsplash.com/photo-1481627834876-b7833e8f5570?w=800&q=80";
    "https://images.unsplash.com/photo-1524995997946-a1c2e315a42f?w=800&q=80";
    "https://images.unsplash.com/photo-1497633762265-9d179a990aa6?w=800&q=80";
    "https://images.unsplash.com/photo-1513475382585-d06e58bcb0e0?w=800&q=80";
    "https://images.unsplash.com/photo-1507003211169-0a1dd7228f2d?w=800&q=80" ].

(** Three index records, two of them with the same slug. *)
Definition oldRecord : Post :=
  list_to_map [ ("slug", JString "x"); ("title", JString "First draft") ].
Definition otherRecord : Post :=
  list_to_map [ ("slug", JString "y"); ("title", JString "Another post") ].
Definition newRecord : Post :=
  list_to_map [ ("slug", JString "x"); ("title", JString "Second draft") ].

(** A parser that accepts the empty array only. *)
Definition parseEmptyArrayOnly (contents : string) : option (list Post) :=
  if String.eqb contents "[]" then Some [] else None.

Definition corruptFs : FileSystem :=
  mkFs {[ "/repo/posts/index.json" := "{ not json" ]} ∅.

(** Inputs of a run whose request is answered with status 500. *)
Definition failingInputs : Inputs :=
  mkInputs (Some "sk-test") None None "/repo" (1 # 2) (1 # 2) 0 0 0
           (Response false 500 (Some "Internal Server Error"))
           "2026-01-05T09:00:00.000Z" "2026-01-05T09:00:00.001Z" "2026-01-05T09:00:00.002Z".

Definition emptyFs : FileSystem := mkFs ∅ ∅.

End Samples.

(** ** Sample indexes *)
Module IndexSamples.
Import Index History.

Definition firstPost : Post :=
  list_to_map [ ("slug", JString "thesis-tips"); ("title", JString "Thesis Tips");
                ("image", JString "https://img/1") ].
Definition secondPost : Post :=
  list_to_map [ ("slug", JString "apa-vs-mla"); ("title", JString "APA vs MLA") ].
(** A record whose title is a number. *)
Definition untitledPost : Post :=
  list_to_map [ ("slug", JString "draft"); ("title", JNumber 7) ].

Definition indexFs : FileSystem :=
  mkFs {[ "/repo/posts/index.json" := "the index" ]} ∅.

Definition parseTitled (contents : string) : option (list Post) :=
  Some [firstPost; secondPost].
Definition parseUntitled (contents : string) : option (list Post) :=
  Some [firstPost; untitledPost].

End IndexSamples.

(** ** Sample runs *)
Module RunSamples.
Import Index JsValue History Run.

(** A run with keywords given in the environment. *)
Definition keywordInputs : Inputs :=
  mkInputs (Some "sk-test") None (Some " thesis writing, academic writing ,ai ") "/repo"
           (1 # 2) (1 # 2) 0 0 0
           (Response true 200 (Some "body"))
           "2026-01-05T09:00:00.000Z" "2026-01-05T09:00:00.001Z" "2026-01-05T09:00:00.002Z".

(** A run whose request succeeds. *)
Definition successInputs : Inputs :=
  mkInputs (Some "sk-test") None None "/repo" (1 # 2) (1 # 2) 0 (1 # 3) (2 # 3)
           (Response true 200 (Some "body"))
           "2026-01-05T09:00:00.000Z" "2026-01-05T09:00:00.001Z" "2026-01-05T09:00:00.002Z".

(** A payload of the requested shape, without a slug. *)
Definition sampleBlogData : Json :=
  JObject [ ("title", JString "Ten Thesis Tips");
            ("description", JString "Ten tips.");
            ("excerpt", JString "Tips.");
            ("author", JString "Team");
            ("tags", JArray [JString "thesis"; JString "writing"]);
            ("readTime", JString "5 min read");
            ("content", JString "Body") ].

(** The same payload with a slug that leaves the output directory. *)
Definition escapingBlogData : Json :=
  JObject [ ("title", JString "Ten Thesis Tips");
            ("slug", JString "x/../../pwned");
            ("tags", JArray []) ].

(** A payload whose tags are one string, not an array. *)
Definition untaggedBlogData : Json :=
  JObject [ ("title", JString "Ten Thesis Tips");
            ("tags", JString "thesis, writing") ].

Definition contentOfBody (body : string) : option string := Some "payload".
Definition parseSamplePayload (content : string) : option Json := Some sampleBlogData.
Definition parseEscapingPayload (content : string) : option Json := Some escapingBlogData.
Definition parseUntaggedPayload (content : string) : option Json := Some untaggedBlogData.
Definition printNumber (q : Q) : string := "0".
Definition neverThrows (fs : FileSystem) (path : string) : bool := false.
Definition alwaysThrows (fs : FileSystem) (path : string) : bool := true.
Definition printJson (v : Json) : string := "json".
Definition printIndex (posts : list Post) : string := "index".
Definition parseEmptyArray (contents : string) : option (list Post) :=
  if String.eqb contents "[]" then Some [] else None.

(** A file system whose output index is damaged. *)
Definition brokenIndexFs : FileSystem :=
  mkFs {[ "/repo/generated-posts/index.json" := "{ broken" ]} {[ "/repo/generated-posts" ]}.

(** A file system with an empty output index and a history index. *)
Definition usedFs : FileSystem :=
  mkFs {[ "/repo/generated-posts/index.json" := "[]";
          "/repo/posts/index.json" := "[]" ]}
       {[ "/repo/generated-posts"; "/repo/posts" ]}.

End RunSamples.

(** ** The paths and stages of a run's writing *)
Module RunPaths.
Import Index JsValue History Run.

(** The output directory, the output index, and the document of a run
    whose slug converts to [slugText]. *)
Definition outputDirOf (i : Inputs) : string := pathJoin [cwd i; "generated-posts"].
Definition indexPathOf (i : Inputs) : string := pathJoin [outputDirOf i; "index.json"].
Definition filenameOf (i : Inputs) (slugText : string) : string :=
  dateOf (nowDate i) +:+ "-" +:+ slugText +:+ ".mdx".
Definition filepathOf (i : Inputs) (slugText : string) : string :=
  pathJoin [outputDirOf i; filenameOf i slugText].

(** The slug of a payload as text, when both steps succeed. *)
Definition slugTextOf (numberToString : Q -> string) (blogData : Json) : option string :=
  slug ← slugOf blogData; toStringJson numberToString slug.

(** The output index as the run loads it, read off the file system the
    run starts with: the parsed contents of the index file, the empty
    list when there is none, [None] when loading throws. *)
Definition outputIndex (parseIndex : string -> option (list Post))
           (i : Inputs) (fs : FileSystem) : option (list Post) :=
  if existsSync fs (indexPathOf i)
  then contents ← readFileSync fs (indexPathOf i); parseIndex contents
  else Some [].

(** [fs'] differs from [fs] at most in the files at [paths] and in the
    directories on the way to [dir]; no file and no directory of [fs]
    is missing. *)
Definition changedAtMost (paths : list string) (dir : string) (fs fs' : FileSystem) : Prop :=
  (forall path, ~ In path paths -> files fs' !! path = files fs !! path)
  /\ (forall path, is_Some (files fs !! path) -> is_Some (files fs' !! path))
  /\ (forall d, d ∈ directories fs -> d ∈ directories fs')
  /\ (forall d, d ∈ directories fs' -> d ∈ directories fs \/ In d (Path.withParents dir)).

(** The topic and the image a run selects. *)
Definition selectedTopicOf (parseIndex : string -> option (list Post))
           (i : Inputs) (fs : FileSystem) : option Topics.Topic :=
  Topics.selectTopic (providedTopic i) (getRecentTopics parseIndex (cwd i) fs)
                     (randomTopic i).

Definition selectedImageOf (parseIndex : string -> option (list Post))
           (i : Inputs) (fs : FileSystem) (t : Topics.Topic) : option string :=
  match Images.selectUniqueImage (Topics.category t)
          (imageStrings (getRecentlyUsedImages parseIndex (cwd i) fs))
          (randomImage i) with
  | Images.Returns u => Some u
  | _ => None
  end.

(** A slug that [!==] compares by value: not an array, not an object. *)
Definition comparedByValue (slug : Json) : bool :=
  match slug with
  | JArray _ | JObject _ => false
  | _ => true
  end.

(** Character classes of the last character of a path. *)
Definition isLetterX (c : ascii) : bool := Ascii.eqb c "x".
Definition isLetterN (c : ascii) : bool := Ascii.eqb c "n".

(** A string without a slash. *)
Definition slashFree (s : string) : bool :=
  JsString.allChars (fun c => negb (Path.isSlash c)) s.

(** A segment that [normalizeSegments] keeps: not empty, and neither
    [.] nor [..]. *)
Definition keptSegment (s : string) : bool :=
  negb (String.eqb s EmptyString)
  && negb (String.eqb s ".")
  && negb (String.eqb s "..").

(** A name that [path.join] appends as it is: one kept segment. *)
Definition plainSegment (s : string) : bool := keptSegment s && slashFree s.

(** [path] is the absolute path of the segments [segs], as
    [path.normalize] writes it: a slash, then the segments, one slash
    between two. *)
Definition absolute (path : string) (segs : list string) : Prop :=
  path = "/" +:+ String.concat "/" segs
  /\ segs <> []
  /\ Forall (fun seg => plainSegment seg = true) segs.

End RunPaths.

(** ** The selection and the documents of the sample runs *)
Module WrittenSamples.
Import Topics Index JsValue History Run Samples RunSamples RunPaths.

Definition sampleTopic : Topic :=
  default (mkTopic EmptyString EmptyString false)
          (selectedTopicOf parseEmptyArray successInputs usedFs).

Definition documentFor (blogData : Json) (text : string) : string :=
  default EmptyString
          (mdxContent printJson printNumber successInputs blogData sampleTopic
                      (selectedImageOf parseEmptyArray successInputs usedFs sampleTopic)
                      (dateOf (nowDate successInputs)) text
                      (filenameOf successInputs text)).

End WrittenSamples.

(** * Properties *)

(** ** Strings *)
Module JsStringFacts.
Import JsString.

Lemma allChars_impl (p q : ascii -> bool) (s : string) :
  (forall c, p c = true -> q c = true) ->
  allChars p s = true -> allChars q s = true.
Proof.
  intros Hpq. induction s as [|c s IH]; simpl; [reflexivity|].
  rewrite !andb_true_iff. intros [Hc Hs]. split; auto.
Qed.

Lemma allChars_keepChars (keep : ascii -> bool) (s : string) :
  allChars keep (keepChars keep s) = true.
Proof.
  induction s as [|c s IH]; simpl; [reflexivity|].
  destruct (keep c) eqn:Hc; simpl; [rewrite Hc|]; exact IH.
Qed.

Lemma keepChars_id (keep : ascii -> bool) (s : string) :
  allChars keep s = true -> keepChars keep s = s.
Proof.
  induction s as [|c s IH]; simpl; [reflexivity|].
  rewrite andb_true_iff. intros [Hc Hs]. rewrite Hc, IH; auto.
Qed.

Lemma mapChars_id (f : ascii -> ascii) (p : ascii -> bool) (s : string) :
  (forall c, p c = true -> f c = c) ->
  allChars p s = true -> mapChars f s = s.
Proof.
  intros Hf. induction s as [|c s IH]; simpl; [reflexivity|].
  rewrite andb_true_iff. intros [Hc Hs]. rewrite Hf, IH; auto.
Qed.

(** Replacing runs of [cls] by [r] leaves characters of class [q] when
    the input's other characters are of that class and [r] is. *)
Lemma allChars_replaceRunsFrom (cls p q : ascii -> bool) (r : ascii) (s : string) :
  (forall c, p c = true -> cls c = false -> q c = true) ->
  q r = true ->
  allChars p s = true ->
  forall inRun, allChars q (replaceRunsFrom cls r inRun s) = true.
Proof.
  intros Hpq Hr. induction s as [|c s IH]; simpl; [reflexivity|].
  rewrite andb_true_iff. intros [Hc Hs] inRun.
  destruct (cls c) eqn:Hcls.
  - destruct inRun; simpl; [|rewrite Hr]; apply IH; exact Hs.
  - simpl. rewrite (Hpq c Hc Hcls). apply IH; exact Hs.
Qed.

(** After the replacement no two characters of the class are adjacent,
    and inside a run the rest does not begin with one. *)
Lemma noAdjacent_replaceRunsFrom (cls : ascii -> bool) (r : ascii) (s : string) :
  forall inRun,
    noAdjacent cls (replaceRunsFrom cls r inRun s) = true
    /\ (inRun = true -> startsWith cls (replaceRunsFrom cls r inRun s) = false).
Proof.
  induction s as [|c s IH]; intros inRun; simpl; [split; reflexivity|].
  destruct (cls c) eqn:Hcls.
  - destruct (IH true) as [Hno Hstart]. destruct inRun.
    + split; [exact Hno | intros _; apply Hstart; reflexivity].
    + split; [|discriminate]. simpl.
      rewrite Hstart by reflexivity. rewrite andb_false_r. exact Hno.
  - destruct (IH false) as [Hno _]. simpl. rewrite Hcls. simpl.
    split; [exact Hno | intros _; reflexivity].
Qed.

Lemma replaceRunsFrom_none (cls : ascii -> bool) (r : ascii) (s : string) :
  allChars (fun c => negb (cls c)) s = true ->
  forall inRun, replaceRunsFrom cls r inRun s = s.
Proof.
  induction s as [|c s IH]; simpl; [reflexivity|].
  rewrite andb_true_iff, negb_true_iff. intros [Hc Hs] inRun.
  rewrite Hc, IH; auto.
Qed.

(** A string without adjacent characters of the class, whose members
    are all written as [r], is left as it is. *)
Lemma replaceRunsFrom_noAdjacent (cls : ascii -> bool) (r : ascii) (s : string) :
  (forall c, cls c = true -> c = r) ->
  noAdjacent cls s = true ->
  replaceRunsFrom cls r false s = s
  /\ (startsWith cls s = false -> replaceRunsFrom cls r true s = s).
Proof.
  intros Hr. induction s as [|c s IH]; simpl; [split; reflexivity|].
  rewrite andb_true_iff, negb_true_iff. intros [Hadj Hs].
  destruct (IH Hs) as [IHf IHt].
  destruct (cls c) eqn:Hcls.
  - simpl in Hadj. split; [|discriminate].
    rewrite (IHt Hadj), (Hr c Hcls). reflexivity.
  - rewrite IHf. split; reflexivity.
Qed.

Lemma trimStart_id (s : string) :
  allChars (fun c => negb (isWhiteSpace c)) s = true -> trimStart s = s.
Proof.
  destruct s as [|c s]; simpl; [reflexivity|].
  rewrite andb_true_iff, negb_true_iff. intros [Hc _]. rewrite Hc. reflexivity.
Qed.

Lemma trimEnd_id (s : string) :
  allChars (fun c => negb (isWhiteSpace c)) s = true -> trimEnd s = s.
Proof.
  induction s as [|c s IH]; simpl; [reflexivity|].
  rewrite andb_true_iff, negb_true_iff. intros [Hc Hs].
  rewrite (IH Hs), Hc. destruct s; reflexivity.
Qed.

Lemma trim_id (s : string) :
  allChars (fun c => negb (isWhiteSpace c)) s = true -> trim s = s.
Proof.
  intros H. unfold trim. rewrite (trimStart_id s H). apply trimEnd_id, H.
Qed.

Lemma length_substring_0 (n : nat) (s : string) :
  String.length (substring 0 n s) <= n.
Proof.
  revert s. induction n as [|n IH]; intros [|c s]; simpl; try lia.
  specialize (IH s). lia.
Qed.

Lemma substring_0_id (n : nat) (s : string) :
  String.length s <= n -> substring 0 n s = s.
Proof.
  revert s. induction n as [|n IH]; intros [|c s]; simpl; try reflexivity; try lia.
  intros H. rewrite IH by lia. reflexivity.
Qed.

Lemma allChars_substring_0 (p : ascii -> bool) (n : nat) (s : string) :
  allChars p s = true -> allChars p (substring 0 n s) = true.
Proof.
  revert s. induction n as [|n IH]; intros [|c s]; simpl; try reflexivity.
  rewrite !andb_true_iff. intros [Hc Hs]. split; auto.
Qed.

Lemma startsWith_substring_0 (p : ascii -> bool) (n : nat) (s : string) :
  startsWith p (substring 0 n s) = true -> startsWith p s = true.
Proof. destruct n, s; simpl; auto; discriminate. Qed.

Lemma noAdjacent_substring_0 (p : ascii -> bool) (n : nat) (s : string) :
  noAdjacent p s = true -> noAdjacent p (substring 0 n s) = true.
Proof.
  revert s. induction n as [|n IH]; intros [|c s]; simpl; try reflexivity.
  rewrite !andb_true_iff, !negb_true_iff. intros [Hadj Hs]. split; [|auto].
  destruct (p c); simpl in *; [|reflexivity].
  destruct (startsWith p (substring 0 n s)) eqn:E; [|reflexivity].
  apply startsWith_substring_0 in E. congruence.
Qed.

End JsStringFacts.

(** ** Slug derivation *)
Module SlugFacts.
Import JsString JsStringFacts Slug.

(** Facts about single characters, checked on all 256 of them. *)
Ltac each_char c :=
  destruct c as [[] [] [] [] [] [] [] []]; vm_compute; try reflexivity; try discriminate.

Lemma kept_not_space_slugChar (c : ascii) :
  keptBySlug c = true -> isWhiteSpace c = false -> slugChar c = true.
Proof. each_char c. Qed.

Lemma slugChar_not_space (c : ascii) :
  slugChar c = true -> negb (isWhiteSpace c) = true.
Proof. each_char c. Qed.

Lemma slugChar_not_hyphen_slugChar (c : ascii) :
  slugChar c = true -> isHyphen c = false -> slugChar c = true.
Proof. auto. Qed.

Lemma slugChar_kept (c : ascii) : slugChar c = true -> keptBySlug c = true.
Proof. each_char c. Qed.

Lemma slugChar_lower (c : ascii) : slugChar c = true -> lowerChar c = c.
Proof. each_char c. Qed.

Lemma isHyphen_eq (c : ascii) : isHyphen c = true -> c = "-"%char.
Proof. each_char c. Qed.

Lemma lowercase_alnum_slugChar (c : ascii) :
  lowerChar c = c -> isAlphanumeric c || isHyphen c = true -> slugChar c = true.
Proof. each_char c. Qed.

Example generateSlug_title :
  generateSlug "How to Write a Thesis: Tips & Tricks!" = "how-to-write-a-thesis-tips-tricks".
Proof. reflexivity. Qed.

Lemma generateSlug_unfold (title : string) :
  generateSlug title = substring 0 60 (beforeTruncation title).
Proof. reflexivity. Qed.

Lemma hyphens_collapsed_slugChars (title : string) :
  let s4 := replaceRuns isHyphen "-"
              (replaceRuns isWhiteSpace "-"
                 (keepChars keptBySlug (toLowerCase title))) in
  allChars slugChar s4 = true /\ noAdjacent isHyphen s4 = true.
Proof.
  simpl. split.
  - unfold replaceRuns.
    apply allChars_replaceRunsFrom with (p := slugChar);
      [auto | reflexivity |].
    apply allChars_replaceRunsFrom with (p := keptBySlug);
      [apply kept_not_space_slugChar | reflexivity |].
    apply allChars_keepChars.
  - apply noAdjacent_replaceRunsFrom.
Qed.

Lemma beforeTruncation_shape (title : string) :
  allChars slugChar (beforeTruncation title) = true
  /\ noAdjacent isHyphen (beforeTruncation title) = true.
Proof.
  destruct (hyphens_collapsed_slugChars title) as [Hall Hno].
  unfold beforeTruncation. rewrite trim_id; [split; assumption|].
  eapply allChars_impl; [apply slugChar_not_space | exact Hall].
Qed.

Lemma slugified_slugChars (s : string) :
  alreadyLowercase s -> alnumOrHyphenOnly s -> allChars slugChar s = true.
Proof.
  unfold alreadyLowercase, alnumOrHyphenOnly, toLowerCase.
  induction s as [|c s IH]; simpl; [reflexivity|].
  intros Hlow. rewrite andb_true_iff. intros [Hc Hs].
  injection Hlow as Hlc Hls.
  rewrite (lowercase_alnum_slugChar c Hlc Hc). simpl. apply IH; assumption.
Qed.

(** A string of slug characters without adjacent hyphens is a fixed
    point of every stage. *)
Lemma generateSlug_fixed (s : string) :
  allChars slugChar s = true ->
  noAdjacent isHyphen s = true ->
  String.length s <= 60 ->
  generateSlug s = s.
Proof.
  intros Hall Hno Hlen. unfold generateSlug, toLowerCase, replaceRuns.
  rewrite (mapChars_id lowerChar slugChar s slugChar_lower Hall).
  rewrite keepChars_id by (eapply allChars_impl; [apply slugChar_kept | exact Hall]).
  rewrite (replaceRunsFrom_none isWhiteSpace)
    by (eapply allChars_impl; [apply slugChar_not_space | exact Hall]).
  destruct (replaceRunsFrom_noAdjacent isHyphen "-" s isHyphen_eq Hno) as [-> _].
  rewrite trim_id by (eapply allChars_impl; [apply slugChar_not_space | exact Hall]).
  apply substring_0_id, Hlen.
Qed.

Lemma generateSlug_slugChars (title : string) :
  String.length (generateSlug title) <= 60
  /\ allChars slugChar (generateSlug title) = true
  /\ noAdjacent isHyphen (generateSlug title) = true.
Proof.
  rewrite generateSlug_unfold.
  destruct (beforeTruncation_shape title) as [Hall Hno].
  split; [apply length_substring_0|].
  split; [apply allChars_substring_0, Hall | apply noAdjacent_substring_0, Hno].
Qed.

(** C10: for every input the slug has at most 60 characters, all of them
    lowercase ASCII letters, digits or hyphens, and no two hyphens in a
    row; it can begin and end with a hyphen, as for a title in spaces,
    whose spaces are hyphens by the time [trim] runs. *)
Theorem generateSlug_shape :
  (forall title : string,
      String.length (generateSlug title) <= 60
      /\ allChars slugChar (generateSlug title) = true
      /\ noAdjacent isHyphen (generateSlug title) = true)
  /\ generateSlug " a " = "-a-"
  /\ (exists title, startsWith isHyphen (generateSlug title) = true)
  /\ (exists title, endsWith isHyphen (generateSlug title) = true).
Proof.
  split; [exact generateSlug_slugChars|].
  split; [reflexivity | split; exists " a "; reflexivity].
Qed.

(** C3 as stated fails: a lowercase string of letters and hyphens with
    two hyphens in a row is changed, its hyphens being collapsed. *)
Lemma generateSlug_not_idempotent_on_double_hyphen :
  slugified "a--b" /\ generateSlug "a--b" = "a-b" /\ generateSlug "a--b" <> "a--b".
Proof.
  split; [|split; [reflexivity | discriminate]].
  unfold slugified, alreadyLowercase, hyphenated, alnumOrHyphenOnly.
  repeat split; simpl; try reflexivity; lia.
Qed.

(** C3, amended: a string that is lowercase, hyphenated, at most 60
    characters long, made of alphanumeric characters and hyphens only,
    and without two hyphens in a row, is returned unchanged. *)
Theorem generateSlug_idempotent (s : string) :
  slugified s ->
  noAdjacent isHyphen s = true ->
  generateSlug s = s.
Proof.
  intros (Hlow & _ & Hlen & Halnum) Hno.
  apply generateSlug_fixed; [apply slugified_slugChars| |]; assumption.
Qed.

Lemma generateSlug_idempotent_witness :
  slugified "thesis-writing-tips-2026"
  /\ noAdjacent isHyphen "thesis-writing-tips-2026" = true
  /\ generateSlug "thesis-writing-tips-2026" = "thesis-writing-tips-2026".
Proof.
  assert (Hs : slugified "thesis-writing-tips-2026").
  { unfold slugified, alreadyLowercase, hyphenated, alnumOrHyphenOnly.
    repeat split; simpl; try reflexivity; lia. }
  split; [exact Hs|]. split; [reflexivity|].
  apply (generateSlug_idempotent "thesis-writing-tips-2026" Hs). reflexivity.
Defined.

(** Applying [generateSlug] to one of its own results changes nothing. *)
Lemma generateSlug_twice (title : string) :
  generateSlug (generateSlug title) = generateSlug title.
Proof.
  destruct (generateSlug_slugChars title) as (Hlen & Hall & Hno).
  apply generateSlug_fixed; assumption.
Qed.

End SlugFacts.

(** ** Random choice *)
Module RandomFacts.
Import Random.

(** A draw from a non-empty array is one of its elements. *)
Lemma randomElement_In {A : Type} (arr : list A) (r : Q) :
  unitInterval r -> arr <> [] ->
  exists x, randomElement arr r = Some x /\ In x arr.
Proof.
  intros [Hlo Hhi] Hne. unfold randomElement.
  set (n := Z.of_nat (length arr)).
  assert (Hn : (0 < n)%Z) by (destruct arr; [congruence | subst n; simpl; lia]).
  assert (Hprod_lo : (0 <= r * inject_Z n)%Q).
  { apply Qmult_le_0_compat; [exact Hlo|]. change 0%Q with (inject_Z 0).
    rewrite <- Zle_Qle. lia. }
  assert (Hprod_hi : (r * inject_Z n < inject_Z n)%Q).
  { rewrite <- (Qmult_1_l (inject_Z n)) at 2.
    apply Qmult_lt_compat_r; [|exact Hhi]. change 0%Q with (inject_Z 0).
    rewrite <- Zlt_Qlt. exact Hn. }
  assert (Hfl_lo : (0 <= Qfloor (r * inject_Z n))%Z).
  { change 0%Z with (Qfloor (inject_Z 0)). apply Qfloor_resp_le. exact Hprod_lo. }
  assert (Hfl_hi : (Qfloor (r * inject_Z n) < n)%Z).
  { rewrite Zlt_Qlt. eapply Qle_lt_trans; [apply Qfloor_le | exact Hprod_hi]. }
  destruct (Z.ltb_spec (Qfloor (r * inject_Z n)) 0) as [Hneg|_]; [lia|].
  destruct (arr !! Z.to_nat (Qfloor (r * inject_Z n))) as [x|] eqn:Hx.
  - exists x. split; [reflexivity|].
    apply list_elem_of_In, list_elem_of_lookup. eauto.
  - apply lookup_ge_None in Hx. subst n. lia.
Qed.

(** Every element of the array is the draw for some value of
    [Math.random]: the element at index [k] of [n] for [k / n]. *)
Lemma randomElement_any {A : Type} (arr : list A) (x : A) :
  In x arr ->
  exists r, unitInterval r /\ randomElement arr r = Some x.
Proof.
  intros Hin. apply list_elem_of_In, list_elem_of_lookup in Hin.
  destruct Hin as [k Hk]. pose proof (lookup_lt_Some _ _ _ Hk) as Hlt.
  set (n := length arr) in *.
  exists (Z.of_nat k # Pos.of_nat n).
  assert (Hpos : Zpos (Pos.of_nat n) = Z.of_nat n).
  { lia. }
  assert (Hfloor : Qfloor ((Z.of_nat k # Pos.of_nat n) * inject_Z (Z.of_nat n))
                   = Z.of_nat k).
  { transitivity (Qfloor (inject_Z (Z.of_nat k))); [|apply Qfloor_Z].
    apply Qfloor_comp. unfold Qeq, Qmult, inject_Z. simpl.
    rewrite Pos.mul_1_r, Hpos. lia. }
  split.
  - split; unfold Qle, Qlt; simpl; rewrite ?Hpos; lia.
  - unfold randomElement. fold n. rewrite Hfloor.
    destruct (Z.ltb_spec (Z.of_nat k) 0); [lia|]. rewrite Nat2Z.id. exact Hk.
Qed.

(** One half is a value [Math.random] can return. *)
Lemma unitInterval_half : unitInterval (1 # 2).
Proof. split; vm_compute; [discriminate | reflexivity]. Defined.

End RandomFacts.

(** ** Topic selection *)
Module TopicFacts.
Import JsString Random RandomFacts Topics.

(** The integer test of the code is the spec's ratio test. *)
Lemma ratio_test (m n : nat) :
  m <= n ->
  (2 * n <? 5 * m)%nat = true
  <-> (4 # 10 < inject_Z (Z.of_nat m) / inject_Z (Z.of_nat n))%Q.
Proof.
  intros Hmn. rewrite Nat.ltb_lt. destruct n as [|n].
  - assert (m = 0) as -> by lia. split; [lia|]. vm_compute. discriminate.
  - unfold Qlt, Qdiv, Qmult, Qinv. simpl. lia.
Qed.

Lemma similar_overlap (candidate used : string) :
  similar (toLowerCase candidate) used = true
  <-> (4 # 10 < overlap candidate used)%Q.
Proof.
  unfold similar, overlap. apply ratio_test, filter_length_le.
Qed.

Lemma existsb_false {A : Type} (f : A -> bool) (l : list A) :
  existsb f l = false <-> forall x, In x l -> f x = false.
Proof.
  induction l as [|a l IH]; simpl.
  - split; [intros _ x [] | reflexivity].
  - rewrite orb_false_iff, IH. split.
    + intros [Ha Hl] x [<-|Hx]; auto.
    + intros H. split; [apply H; left; reflexivity | intros x Hx; apply H; right; exact Hx].
Qed.

(** The records of [availableTopics] are the pool records that pass
    the filter. *)
Lemma availableTopics_spec (usedTopics : list string) (t : Topic) :
  In t (availableTopics usedTopics) <-> In t TOPIC_POOL /\ passesFilter usedTopics t.
Proof.
  unfold availableTopics, passesFilter. rewrite filter_In, negb_true_iff, existsb_false.
  split; intros [Hin H]; (split; [exact Hin|]); intros used Hused.
  - apply Qnot_lt_le. intros Hlt. apply similar_overlap in Hlt.
    rewrite (H used Hused) in Hlt. discriminate.
  - destruct (similar (toLowerCase (topic t)) used) eqn:E; [|reflexivity].
    apply similar_overlap in E. apply Qlt_not_le in E. destruct E. apply H, Hused.
Qed.

Lemma topicsToChoose_cases (usedTopics : list string) :
  (5 < length (availableTopics usedTopics)
   /\ topicsToChoose usedTopics = availableTopics usedTopics)
  \/ (length (availableTopics usedTopics) < 6
      /\ topicsToChoose usedTopics = TOPIC_POOL).
Proof.
  unfold topicsToChoose.
  destruct (Nat.ltb_spec 5 (length (availableTopics usedTopics))); [left | right];
    split; auto; lia.
Qed.

Lemma topicsToChoose_nonempty (usedTopics : list string) :
  topicsToChoose usedTopics <> [].
Proof.
  destruct (topicsToChoose_cases usedTopics) as [[Hlen ->]|[_ ->]].
  - intros E. rewrite E in Hlen. simpl in Hlen. lia.
  - discriminate.
Qed.

Lemma topicsToChoose_pool (usedTopics : list string) (t : Topic) :
  In t (topicsToChoose usedTopics) -> In t TOPIC_POOL.
Proof.
  destruct (topicsToChoose_cases usedTopics) as [[_ ->]|[_ ->]]; [|auto].
  intros H. apply availableTopics_spec in H. tauto.
Qed.

(** [selectUniqueTopic] always returns a record of the pool. *)
Lemma selectUniqueTopic_returns (usedTopics : list string) (r : Q) :
  unitInterval r ->
  exists t, selectUniqueTopic usedTopics r = Some t /\ In t (topicsToChoose usedTopics).
Proof.
  intros Hr. apply randomElement_In; [exact Hr | apply topicsToChoose_nonempty].
Qed.

(** C1: the eligible set is the set of pool records that pass the 40%
    filter when at least 6 pass it, and the whole 30-entry pool
    otherwise; the record returned is a member of the eligible set, so
    it overlaps no recent title by more than 40% unless fewer than 6
    records pass, in which case every pool record is a possible
    result. *)
Theorem selectUniqueTopic_eligible (usedTopics : list string) (r : Q) :
  unitInterval r ->
  length TOPIC_POOL = 30
  /\ (forall t, In t (availableTopics usedTopics)
                <-> In t TOPIC_POOL /\ passesFilter usedTopics t)
  /\ exists t,
      selectUniqueTopic usedTopics r = Some t
      /\ In t (topicsToChoose usedTopics)
      /\ In t TOPIC_POOL
      /\ (6 <= length (availableTopics usedTopics) ->
          topicsToChoose usedTopics = availableTopics usedTopics
          /\ passesFilter usedTopics t)
      /\ (length (availableTopics usedTopics) < 6 ->
          topicsToChoose usedTopics = TOPIC_POOL
          /\ forall p, In p TOPIC_POOL ->
                       exists r', unitInterval r'
                                  /\ selectUniqueTopic usedTopics r' = Some p).
Proof.
  intros Hr. split; [reflexivity|]. split; [apply availableTopics_spec|].
  destruct (selectUniqueTopic_returns usedTopics r Hr) as (t & Hsel & Hin).
  exists t. split; [exact Hsel|]. split; [exact Hin|].
  split; [apply (topicsToChoose_pool usedTopics), Hin|].
  destruct (topicsToChoose_cases usedTopics) as [[Hlen Heq]|[Hlen Heq]].
  - split; [|lia]. intros _. split; [exact Heq|].
    rewrite Heq in Hin. apply availableTopics_spec in Hin. tauto.
  - split; [lia|]. intros _. split; [exact Heq|].
    intros p Hp. unfold selectUniqueTopic. rewrite Heq.
    apply randomElement_any, Hp.
Qed.

(** When every pool topic is a recent title nothing passes the filter
    and the whole pool is chosen from. *)
Example every_topic_used :
  let usedTopics := map (fun t => toLowerCase (topic t)) TOPIC_POOL in
  availableTopics usedTopics = [] /\ topicsToChoose usedTopics = TOPIC_POOL.
Proof. vm_compute. split; reflexivity. Qed.

(** With no history nothing is filtered out. *)
Example no_history : availableTopics [] = TOPIC_POOL.
Proof. reflexivity. Qed.

Lemma selectUniqueTopic_eligible_witness :
  unitInterval (1 # 2)
  /\ exists t,
      selectUniqueTopic ["how to write a compelling thesis introduction"] (1 # 2) = Some t
      /\ passesFilter ["how to write a compelling thesis introduction"] t.
Proof.
  split; [exact unitInterval_half|].
  destruct (selectUniqueTopic_eligible
              ["how to write a compelling thesis introduction"] (1 # 2) unitInterval_half)
    as (_ & _ & t & Hsel & _ & _ & Hmany & _).
  exists t. split; [exact Hsel|]. apply Hmany. vm_compute. lia.
Defined.

End TopicFacts.

(** ** A provided topic *)
Module ProvidedTopicFacts.
Import JsString Random Topics.

Lemma prefix_spec (a b : string) :
  String.prefix a b = true <-> exists post, b = a +:+ post.
Proof.
  revert b. induction a as [|c a IH]; intros [|d b]; simpl.
  - split; [exists EmptyString; reflexivity | reflexivity].
  - split; [exists (String d b); reflexivity | reflexivity].
  - split; [discriminate | intros [post H]; discriminate].
  - destruct (ascii_dec c d) as [->|Hne].
    + rewrite IH. split; intros [post H]; exists post; [rewrite H | injection H]; auto.
    + split; [discriminate | intros [post H]; injection H; congruence].
Qed.

Lemma includes_unfold (s sub : string) :
  includes s sub =
  if String.prefix sub s then true
  else match s with
       | EmptyString => false
       | String _ s' => includes s' sub
       end.
Proof. destruct s; reflexivity. Qed.

(** [includes] decides the substring relation. *)
Lemma includes_spec (s sub : string) :
  includes s sub = true <-> substringOf sub s.
Proof.
  unfold substringOf. split.
  - induction s as [|c s IH]; rewrite includes_unfold;
      destruct (String.prefix sub _) eqn:Hp.
    + intros _. apply prefix_spec in Hp. destruct Hp as [post ->].
      exists EmptyString, post. reflexivity.
    + discriminate.
    + intros _. apply prefix_spec in Hp. destruct Hp as [post ->].
      exists EmptyString, post. reflexivity.
    + intros H. destruct (IH H) as (pre & post & ->).
      exists (String c pre), post. reflexivity.
  - intros (pre & post & ->). induction pre as [|c pre IH]; rewrite includes_unfold.
    + change (EmptyString +:+ sub +:+ post) with (sub +:+ post).
      replace (String.prefix sub (sub +:+ post)) with true; [reflexivity|].
      symmetry. apply prefix_spec. exists post. reflexivity.
    + change (String c pre +:+ sub +:+ post) with (String c (pre +:+ sub +:+ post)).
      destruct (String.prefix sub _); [reflexivity | exact IH].
Qed.

Lemma matchesProvided_spec (providedTopic : string) (t : Topic) :
  matchesProvided providedTopic t = true <-> matchEitherWay providedTopic (topic t).
Proof.
  unfold matchesProvided, matchEitherWay.
  rewrite orb_true_iff, !includes_spec. reflexivity.
Qed.

Lemma matchesProvided_false (providedTopic : string) (t : Topic) :
  matchesProvided providedTopic t = false -> ~ matchEitherWay providedTopic (topic t).
Proof.
  intros Hf Hm. apply matchesProvided_spec in Hm. congruence.
Qed.

(** [find] returns the first element that satisfies the predicate. *)
Lemma find_first {A : Type} (f : A -> bool) (l : list A) (x : A) :
  List.find f l = Some x ->
  exists before after,
    l = (before ++ x :: after)%list /\ f x = true /\ forall y, In y before -> f y = false.
Proof.
  induction l as [|a l IH]; simpl; [discriminate|].
  destruct (f a) eqn:Ha.
  - intros [= ->]. exists [], l. split; [reflexivity|]. split; [exact Ha | intros y []].
  - intros H. destruct (IH H) as (before & after & -> & Hx & Hb).
    exists (a :: before), after. split; [reflexivity|]. split; [exact Hx|].
    intros y [<-|Hy]; auto.
Qed.

(** C8: a provided topic selects the first pool record whose topic
    contains it or is contained in it, case ignored, and otherwise an
    ad-hoc record of category Guides that is not featured; the topic
    "Thesis Defense" selects "How to Prepare for Your Thesis Defense",
    of category Guides and featured. *)
Theorem selectTopic_provided (providedTopic : string) (usedTopics : list string) (r : Q) :
  topicProvided providedTopic = true ->
  (exists t,
      selectTopic providedTopic usedTopics r = Some t
      /\ ((exists before after,
              TOPIC_POOL = (before ++ t :: after)%list
              /\ matchEitherWay providedTopic (topic t)
              /\ forall p, In p before -> ~ matchEitherWay providedTopic (topic p))
          \/ ((forall p, In p TOPIC_POOL -> ~ matchEitherWay providedTopic (topic p))
              /\ t = mkTopic providedTopic "Guides" false)))
  /\ topicProvided "Thesis Defense" = true
  /\ selectTopic "Thesis Defense" usedTopics r
     = Some (mkTopic "How to Prepare for Your Thesis Defense" "Guides" true).
Proof.
  intros Hgiven. split; [|split; reflexivity].
  unfold selectTopic. rewrite Hgiven.
  destruct (List.find (matchesProvided providedTopic) TOPIC_POOL) as [t|] eqn:Hfind.
  - exists t. split; [reflexivity|]. left.
    destruct (find_first _ _ _ Hfind) as (before & after & Hpool & Ht & Hbefore).
    exists before, after. split; [exact Hpool|].
    split; [apply matchesProvided_spec, Ht|].
    intros p Hp. apply matchesProvided_false, Hbefore, Hp.
  - exists (adHocTopic providedTopic). split; [reflexivity|]. right.
    split; [|reflexivity].
    intros p Hp. apply matchesProvided_false. exact (find_none _ _ Hfind p Hp).
Qed.

Lemma selectTopic_provided_witness :
  topicProvided "Zotero" = true
  /\ selectTopic "Zotero" [] 0 = Some (mkTopic "Zotero" "Guides" false)
  /\ selectTopic "Thesis Defense" [] 0
     = Some (mkTopic "How to Prepare for Your Thesis Defense" "Guides" true).
Proof.
  split; [reflexivity|]. split; [reflexivity|].
  exact (proj2 (proj2 (selectTopic_provided "Zotero" [] 0 eq_refl))).
Defined.

End ProvidedTopicFacts.

(** ** Image selection *)
Module ImageFacts.
Import JsString Random RandomFacts Images Samples.

(** Every curated list has six entries. *)
Lemma categoryImages_six (category : string) (images : list string) :
  categoryImages !! category = Some images -> length images = 6.
Proof.
  unfold categoryImages. intros H.
  apply elem_of_list_to_map in H.
  - repeat (apply elem_of_cons in H; destruct H as [Heq|H];
            [injection Heq as _ Himages; rewrite Himages; reflexivity|]).
    apply elem_of_nil in H. destruct H.
  - apply (bool_decide_unpack _). vm_compute. exact I.
Qed.

(** What is chosen from: the unused images, or all of them when none
    is unused; never an empty list for a non-empty [images]. *)
Lemma choice_from_images (images usedImages : list string) (r : Q) :
  unitInterval r -> images <> [] ->
  let availableImages :=
    List.filter (fun img => negb (existsb (String.eqb img) usedImages)) images in
  let imagesToChooseFrom :=
    if (0 <? length availableImages)%nat then availableImages else images in
  exists url, randomElement imagesToChooseFrom r = Some url
              /\ In url imagesToChooseFrom /\ In url images.
Proof.
  intros Hr Hne availableImages imagesToChooseFrom.
  assert (Hsub : forall u, In u imagesToChooseFrom -> In u images).
  { subst imagesToChooseFrom. destruct (0 <? length availableImages)%nat; [|auto].
    intros u Hu. apply filter_In in Hu. tauto. }
  assert (Hne' : imagesToChooseFrom <> []).
  { subst imagesToChooseFrom.
    destruct (Nat.ltb_spec 0 (length availableImages)); [|exact Hne].
    intros E. rewrite E in *. simpl in *. lia. }
  destruct (randomElement_In imagesToChooseFrom r Hr Hne') as (url & Hsel & Hin).
  exists url. auto.
Qed.

(** A category of the curated map always gets one of its images. *)
Lemma selectUniqueImage_curated (category : string) (images usedImages : list string) (r : Q) :
  categoryImages !! category = Some images ->
  unitInterval r ->
  exists url, selectUniqueImage category usedImages r = Returns url /\ In url images.
Proof.
  intros Hcat Hr. unfold selectUniqueImage, readCategoryImages. rewrite Hcat.
  assert (Hne : images <> []).
  { apply categoryImages_six in Hcat. intros ->. discriminate. }
  destruct (choice_from_images images usedImages r Hr Hne) as (url & Hsel & _ & Hin).
  exists url. cbv zeta in Hsel. rewrite Hsel. auto.
Qed.

(** When every image of the category is recently used, nothing is
    excluded: the choice is made from the full list. *)
Lemma all_used_none_available (images usedImages : list string) :
  (forall url, In url images -> In url usedImages) ->
  List.filter (fun img => negb (existsb (String.eqb img) usedImages)) images = [].
Proof.
  intros Hall. induction images as [|u images IH]; simpl; [reflexivity|].
  assert (Hu : existsb (String.eqb u) usedImages = true).
  { apply existsb_exists. exists u. split; [apply Hall; left; reflexivity|].
    apply String.eqb_refl. }
  rewrite Hu. simpl. apply IH. intros url Hurl. apply Hall. right. exact Hurl.
Qed.

(** C6: for a category of the curated map whose images are all in the
    recently-used list, [selectUniqueImage] returns a string, one of the
    category's curated images; it neither throws nor returns
    [undefined]. *)
Theorem selectUniqueImage_all_used
        (category : string) (images usedImages : list string) (r : Q) :
  categoryImages !! category = Some images ->
  (forall url, In url images -> In url usedImages) ->
  unitInterval r ->
  exists url,
    selectUniqueImage category usedImages r = Returns url
    /\ randomElement images r = Some url
    /\ In url images.
Proof.
  intros Hcat Hall Hr.
  destruct (selectUniqueImage_curated category images usedImages r Hcat Hr)
    as (url & Hsel & Hin).
  exists url. split; [exact Hsel|]. split; [|exact Hin].
  unfold selectUniqueImage, readCategoryImages in Hsel. rewrite Hcat in Hsel.
  rewrite (all_used_none_available images usedImages Hall) in Hsel. simpl in Hsel.
  destruct (randomElement images r); congruence.
Qed.

Lemma selectUniqueImage_all_used_witness :
  categoryImages !! "Research" = Some researchImages
  /\ (forall url, In url researchImages -> In url (rev researchImages))
  /\ exists url,
      selectUniqueImage "Research" (rev researchImages) (1 # 2) = Returns url
      /\ In url researchImages.
Proof.
  assert (Hcat : categoryImages !! "Research" = Some researchImages)
    by (vm_compute; reflexivity).
  assert (Hall : forall url, In url researchImages -> In url (rev researchImages))
    by (intros url; apply in_rev).
  split; [exact Hcat|]. split; [exact Hall|].
  destruct (selectUniqueImage_all_used "Research" researchImages (rev researchImages)
              (1 # 2) Hcat Hall unitInterval_half) as (url & Hsel & _ & Hin).
  exists url. split; [exact Hsel | exact Hin].
Defined.

(** A name that is neither a curated category nor defined by
    [Object.prototype] reads as [undefined], so the images of Guides are
    used. *)
Lemma selectUniqueImage_unknown (category : string) (usedImages : list string) (r : Q) :
  readCategoryImages category = None ->
  unitInterval r ->
  exists url guides,
    categoryImages !! "Guides" = Some guides
    /\ selectUniqueImage category usedImages r = Returns url
    /\ In url guides.
Proof.
  intros Hnone Hr.
  destruct (categoryImages !! "Guides") as [guides|] eqn:Hg; [|vm_compute in Hg; discriminate].
  destruct (selectUniqueImage_curated "Guides" guides usedImages r Hg Hr)
    as (url & Hsel & Hin).
  exists url, guides. split; [reflexivity|]. split; [|exact Hin].
  unfold selectUniqueImage in *. rewrite Hnone.
  unfold readCategoryImages in *. rewrite Hg in *. exact Hsel.
Qed.

Example selectUniqueImage_unknown_category :
  selectUniqueImage "Opinion" [] (1 # 2)
  = Returns "https://images.unsplash.com/photo-1562774053-701939374585?w=800&q=80".
Proof. vm_compute. reflexivity. Qed.




End ImageFacts.

(** ** The index upsert *)
Module IndexFacts.
Import Index Samples.

Lemma slugDiffers_false (x : string) (p : Post) :
  slugDiffers x p = false <-> hasSlug x p.
Proof.
  unfold slugDiffers, hasSlug.
  destruct (p !! "slug") as [[| | |s| |]|]; try (split; [discriminate | congruence]).
  rewrite negb_false_iff, String.eqb_eq. split; congruence.
Qed.

Lemma hasSlugb_true (x : string) (p : Post) :
  hasSlugb x p = true <-> hasSlug x p.
Proof. unfold hasSlugb. rewrite negb_true_iff. apply slugDiffers_false. Qed.

(** No record kept by the filter has the new slug. *)
Lemma filtered_without_slug (x : string) (posts : list Post) (p : Post) :
  In p (List.filter (slugDiffers x) posts) -> ~ hasSlug x p.
Proof.
  rewrite filter_In. intros [_ Hd] Hs. apply slugDiffers_false in Hs. congruence.
Qed.

Lemma filter_hasSlugb_filtered (x : string) (posts : list Post) :
  List.filter (hasSlugb x) (List.filter (slugDiffers x) posts) = [].
Proof.
  induction posts as [|p posts IH]; simpl; [reflexivity|].
  destruct (slugDiffers x p) eqn:Hd; simpl; [|exact IH].
  unfold hasSlugb. rewrite Hd. simpl. exact IH.
Qed.

(** The written index: the new record first, the only one with its slug. *)
Lemma upsert_one_record (x : string) (newPost : Post) (posts : list Post) :
  hasSlug x newPost ->
  upsert x newPost posts !! 0 = Some newPost
  /\ List.filter (hasSlugb x) (upsert x newPost posts) = [newPost]
  /\ (forall i p, upsert x newPost posts !! i = Some p -> hasSlug x p ->
                  i = 0 /\ p = newPost).
Proof.
  intros Hnew. unfold upsert. split; [reflexivity|]. split.
  - simpl. apply hasSlugb_true in Hnew. rewrite Hnew.
    rewrite filter_hasSlugb_filtered. reflexivity.
  - intros [|i] p Hp Hs; simpl in Hp.
    + split; [reflexivity | congruence].
    + exfalso. apply (filtered_without_slug x posts p); [|exact Hs].
      apply list_elem_of_In, list_elem_of_lookup. eauto.
Qed.

(** C2: when the index holds a record with slug [x] and the new record
    has slug [x] too, the index written by the upsert has the new record
    at position 0 and no other record with slug [x]: exactly one. *)
Theorem upsert_replaces (x : string) (newPost : Post) (posts : list Post) :
  (exists p, In p posts /\ hasSlug x p) ->
  hasSlug x newPost ->
  upsert x newPost posts !! 0 = Some newPost
  /\ length (List.filter (hasSlugb x) (upsert x newPost posts)) = 1
  /\ (forall i p, upsert x newPost posts !! i = Some p -> hasSlug x p ->
                  i = 0 /\ p = newPost).
Proof.
  intros _ Hnew.
  destruct (upsert_one_record x newPost posts Hnew) as (Hhead & Hone & Honly).
  split; [exact Hhead|]. split; [rewrite Hone; reflexivity | exact Honly].
Qed.

Lemma upsert_replaces_witness :
  (exists p, In p [otherRecord; oldRecord] /\ hasSlug "x" p)
  /\ hasSlug "x" newRecord
  /\ upsert "x" newRecord [otherRecord; oldRecord] = [newRecord; otherRecord]
  /\ length (List.filter (hasSlugb "x") (upsert "x" newRecord [otherRecord; oldRecord])) = 1.
Proof.
  assert (Hold : exists p, In p [otherRecord; oldRecord] /\ hasSlug "x" p).
  { exists oldRecord. split; [right; left; reflexivity | vm_compute; reflexivity]. }
  assert (Hnew : hasSlug "x" newRecord) by (vm_compute; reflexivity).
  split; [exact Hold|]. split; [exact Hnew|]. split; [vm_compute; reflexivity|].
  exact (proj1 (proj2 (upsert_replaces "x" newRecord [otherRecord; oldRecord] Hold Hnew))).
Defined.

Lemma slugValues_cons (p : Post) (posts : list Post) :
  slugValues (p :: posts)
  = match p !! "slug" with
    | Some v => v :: slugValues posts
    | None => slugValues posts
    end.
Proof. reflexivity. Qed.

Lemma slugValues_filter_sub (f : Post -> bool) (posts : list Post) (v : Json) :
  v ∈ slugValues (List.filter f posts) -> v ∈ slugValues posts.
Proof.
  unfold slugValues. rewrite !list_elem_of_omap.
  intros (p & Hp & Hv). exists p. split; [|exact Hv].
  apply list_elem_of_In in Hp. apply filter_In in Hp. apply list_elem_of_In. tauto.
Qed.

(** Filtering keeps slug values distinct. *)
Lemma uniqueSlugs_filter (f : Post -> bool) (posts : list Post) :
  uniqueSlugs posts -> uniqueSlugs (List.filter f posts).
Proof.
  unfold uniqueSlugs. induction posts as [|p posts IH]; [auto|].
  rewrite slugValues_cons. intros Hnd.
  assert (Hrest : NoDup (slugValues posts))
    by (destruct (p !! "slug"); [apply NoDup_cons in Hnd; tauto | exact Hnd]).
  cbn [List.filter]. destruct (f p); [|auto].
  rewrite slugValues_cons. destruct (p !! "slug") as [v|]; [|auto].
  apply NoDup_cons in Hnd. destruct Hnd as [Hv _].
  apply NoDup_cons. split; [|auto].
  intros Hin. apply Hv. eapply slugValues_filter_sub, Hin.
Qed.




End IndexFacts.

(** ** The history readers *)
Module HistoryFacts.
Import Index History Samples.

(** C9: when the index file is missing, or its contents do not parse as
    JSON, both history readers return the empty list; the exception is
    caught inside, so nothing is raised to the caller. *)
Theorem history_readers_best_effort
        (parseIndex : string -> option (list Post)) (cwd : string) (fs : FileSystem) :
  (files fs !! historyIndexPath cwd = None
   \/ exists contents,
       files fs !! historyIndexPath cwd = Some contents
       /\ parseIndex contents = None) ->
  getRecentlyUsedImages parseIndex cwd fs = []
  /\ getRecentTopics parseIndex cwd fs = [].
Proof.
  intros H. unfold getRecentlyUsedImages, getRecentTopics, readFileSync.
  destruct (existsSync fs (historyIndexPath cwd)); simpl; [|split; reflexivity].
  destruct H as [Hmissing|(contents & Hfile & Hparse)].
  - rewrite Hmissing. split; reflexivity.
  - rewrite Hfile. simpl. rewrite Hparse. split; reflexivity.
Qed.

Lemma history_readers_best_effort_witness :
  getRecentlyUsedImages parseEmptyArrayOnly "/repo" corruptFs = []
  /\ getRecentTopics parseEmptyArrayOnly "/repo" corruptFs = [].
Proof.
  apply (history_readers_best_effort parseEmptyArrayOnly "/repo" corruptFs).
  right. exists "{ not json". split; [vm_compute; reflexivity | reflexivity].
Defined.

(** With an index that parses, the readers return its images and
    titles. *)
Example readers_on_an_index :
  let fs := mkFs {[ "/repo/posts/index.json" := "one post" ]} ∅ in
  let parse := fun _ : string =>
    Some [ list_to_map [ ("title", JString "Thesis Tips");
                         ("image", JString "https://img/1") ] : Post ] in
  getRecentlyUsedImages parse "/repo" fs = [Some (JString "https://img/1")]
  /\ getRecentTopics parse "/repo" fs = ["thesis tips"].
Proof. vm_compute. split; reflexivity. Qed.

End HistoryFacts.

(** ** One run *)
Module RunFacts.
Import JsString Random RandomFacts Topics TopicFacts Images ImageFacts Index JsValue History Run Samples.

(** Every category of the pool, and the category of an ad-hoc topic,
    is a key of the curated image map. *)
Lemma pool_categories_curated (t : Topic) :
  In t TOPIC_POOL -> is_Some (categoryImages !! category t).
Proof.
  assert (H : forallb (fun t => bool_decide (is_Some (categoryImages !! category t)))
                      TOPIC_POOL = true) by (vm_compute; reflexivity).
  rewrite forallb_forall in H. intros Hin.
  exact (proj1 (bool_decide_eq_true _) (H t Hin)).
Qed.

Lemma selectTopic_curated (provided : string) (usedTopics : list string) (r : Q) :
  unitInterval r ->
  exists t, selectTopic provided usedTopics r = Some t
            /\ is_Some (categoryImages !! category t).
Proof.
  intros Hr. unfold selectTopic. destruct (topicProvided provided).
  - destruct (List.find (matchesProvided provided) TOPIC_POOL) as [t|] eqn:Hfind.
    + exists t. split; [reflexivity|].
      apply pool_categories_curated. exact (proj1 (find_some _ _ Hfind)).
    + exists (adHocTopic provided). split; [reflexivity|]. vm_compute. eauto.
  - destruct (selectUniqueTopic_returns usedTopics r Hr) as (t & Hsel & Hin).
    exists t. split; [exact Hsel|].
    apply pool_categories_curated, (topicsToChoose_pool usedTopics), Hin.
Qed.

Section Script.
Variable parseIndex : string -> option (list Post).
Variable messageContent : string -> option string.
Variable parseBlogData : string -> option Json.
Variable stringify : Json -> string.
Variable stringifyIndex : list Post -> string.
Variable numberToString : Q -> string.
Variable writeThrows : FileSystem -> string -> bool.
Variable mkdirThrows : FileSystem -> string -> bool.

Local Abbreviation generate :=
  (generateBlogPost parseIndex messageContent parseBlogData stringify stringifyIndex
                    numberToString writeThrows mkdirThrows).
Local Abbreviation run :=
  (script parseIndex messageContent parseBlogData stringify stringifyIndex
          numberToString writeThrows mkdirThrows).

(** A response that is not ok yields no payload. *)
Lemma requestBlogData_not_ok (i : Inputs) (status : Z) (body : option string) :
  reply i = Response false status body ->
  requestBlogData messageContent parseBlogData i = None.
Proof. intros H. unfold requestBlogData. rewrite H. reflexivity. Qed.

(** A payload comes from an ok response only. *)
Lemma requestBlogData_ok (i : Inputs) (blogData : Json) :
  requestBlogData messageContent parseBlogData i = Some blogData ->
  exists status body, reply i = Response true status body.
Proof.
  unfold requestBlogData. destruct (reply i) as [|ok status body]; [discriminate|].
  destruct ok; [eauto | discriminate].
Qed.

(** Without a payload the [catch] branch ends the process, and the
    file system is the one the run started with. *)
Lemma no_payload_exit (i : Inputs) (fs : FileSystem) :
  unitInterval (randomTopic i) -> unitInterval (randomImage i) ->
  requestBlogData messageContent parseBlogData i = None ->
  generate i fs = (fs, Exit 1).
Proof.
  intros Ht Hi Hreq. unfold generateBlogPost.
  destruct (selectTopic_curated (providedTopic i)
              (getRecentTopics parseIndex (cwd i) fs) (randomTopic i) Ht)
    as (t & -> & [images Himages]).
  destruct (selectUniqueImage_curated (category t) images
              (imageStrings (getRecentlyUsedImages parseIndex (cwd i) fs))
              (randomImage i) Himages Hi) as (url & -> & _).
  rewrite Hreq. reflexivity.
Qed.

(** Whatever the inputs, a run that changes the file system had an ok
    response. *)
Lemma writes_need_ok (i : Inputs) (fs : FileSystem) :
  fst (generate i fs) <> fs ->
  exists status body, reply i = Response true status body.
Proof.
  unfold generateBlogPost.
  destruct (selectTopic _ _ _) as [t|]; [|intros H; destruct H; reflexivity].
  destruct (requestBlogData messageContent parseBlogData i) as [blogData|] eqn:Hreq.
  - intros _. exact (requestBlogData_ok i blogData Hreq).
  - destruct (selectUniqueImage _ _ _); intros H; destruct H; reflexivity.
Qed.

Lemma script_writes_need_ok (i : Inputs) (fs : FileSystem) :
  fst (run i fs) <> fs ->
  exists status body, reply i = Response true status body.
Proof.
  unfold script. destruct (DEEPSEEK_API_KEY i) as [key|];
    [|intros H; destruct H; reflexivity].
  destruct (String.eqb key EmptyString); [intros H; destruct H; reflexivity|].
  apply writes_need_ok.
Qed.

(** C4: when the response of the remote API is not ok, the run ends
    with exit code 1 and the file system is unchanged: neither the
    document nor the index is written.  A run that writes anything
    had an ok response. *)
Theorem api_error_exits_without_writing
        (i : Inputs) (fs : FileSystem) (status : Z) (body : option string) :
  unitInterval (randomTopic i) ->
  unitInterval (randomImage i) ->
  reply i = Response false status body ->
  generate i fs = (fs, Exit 1)
  /\ run i fs = (fs, Exit 1)
  /\ (forall i' fs', fst (run i' fs') <> fs' ->
                     exists status' body', reply i' = Response true status' body').
Proof.
  intros Ht Hi Hreply.
  assert (Hgen : generate i fs = (fs, Exit 1))
    by (apply no_payload_exit; [exact Ht | exact Hi |];
        exact (requestBlogData_not_ok i status body Hreply)).
  split; [exact Hgen|]. split; [|exact script_writes_need_ok].
  unfold script. destruct (DEEPSEEK_API_KEY i) as [key|]; [|reflexivity].
  destruct (String.eqb key EmptyString); [reflexivity | exact Hgen].
Qed.

End Script.

Lemma api_error_exits_without_writing_witness :
  script (fun _ => None) (fun _ => None) (fun _ => None)
         (fun _ => EmptyString) (fun _ => EmptyString)
         (fun _ => EmptyString) (fun _ _ => false) (fun _ _ => false)
         failingInputs emptyFs
  = (emptyFs, Exit 1).
Proof.
  exact (proj1 (proj2
           (api_error_exits_without_writing
              (fun _ => None) (fun _ => None) (fun _ => None)
              (fun _ => EmptyString) (fun _ => EmptyString)
              (fun _ => EmptyString) (fun _ _ => false) (fun _ _ => false)
              failingInputs emptyFs 500 (Some "Internal Server Error")
              unitInterval_half unitInterval_half eq_refl))).
Defined.

End RunFacts.

(** * Further properties of the code *)

(** ** More on slugs *)
Module SlugMore.
Import JsString JsStringFacts Slug SlugFacts.

Lemma lowerChar_twice (c : ascii) : lowerChar (lowerChar c) = lowerChar c.
Proof. each_char c. Qed.

Lemma toLowerCase_twice (s : string) : toLowerCase (toLowerCase s) = toLowerCase s.
Proof.
  unfold toLowerCase. induction s as [|c s IH]; simpl; [reflexivity|].
  rewrite lowerChar_twice, IH. reflexivity.
Qed.

(** X1: a slug derived from a slug is that slug, for every title. *)
Theorem generateSlug_of_slug (title : string) :
  generateSlug (generateSlug title) = generateSlug title.
Proof.
  destruct (generateSlug_slugChars title) as (Hlen & Hall & Hno).
  apply generateSlug_fixed; assumption.
Qed.

(** X2: the case of the title does not matter: the lowercased title has
    the same slug. *)
Theorem generateSlug_ignores_case (title : string) :
  generateSlug (toLowerCase title) = generateSlug title.
Proof. unfold generateSlug. rewrite toLowerCase_twice. reflexivity. Qed.

Lemma keepChars_nothing (keep : ascii -> bool) (s : string) :
  allChars (fun c => negb (keep c)) s = true -> keepChars keep s = EmptyString.
Proof.
  induction s as [|c s IH]; simpl; [reflexivity|].
  rewrite andb_true_iff, negb_true_iff. intros [Hc Hs]. rewrite Hc. auto.
Qed.

Lemma allChars_mapChars (p : ascii -> bool) (f : ascii -> ascii) (s : string) :
  allChars p (mapChars f s) = allChars (fun c => p (f c)) s.
Proof. induction s as [|c s IH]; simpl; [reflexivity|]. rewrite IH. reflexivity. Qed.

(** X3: a title without any letter, digit, white space or hyphen (once
    lowercased) has the empty slug; so has the empty title. *)
Theorem generateSlug_empty (title : string) :
  allChars (fun c => negb (keptBySlug (lowerChar c))) title = true ->
  generateSlug title = EmptyString.
Proof.
  intros H. unfold generateSlug, toLowerCase.
  rewrite keepChars_nothing; [reflexivity|].
  rewrite allChars_mapChars. exact H.
Qed.

Lemma generateSlug_empty_witness :
  generateSlug "?!(...)" = EmptyString /\ generateSlug EmptyString = EmptyString.
Proof.
  split; apply generateSlug_empty; reflexivity.
Defined.

End SlugMore.

(** ** More on image selection *)
Module ImageMore.
Import JsString Random RandomFacts Images ImageFacts Samples RandomImage.

Lemma existsb_eqb_In (x : string) (l : list string) :
  existsb (String.eqb x) l = true <-> In x l.
Proof.
  rewrite existsb_exists. split.
  - intros (y & Hy & Heq). apply String.eqb_eq in Heq. subst. exact Hy.
  - intros H. exists x. split; [exact H | apply String.eqb_refl].
Qed.

(** X4: for a category of the curated map the function returns one of
    the category's images whatever the history, and an image that is not
    recently used whenever the category has one. *)
Theorem selectUniqueImage_prefers_unused
        (category : string) (images usedImages : list string) (r : Q) :
  categoryImages !! category = Some images ->
  unitInterval r ->
  exists url,
    selectUniqueImage category usedImages r = Returns url
    /\ In url images
    /\ ((exists u, In u images /\ ~ In u usedImages) -> ~ In url usedImages).
Proof.
  intros Hcat Hr.
  assert (Hne : images <> []).
  { apply categoryImages_six in Hcat. intros ->. discriminate. }
  destruct (choice_from_images images usedImages r Hr Hne) as (url & Hsel & Hfrom & Hin).
  cbv zeta in Hsel, Hfrom.
  exists url. split; [|split; [exact Hin|]].
  - unfold selectUniqueImage, readCategoryImages. rewrite Hcat, Hsel. reflexivity.
  - intros (u & Hu & Hfresh).
    set (available :=
           List.filter (fun img => negb (existsb (String.eqb img) usedImages)) images) in *.
    assert (Hu' : In u available).
    { apply filter_In. split; [exact Hu|]. apply negb_true_iff.
      destruct (existsb (String.eqb u) usedImages) eqn:E; [|reflexivity].
      apply existsb_eqb_In in E. contradiction. }
    destruct (Nat.ltb_spec 0 (length available)) as [_|Hzero].
    + apply filter_In in Hfrom. destruct Hfrom as [_ Hneg].
      apply negb_true_iff in Hneg. intros Hused.
      apply existsb_eqb_In in Hused. congruence.
    + destruct available; [destruct Hu' | simpl in Hzero; lia].
Qed.

Lemma selectUniqueImage_prefers_unused_witness :
  exists url,
    selectUniqueImage "Research" (tail researchImages) (1 # 2) = Returns url
    /\ In url researchImages
    /\ ~ In url (tail researchImages).
Proof.
  assert (Hcat : categoryImages !! "Research" = Some researchImages)
    by (vm_compute; reflexivity).
  destruct (selectUniqueImage_prefers_unused "Research" researchImages
              (tail researchImages) (1 # 2) Hcat unitInterval_half)
    as (url & Hsel & Hin & Hfresh).
  exists url. split; [exact Hsel|]. split; [exact Hin|]. apply Hfresh.
  exists "https://images.unsplash.com/photo-1456324463128-7ff6903988d8?w=800&q=80".
  split; [left; reflexivity|].
  simpl. intros H. repeat (destruct H as [H|H]; [discriminate|]). exact H.
Defined.

(** X5: a category name that is neither a key of the curated map nor a
    name defined by [Object.prototype] gets one of the images of Guides. *)
Theorem selectUniqueImage_default
        (category : string) (usedImages : list string) (r : Q) :
  categoryImages !! category = None ->
  ~ In category objectPrototypeNames ->
  unitInterval r ->
  exists url guides,
    categoryImages !! "Guides" = Some guides
    /\ selectUniqueImage category usedImages r = Returns url
    /\ selectUniqueImage category usedImages r = selectUniqueImage "Guides" usedImages r
    /\ In url guides.
Proof.
  intros Hown Hproto Hr.
  assert (Hnone : readCategoryImages category = None).
  { unfold readCategoryImages. rewrite Hown.
    destruct (existsb (String.eqb category) objectPrototypeNames) eqn:E; [|reflexivity].
    apply existsb_eqb_In in E. contradiction. }
  destruct (selectUniqueImage_unknown category usedImages r Hnone Hr)
    as (url & guides & Hg & Hsel & Hin).
  exists url, guides. split; [exact Hg|]. split; [exact Hsel|]. split; [|exact Hin].
  unfold selectUniqueImage. rewrite Hnone.
  destruct (readCategoryImages "Guides"); reflexivity.
Qed.

Lemma selectUniqueImage_default_witness :
  exists url guides,
    categoryImages !! "Guides" = Some guides
    /\ selectUniqueImage "Opinion" [] (1 # 2) = Returns url
    /\ In url guides.
Proof.
  assert (Hown : categoryImages !! "Opinion" = None) by (vm_compute; reflexivity).
  assert (Hproto : ~ In "Opinion" objectPrototypeNames).
  { simpl. intros H. repeat (destruct H as [H|H]; [discriminate|]). exact H. }
  destruct (selectUniqueImage_default "Opinion" [] (1 # 2) Hown Hproto unitInterval_half)
    as (url & guides & Hg & Hsel & _ & Hin).
  exists url, guides. auto.
Defined.

(** X6: [getRandomImage] of the first script returns one of the 25
    images of [blogImages], and each of them for some value of
    [Math.random]. *)
Theorem getRandomImage_member (r : Q) :
  unitInterval r ->
  (exists url, getRandomImage r = Some url /\ In url blogImages)
  /\ length blogImages = 25
  /\ forall url, In url blogImages ->
                 exists r', unitInterval r' /\ getRandomImage r' = Some url.
Proof.
  intros Hr. split; [|split; [reflexivity|]].
  - apply randomElement_In; [exact Hr | discriminate].
  - intros url Hurl. apply randomElement_any, Hurl.
Qed.

Lemma getRandomImage_member_witness :
  exists url, getRandomImage (1 # 2) = Some url /\ In url blogImages.
Proof. exact (proj1 (getRandomImage_member (1 # 2) unitInterval_half)). Defined.

End ImageMore.

(** ** More on topic selection *)
Module TopicMore.
Import JsString JsStringFacts Random RandomFacts Topics TopicFacts ProvidedTopicFacts.

Lemma arrayIncludes_In (arr : list string) (w : string) :
  arrayIncludes arr w = true <-> In w arr.
Proof.
  unfold arrayIncludes. rewrite existsb_exists. split.
  - intros (y & Hy & Heq). apply String.eqb_eq in Heq. subst. exact Hy.
  - intros H. exists w. split; [exact H | apply String.eqb_refl].
Qed.

Lemma filter_all {A : Type} (f : A -> bool) (l : list A) :
  (forall x, In x l -> f x = true) -> List.filter f l = l.
Proof.
  induction l as [|a l IH]; simpl; [reflexivity|]. intros H.
  rewrite (H a) by (left; reflexivity). rewrite IH; [reflexivity|].
  intros x Hx. apply H. right. exact Hx.
Qed.

Lemma filter_none {A : Type} (f : A -> bool) (l : list A) :
  (forall x, f x = false) -> List.filter f l = [].
Proof.
  intros H. induction l as [|a l IH]; simpl; [reflexivity|]. rewrite H. exact IH.
Qed.

(** A title is similar to itself as soon as it has a significant word. *)
Lemma similar_self (title : string) :
  significantWords title <> [] -> similar title title = true.
Proof.
  intros Hne. unfold similar.
  rewrite filter_all by (intros w Hw; apply arrayIncludes_In, Hw).
  apply Nat.ltb_lt. destruct (significantWords title); [congruence | simpl; lia].
Qed.

Lemma pool_topics_significant (t : Topic) :
  In t TOPIC_POOL -> significantWords (toLowerCase (topic t)) <> [].
Proof.
  assert (H : forallb (fun t => (0 <? length (significantWords (toLowerCase (topic t))))%nat)
                      TOPIC_POOL = true) by (vm_compute; reflexivity).
  rewrite forallb_forall in H. intros Hin E. specialize (H t Hin).
  rewrite E in H. discriminate.
Qed.

(** X7: a pool topic whose lowercased text is a recent title does not
    pass the filter, and is not returned as long as six records do. *)
Theorem used_topic_excluded (t : Topic) (usedTopics : list string) (r : Q) :
  In t TOPIC_POOL ->
  In (toLowerCase (topic t)) usedTopics ->
  ~ In t (availableTopics usedTopics)
  /\ (unitInterval r -> 6 <= length (availableTopics usedTopics) ->
      selectUniqueTopic usedTopics r <> Some t).
Proof.
  intros Hpool Hused.
  assert (Hout : ~ In t (availableTopics usedTopics)).
  { unfold availableTopics. rewrite filter_In, negb_true_iff, existsb_false.
    intros [_ H]. specialize (H _ Hused).
    rewrite similar_self in H by (apply pool_topics_significant, Hpool). discriminate. }
  split; [exact Hout|]. intros Hr Hsix Hsel. apply Hout.
  destruct (selectUniqueTopic_returns usedTopics r Hr) as (t' & Hsel' & Hin).
  rewrite Hsel in Hsel'. injection Hsel' as <-.
  destruct (topicsToChoose_cases usedTopics) as [[_ Heq]|[Hlen _]]; [|lia].
  rewrite Heq in Hin. exact Hin.
Qed.

Lemma used_topic_excluded_witness :
  ~ In (mkTopic "How to Improve Your Academic Vocabulary" "Writing Tips" false)
       (availableTopics ["how to improve your academic vocabulary"])
  /\ selectUniqueTopic ["how to improve your academic vocabulary"] (1 # 6)
     <> Some (mkTopic "How to Improve Your Academic Vocabulary" "Writing Tips" false).
Proof.
  destruct (used_topic_excluded
              (mkTopic "How to Improve Your Academic Vocabulary" "Writing Tips" false)
              ["how to improve your academic vocabulary"] (1 # 6)) as [Hout Hsel].
  - vm_compute. tauto.
  - left. reflexivity.
  - split; [exact Hout|]. apply Hsel.
    + split; vm_compute; [discriminate | reflexivity].
    + vm_compute. lia.
Defined.

Lemma filter_length_mono {A : Type} (f g : A -> bool) (l : list A) :
  (forall x, f x = true -> g x = true) ->
  length (List.filter f l) <= length (List.filter g l).
Proof.
  intros Hfg. induction l as [|a l IH]; simpl; [lia|].
  destruct (f a) eqn:Hf.
  - rewrite (Hfg a Hf). simpl. lia.
  - destruct (g a); simpl; lia.
Qed.

(** X8: more history never makes a topic available again: the topics
    available after further recent titles are among those available
    before, and no more in number. *)
Theorem availableTopics_antitone (usedTopics more : list string) :
  (forall t, In t (availableTopics (usedTopics ++ more)) ->
             In t (availableTopics usedTopics))
  /\ length (availableTopics (usedTopics ++ more)) <= length (availableTopics usedTopics)
  /\ length (availableTopics usedTopics) <= length TOPIC_POOL.
Proof.
  assert (Hstep : forall t : Topic,
             negb (existsb (fun used => similar (toLowerCase (topic t)) used)
                           (usedTopics ++ more)) = true ->
             negb (existsb (fun used => similar (toLowerCase (topic t)) used)
                           usedTopics) = true).
  { intros t. rewrite existsb_app, !negb_true_iff, orb_false_iff. tauto. }
  split; [|split].
  - intros t. unfold availableTopics. rewrite !filter_In. intros [Hin H].
    split; [exact Hin | apply Hstep, H].
  - unfold availableTopics. apply filter_length_mono. exact Hstep.
  - unfold availableTopics. apply filter_length_le.
Qed.

(** X9: recent titles without a word of more than four characters
    exclude nothing: the whole pool is available. *)
Theorem short_titles_exclude_nothing (usedTopics : list string) :
  (forall used, In used usedTopics -> significantWords used = []) ->
  availableTopics usedTopics = TOPIC_POOL
  /\ topicsToChoose usedTopics = TOPIC_POOL.
Proof.
  intros Hshort.
  assert (Hall : availableTopics usedTopics = TOPIC_POOL).
  { unfold availableTopics. apply filter_all. intros t _.
    rewrite negb_true_iff, existsb_false. intros used Hused.
    unfold similar. rewrite (Hshort used Hused).
    rewrite filter_none by reflexivity. apply Nat.ltb_ge. simpl. lia. }
  split; [exact Hall|]. unfold topicsToChoose. rewrite Hall. reflexivity.
Qed.

Lemma short_titles_exclude_nothing_witness :
  availableTopics ["how to cite"; "ai"; ""] = TOPIC_POOL
  /\ topicsToChoose ["how to cite"; "ai"; ""] = TOPIC_POOL.
Proof.
  apply short_titles_exclude_nothing.
  intros used Hused. repeat (destruct Hused as [<-|Hused]; [reflexivity|]).
  destruct Hused.
Defined.

End TopicMore.

(** ** More on a provided topic *)
Module ProvidedTopicMore.
Import JsString JsStringFacts Random RandomFacts Topics TopicFacts ProvidedTopicFacts.

Lemma trimStart_all_whitespace (s : string) :
  allChars isWhiteSpace s = true -> trimStart s = EmptyString.
Proof.
  induction s as [|c s IH]; simpl; [reflexivity|].
  rewrite andb_true_iff. intros [Hc Hs]. rewrite Hc. auto.
Qed.

(** X10: a provided topic that is empty or made of white space only
    counts as not provided: the topic is chosen from the pool as if
    [TOPIC] were unset. *)
Theorem blank_topic_is_no_topic (providedTopic : string) (usedTopics : list string) (r : Q) :
  allChars isWhiteSpace providedTopic = true ->
  topicProvided providedTopic = false
  /\ selectTopic providedTopic usedTopics r = selectUniqueTopic usedTopics r.
Proof.
  intros Hblank.
  assert (Hno : topicProvided providedTopic = false).
  { unfold topicProvided, trim. rewrite (trimStart_all_whitespace _ Hblank).
    simpl. apply andb_false_r. }
  split; [exact Hno|]. unfold selectTopic. rewrite Hno. reflexivity.
Qed.

Lemma blank_topic_is_no_topic_witness :
  selectTopic "   " [] (1 # 2) = selectUniqueTopic [] (1 # 2).
Proof.
  exact (proj2 (blank_topic_is_no_topic "   " [] (1 # 2) eq_refl)).
Defined.

(** Each pool topic, given as it is written, is the first match. *)
Lemma pool_topic_finds_itself (t : Topic) :
  In t TOPIC_POOL ->
  List.find (matchesProvided (topic t)) TOPIC_POOL = Some t
  /\ topicProvided (topic t) = true.
Proof.
  intros H. unfold TOPIC_POOL in H.
  repeat (destruct H as [<-|H]; [vm_compute; split; reflexivity|]).
  destruct H.
Qed.

(** X11: a provided topic that is the text of a pool record, in any
    letter case, selects that record, with its category and featured
    flag. *)
Theorem pool_topic_selects_itself
        (t : Topic) (providedTopic : string) (usedTopics : list string) (r : Q) :
  In t TOPIC_POOL ->
  toLowerCase providedTopic = toLowerCase (topic t) ->
  topicProvided providedTopic = true ->
  selectTopic providedTopic usedTopics r = Some t.
Proof.
  intros Hpool Hlow Hgiven. unfold selectTopic. rewrite Hgiven.
  destruct (pool_topic_finds_itself t Hpool) as [Hfind _].
  unfold matchesProvided in *. rewrite Hlow, Hfind. reflexivity.
Qed.

Lemma pool_topic_selects_itself_witness :
  selectTopic "HOW TO PREPARE FOR YOUR THESIS DEFENSE" [] 0
  = Some (mkTopic "How to Prepare for Your Thesis Defense" "Guides" true).
Proof.
  apply pool_topic_selects_itself; [|reflexivity|reflexivity].
  unfold TOPIC_POOL. do 26 right. left. reflexivity.
Defined.

End ProvidedTopicMore.

(** ** More on the history readers *)
Module HistoryMore.
Import JsString Index History Samples IndexSamples.

Lemma existsSync_file (fs : FileSystem) (path contents : string) :
  files fs !! path = Some contents -> existsSync fs path = true.
Proof.
  intros H. unfold existsSync. rewrite H.
  rewrite bool_decide_eq_true_2 by eauto. reflexivity.
Qed.

(** X12: at most 15 images are reported as recently used, whatever the
    index file holds. *)
Theorem getRecentlyUsedImages_at_most_15
        (parseIndex : string -> option (list Post)) (cwd : string) (fs : FileSystem) :
  length (getRecentlyUsedImages parseIndex cwd fs) <= 15.
Proof.
  unfold getRecentlyUsedImages.
  destruct (negb (existsSync fs (historyIndexPath cwd))); [simpl; lia|].
  destruct (readFileSync fs (historyIndexPath cwd)) as [contents|]; [|simpl; lia].
  simpl. destruct (parseIndex contents) as [posts|]; [|simpl; lia].
  simpl. rewrite length_map, length_take. lia.
Qed.

(** X13: on an index whose records all have a string title, the images
    are those of the first 15 records, in order, while the titles are
    those of all records, lowercased, however many there are. *)
Theorem readers_on_well_formed_index
        (parseIndex : string -> option (list Post)) (cwd : string) (fs : FileSystem)
        (contents : string) (posts : list Post) :
  files fs !! historyIndexPath cwd = Some contents ->
  parseIndex contents = Some posts ->
  Forall (fun p => is_Some (lowerTitle p)) posts ->
  getRecentlyUsedImages parseIndex cwd fs
  = map (fun p : Post => p !! "image") (take 15 posts)
  /\ Forall2 (fun p lowered => lowerTitle p = Some lowered)
             posts (getRecentTopics parseIndex cwd fs)
  /\ length (getRecentTopics parseIndex cwd fs) = length posts.
Proof.
  intros Hfile Hparse Htitles.
  unfold getRecentlyUsedImages, getRecentTopics, readFileSync.
  rewrite (existsSync_file fs _ contents Hfile), Hfile. simpl. rewrite Hparse. simpl.
  split; [reflexivity|].
  destruct (mapM lowerTitle posts) as [titles|] eqn:Hmap.
  - apply mapM_Some in Hmap. split; [exact Hmap|].
    symmetry. exact (Forall2_length _ _ _ Hmap).
  - exfalso. apply mapM_is_Some in Htitles. rewrite Hmap in Htitles.
    destruct Htitles as [? ?]. discriminate.
Qed.

(** X14: one record without a string title empties the whole title
    history, while the image history is still read. *)
Theorem one_bad_title_empties_topics
        (parseIndex : string -> option (list Post)) (cwd : string) (fs : FileSystem)
        (contents : string) (posts : list Post) (p : Post) :
  files fs !! historyIndexPath cwd = Some contents ->
  parseIndex contents = Some posts ->
  In p posts ->
  lowerTitle p = None ->
  getRecentTopics parseIndex cwd fs = []
  /\ getRecentlyUsedImages parseIndex cwd fs
     = map (fun p : Post => p !! "image") (take 15 posts).
Proof.
  intros Hfile Hparse Hin Hbad.
  unfold getRecentlyUsedImages, getRecentTopics, readFileSync.
  rewrite (existsSync_file fs _ contents Hfile), Hfile. simpl. rewrite Hparse. simpl.
  split; [|reflexivity].
  destruct (mapM lowerTitle posts) as [titles|] eqn:Hmap; [|reflexivity].
  exfalso. assert (Hsome : is_Some (mapM lowerTitle posts)) by eauto.
  apply mapM_is_Some in Hsome. rewrite Forall_forall in Hsome.
  apply list_elem_of_In in Hin. specialize (Hsome p Hin).
  simpl in Hsome. rewrite Hbad in Hsome. destruct Hsome as [? ?]. discriminate.
Qed.

Lemma readers_on_well_formed_index_witness :
  getRecentlyUsedImages parseTitled "/repo" indexFs = [Some (JString "https://img/1"); None]
  /\ getRecentTopics parseTitled "/repo" indexFs = ["thesis tips"; "apa vs mla"]
  /\ length (getRecentTopics parseTitled "/repo" indexFs) = 2.
Proof.
  assert (Hfile : files indexFs !! historyIndexPath "/repo" = Some "the index")
    by (vm_compute; reflexivity).
  assert (Htitles : Forall (fun p => is_Some (lowerTitle p)) [firstPost; secondPost]).
  { repeat constructor; vm_compute; eauto. }
  destruct (readers_on_well_formed_index parseTitled "/repo" indexFs "the index"
              [firstPost; secondPost] Hfile eq_refl Htitles) as (Himg & _ & Hlen).
  split; [rewrite Himg; vm_compute; reflexivity|].
  split; [vm_compute; reflexivity | exact Hlen].
Defined.

Lemma one_bad_title_empties_topics_witness :
  getRecentTopics parseUntitled "/repo" indexFs = []
  /\ getRecentlyUsedImages parseUntitled "/repo" indexFs
     = [Some (JString "https://img/1"); None].
Proof.
  assert (Hfile : files indexFs !! historyIndexPath "/repo" = Some "the index")
    by (vm_compute; reflexivity).
  destruct (one_bad_title_empties_topics parseUntitled "/repo" indexFs "the index"
              [firstPost; untitledPost] untitledPost Hfile eq_refl)
    as (Htopics & Himg).
  - right. left. reflexivity.
  - vm_compute. reflexivity.
  - split; [exact Htopics|]. rewrite Himg. vm_compute. reflexivity.
Defined.

End HistoryMore.

(** ** Keywords *)
Module KeywordMore.
Import JsString JsStringFacts Random RandomFacts Index Run Samples RunSamples.

Lemma split_nonempty (sep : ascii) (s : string) : split sep s <> [].
Proof.
  induction s as [|c s IH]; simpl; [discriminate|].
  destruct (Ascii.eqb c sep); [discriminate|].
  destruct (split sep s); [congruence | discriminate].
Qed.

Lemma startsWith_trimStart (s : string) :
  startsWith isWhiteSpace (trimStart s) = false.
Proof.
  induction s as [|c s IH]; simpl; [reflexivity|].
  destruct (isWhiteSpace c) eqn:Hc; [exact IH | simpl; exact Hc].
Qed.

Lemma endsWith_trimEnd (s : string) :
  endsWith isWhiteSpace (trimEnd s) = false.
Proof.
  induction s as [|c s IH]; simpl; [reflexivity|].
  destruct (trimEnd s) as [|d rest] eqn:E.
  - destruct (isWhiteSpace c) eqn:Hc; simpl; [reflexivity | exact Hc].
  - exact IH.
Qed.

Lemma startsWith_trimEnd (s : string) :
  startsWith isWhiteSpace s = false -> startsWith isWhiteSpace (trimEnd s) = false.
Proof.
  destruct s as [|c s]; simpl; [reflexivity|]. intros Hc.
  destruct (trimEnd s); [rewrite Hc; simpl; exact Hc | simpl; exact Hc].
Qed.

(** [trim] leaves no white space at either end. *)
Lemma trim_trimmed (s : string) :
  startsWith isWhiteSpace (trim s) = false /\ endsWith isWhiteSpace (trim s) = false.
Proof.
  unfold trim. split; [apply startsWith_trimEnd, startsWith_trimStart | apply endsWith_trimEnd].
Qed.

(** When [KEYWORDS] is set, even to the empty string, the selected
    keywords are its comma-separated pieces, each without white space at
    its ends; there is at least one. *)
Lemma selectedKeywords_from_environment (i : Inputs) (k : string) :
  KEYWORDS i = Some k ->
  selectedKeywords i = map JString (map trim (split "," k))
  /\ 1 <= length (selectedKeywords i)
  /\ Forall (fun w => startsWith isWhiteSpace w = false
                      /\ endsWith isWhiteSpace w = false) (envKeywords i).
Proof.
  intros Hk. unfold selectedKeywords, envKeywords. rewrite Hk.
  pose proof (split_nonempty "," k) as Hne.
  destruct (split "," k) as [|w ws] eqn:Hsplit; [congruence|].
  split; [reflexivity|]. split; [simpl; lia|].
  apply Forall_forall. intros x Hx. apply list_elem_of_In, in_map_iff in Hx.
  destruct Hx as (y & <- & _). apply trim_trimmed.
Qed.

(** X16: when [KEYWORDS] is unset, the keywords are three: one of the
    primary, one of the secondary and one of the long-tail keywords. *)
Theorem keywords_by_default (i : Inputs) :
  KEYWORDS i = None ->
  unitInterval (randomPrimary i) ->
  unitInterval (randomSecondary i) ->
  unitInterval (randomLongtail i) ->
  exists a b c,
    selectedKeywords i = [JString a; JString b; JString c]
    /\ In a seoPrimary /\ In b seoSecondary /\ In c seoLongtail.
Proof.
  intros Hk Hp Hs Hl. unfold selectedKeywords, envKeywords, pick. rewrite Hk. simpl.
  destruct (randomElement_In seoPrimary (randomPrimary i) Hp) as (a & -> & Ha);
    [discriminate|].
  destruct (randomElement_In seoSecondary (randomSecondary i) Hs) as (b & -> & Hb);
    [discriminate|].
  destruct (randomElement_In seoLongtail (randomLongtail i) Hl) as (c & -> & Hc);
    [discriminate|].
  exists a, b, c. auto.
Qed.

(** With [KEYWORDS] set to the empty string the one keyword is empty. *)
Example keywords_from_empty_variable (i : Inputs) :
  KEYWORDS i = Some EmptyString -> selectedKeywords i = [JString EmptyString].
Proof. intros H. unfold selectedKeywords, envKeywords. rewrite H. reflexivity. Qed.

Lemma unitInterval_zero : unitInterval 0.
Proof. split; vm_compute; [discriminate | reflexivity]. Defined.

Lemma unitInterval_third : unitInterval (1 # 3).
Proof. split; vm_compute; [discriminate | reflexivity]. Defined.

Lemma unitInterval_two_thirds : unitInterval (2 # 3).
Proof. split; vm_compute; [discriminate | reflexivity]. Defined.

Lemma keywords_by_default_witness :
  exists a b c,
    selectedKeywords successInputs = [JString a; JString b; JString c]
    /\ In a seoPrimary /\ In b seoSecondary /\ In c seoLongtail.
Proof.
  exact (keywords_by_default successInputs eq_refl
           unitInterval_zero unitInterval_third unitInterval_two_thirds).
Defined.

End KeywordMore.

(** ** Paths *)
Module PathFacts.
Import JsString Path History Run RunPaths.

Lemma append_cons (x : ascii) (a b : string) : String x a +:+ b = String x (a +:+ b).
Proof. reflexivity. Qed.

Lemma append_empty_l (b : string) : EmptyString +:+ b = b.
Proof. reflexivity. Qed.

Lemma append_assoc (a b c : string) : (a +:+ b) +:+ c = a +:+ (b +:+ c).
Proof.
  induction a as [|x a IH]; [reflexivity|]. rewrite !append_cons, IH. reflexivity.
Qed.

Lemma append_inj_l (a x y : string) : a +:+ x = a +:+ y -> x = y.
Proof.
  induction a as [|c a IH]; [auto|]. rewrite !append_cons. intros [= H]. auto.
Qed.

Lemma append_empty_r (a : string) : a +:+ EmptyString = a.
Proof.
  induction a as [|x a IH]; [reflexivity|]. rewrite append_cons, IH. reflexivity.
Qed.

Lemma append_not_empty (a b : string) : b <> EmptyString -> a +:+ b <> EmptyString.
Proof. destruct a; [auto | rewrite append_cons; discriminate]. Qed.

(** The last character of [a +:+ b] is that of a non-empty [b]. *)
Lemma endsWith_append (p : ascii -> bool) (a b : string) :
  b <> EmptyString -> endsWith p (a +:+ b) = endsWith p b.
Proof.
  intros Hb. induction a as [|x a IH]; [reflexivity|].
  rewrite append_cons. simpl.
  destruct (a +:+ b) eqn:E; [|exact IH].
  exfalso. exact (append_not_empty a b Hb E).
Qed.

Lemma endsWith_not_empty (p : ascii -> bool) (s : string) :
  endsWith p s = true -> s <> EmptyString.
Proof. destruct s; [discriminate | discriminate]. Qed.

(** The last character has one class of two disjoint ones. *)
Lemma endsWith_disjoint (p q : ascii -> bool) (s : string) :
  (forall c, p c = true -> q c = false) ->
  endsWith p s = true -> endsWith q s = false.
Proof.
  intros Hpq. induction s as [|c s IH]; [discriminate|].
  simpl. destruct s; [apply Hpq | exact IH].
Qed.

Lemma startsWith_append (p : ascii -> bool) (a b : string) :
  startsWith p a = true -> startsWith p (a +:+ b) = true.
Proof. destruct a; [discriminate | rewrite append_cons; auto]. Qed.

(** *** [split] and [String.concat] *)

Lemma split_not_nil (sep : ascii) (s : string) : split sep s <> [].
Proof.
  induction s as [|c s IH]; simpl; [discriminate|].
  destruct (Ascii.eqb c sep); [discriminate|].
  destruct (split sep s); [congruence | discriminate].
Qed.

Lemma split_append (sep : ascii) (a b : string) :
  split sep (a +:+ String sep b) = (split sep a ++ split sep b)%list.
Proof.
  induction a as [|c a IH].
  - rewrite append_empty_l. simpl. rewrite Ascii.eqb_refl. reflexivity.
  - rewrite append_cons. simpl. destruct (Ascii.eqb c sep).
    + rewrite IH. reflexivity.
    + rewrite IH. pose proof (split_not_nil sep a) as Hne.
      destruct (split sep a); [congruence | reflexivity].
Qed.

Lemma split_slashFree (s : string) : slashFree s = true -> split "/" s = [s].
Proof.
  unfold slashFree. induction s as [|c s IH]; simpl; [reflexivity|].
  rewrite andb_true_iff, negb_true_iff. intros [Hc Hs].
  unfold isSlash in Hc. rewrite Hc, (IH Hs). reflexivity.
Qed.

Lemma split_pieces_slashFree (s : string) :
  Forall (fun piece => slashFree piece = true) (split "/" s).
Proof.
  induction s as [|c s IH]; simpl; [repeat constructor|].
  destruct (Ascii.eqb c "/") eqn:Hc; [constructor; [reflexivity | exact IH]|].
  pose proof (split_not_nil "/" s) as Hne.
  destruct (split "/" s) as [|w ws]; [congruence|].
  apply Forall_cons in IH. destruct IH as [Hw Hws].
  constructor; [|exact Hws]. unfold slashFree in *. simpl. unfold isSlash at 1.
  rewrite Hc. exact Hw.
Qed.

Lemma concat_two (sep x y : string) (l : list string) :
  String.concat sep (x :: y :: l) = x +:+ sep +:+ String.concat sep (y :: l).
Proof. reflexivity. Qed.

(** Joining with slashes and splitting at slashes gives the pieces back. *)
Lemma split_concat (l : list string) :
  l <> [] -> Forall (fun piece => slashFree piece = true) l ->
  split "/" (String.concat "/" l) = l.
Proof.
  induction l as [|x l IH]; [congruence|]. intros _ Hall.
  apply Forall_cons in Hall. destruct Hall as [Hx Hl].
  destruct l as [|y l]; [exact (split_slashFree x Hx)|].
  rewrite concat_two. change ("/" +:+ String.concat "/" (y :: l))
    with (String "/" (String.concat "/" (y :: l))).
  rewrite split_append, (split_slashFree x Hx), IH; [reflexivity | discriminate | exact Hl].
Qed.

Lemma concat_snoc (l : list string) (f : string) :
  l <> [] ->
  String.concat "/" (l ++ [f]) = String.concat "/" l +:+ "/" +:+ f.
Proof.
  induction l as [|x l IH]; [congruence|]. intros _.
  destruct l as [|y l]; [reflexivity|].
  change ((x :: y :: l) ++ [f])%list with (x :: (y :: (l ++ [f])))%list.
  rewrite !concat_two.
  change (y :: (l ++ [f]))%list with ((y :: l) ++ [f])%list.
  rewrite IH by discriminate. rewrite !append_assoc. reflexivity.
Qed.

Lemma concat_snoc_any (l : list string) (f : string) :
  exists before, String.concat "/" (l ++ [f]) = before +:+ f.
Proof.
  destruct l as [|x l]; [exists EmptyString; reflexivity|].
  exists (String.concat "/" (x :: l) +:+ "/").
  rewrite concat_snoc by discriminate. rewrite append_assoc. reflexivity.
Qed.

(** *** [normalizeSegments] *)

Lemma normalizeSegments_app (allow : bool) (l1 l2 stack : list string) :
  normalizeSegments allow stack (l1 ++ l2)
  = normalizeSegments allow (rev (normalizeSegments allow stack l1)) l2.
Proof.
  revert stack. induction l1 as [|seg l1 IH]; intros stack.
  - simpl. rewrite rev_involutive. reflexivity.
  - simpl. destruct (String.eqb seg EmptyString || String.eqb seg "."); [apply IH|].
    destruct (String.eqb seg ".."); [|apply IH].
    destruct stack as [|top below]; [destruct allow; apply IH|].
    destruct (String.eqb top ".."); [destruct allow; apply IH | apply IH].
Qed.

Lemma keptSegment_tests (seg : string) :
  keptSegment seg = true ->
  String.eqb seg EmptyString || String.eqb seg "." = false
  /\ String.eqb seg ".." = false.
Proof.
  unfold keptSegment. rewrite !andb_true_iff, !negb_true_iff.
  intros [[-> ->] ->]. split; reflexivity.
Qed.

(** Kept segments are pushed as they come. *)
Lemma normalizeSegments_kept (allow : bool) (l stack : list string) :
  Forall (fun seg => keptSegment seg = true) l ->
  normalizeSegments allow stack l = (rev stack ++ l)%list.
Proof.
  revert stack. induction l as [|seg l IH]; intros stack Hall.
  - simpl. rewrite app_nil_r. reflexivity.
  - apply Forall_cons in Hall. destruct Hall as [Hseg Hl].
    destruct (keptSegment_tests seg Hseg) as [H1 H2].
    simpl. rewrite H1, H2, (IH _ Hl). simpl. rewrite <- app_assoc. reflexivity.
Qed.

(** Below the root, what is kept is made of kept segments, without
    slashes when the input has none. *)
Lemma normalizeSegments_output (l stack : list string) :
  Forall (fun seg => plainSegment seg = true) stack ->
  Forall (fun seg => slashFree seg = true) l ->
  Forall (fun seg => plainSegment seg = true) (normalizeSegments false stack l).
Proof.
  revert stack. induction l as [|seg l IH]; intros stack Hstack Hl.
  - simpl. apply Forall_rev. exact Hstack.
  - apply Forall_cons in Hl. destruct Hl as [Hseg Hl]. simpl.
    destruct (String.eqb seg EmptyString || String.eqb seg ".") eqn:H1; [auto|].
    destruct (String.eqb seg "..") eqn:H2.
    + destruct stack as [|top below]; [auto|].
      apply Forall_cons in Hstack. destruct Hstack as [Htop Hbelow].
      destruct (String.eqb top ".."); auto.
    + apply IH; [|exact Hl]. constructor; [|exact Hstack].
      unfold plainSegment, keptSegment. apply orb_false_iff in H1. destruct H1 as [-> ->].
      rewrite H2, Hseg. reflexivity.
Qed.

Lemma plain_is_kept (l : list string) :
  Forall (fun seg => plainSegment seg = true) l ->
  Forall (fun seg => keptSegment seg = true) l.
Proof.
  intros Hall. eapply Forall_impl; [exact Hall|]. intros seg H. unfold plainSegment in H.
  apply andb_true_iff in H. tauto.
Qed.

Lemma plain_is_slashFree (l : list string) :
  Forall (fun seg => plainSegment seg = true) l ->
  Forall (fun seg => slashFree seg = true) l.
Proof.
  intros Hall. eapply Forall_impl; [exact Hall|]. intros seg H. unfold plainSegment in H.
  apply andb_true_iff in H. tauto.
Qed.

Lemma kept_not_empty (seg : string) : keptSegment seg = true -> seg <> EmptyString.
Proof. intros H ->. discriminate. Qed.

(** A slash-free, non-empty string does not end with a slash. *)
Lemma plain_no_trailing_slash (seg : string) :
  plainSegment seg = true -> endsWith isSlash seg = false.
Proof.
  unfold plainSegment, slashFree. rewrite andb_true_iff. intros [_ H].
  induction seg as [|c seg IH]; [reflexivity|].
  simpl in H. apply andb_true_iff in H. destruct H as [Hc Hs].
  simpl. destruct seg; [apply negb_true_iff, Hc | exact (IH Hs)].
Qed.

Lemma concat_plain_not_empty (l : list string) :
  l <> [] -> Forall (fun seg => plainSegment seg = true) l ->
  String.concat "/" l <> EmptyString.
Proof.
  destruct l as [|x l]; [congruence|]. intros _ Hall.
  apply Forall_cons in Hall. destruct Hall as [Hx _].
  assert (x <> EmptyString).
  { apply kept_not_empty. unfold plainSegment in Hx. apply andb_true_iff in Hx. tauto. }
  destruct l; [assumption|]. rewrite concat_two.
  destruct x; [congruence | rewrite append_cons; discriminate].
Qed.

Lemma concat_plain_no_trailing_slash (l : list string) :
  l <> [] -> Forall (fun seg => plainSegment seg = true) l ->
  endsWith isSlash (String.concat "/" l) = false.
Proof.
  induction l as [|x l IH]; [congruence|]. intros _ Hall.
  apply Forall_cons in Hall. destruct Hall as [Hx Hl].
  destruct l as [|y l]; [exact (plain_no_trailing_slash x Hx)|].
  rewrite concat_two, endsWith_append.
  - rewrite endsWith_append; [apply IH; [discriminate | exact Hl]|].
    apply concat_plain_not_empty; [discriminate | exact Hl].
  - apply append_not_empty, concat_plain_not_empty; [discriminate | exact Hl].
Qed.

(** *** [normalize] and [path.join] on absolute paths *)

(** An absolute path without a trailing slash normalises to the slash
    and its kept segments. *)
Lemma normalize_absolute (path : string) :
  startsWith isSlash path = true ->
  endsWith isSlash path = false ->
  normalizeSegments false [] (split "/" path) <> [] ->
  absolute (normalize path) (normalizeSegments false [] (split "/" path)).
Proof.
  intros Habs Htrail Hne.
  assert (Hplain : Forall (fun seg => plainSegment seg = true)
                          (normalizeSegments false [] (split "/" path))).
  { apply normalizeSegments_output; [constructor | apply split_pieces_slashFree]. }
  split; [|split; assumption].
  unfold normalize.
  destruct (String.eqb path EmptyString) eqn:E;
    [apply String.eqb_eq in E; subst; discriminate|].
  rewrite Habs, Htrail. simpl negb.
  destruct (String.eqb (String.concat "/" _) EmptyString) eqn:E2; [|reflexivity].
  apply String.eqb_eq in E2. exfalso.
  exact (concat_plain_not_empty _ Hne Hplain E2).
Qed.

Lemma filter_nonEmpty_plain (l : list string) :
  Forall (fun seg => plainSegment seg = true) l ->
  List.filter (fun part => negb (String.eqb part EmptyString)) l = l.
Proof.
  induction l as [|x l IH]; [reflexivity|]. intros Hall.
  apply Forall_cons in Hall. destruct Hall as [Hx Hl]. simpl.
  unfold plainSegment, keptSegment in Hx. rewrite !andb_true_iff in Hx.
  destruct Hx as [[[-> _] _] _]. rewrite (IH Hl). reflexivity.
Qed.

(** Joining an absolute directory with plain names appends them. *)
Lemma join_absolute (dir : string) (names : list string) :
  startsWith isSlash dir = true ->
  names <> [] ->
  Forall (fun seg => plainSegment seg = true) names ->
  absolute (pathJoin (dir :: names))
           (normalizeSegments false [] (split "/" dir) ++ names).
Proof.
  intros Habs Hne Hplain. unfold pathJoin, join. simpl.
  destruct (String.eqb dir EmptyString) eqn:E;
    [apply String.eqb_eq in E; subst; discriminate|].
  simpl. rewrite (filter_nonEmpty_plain names Hplain).
  destruct names as [|n names]; [congruence|].
  change ("/" +:+ String.concat "/" (n :: names))
    with (String "/" (String.concat "/" (n :: names))).
  assert (Hsplit : split "/" (dir +:+ String "/" (String.concat "/" (n :: names)))
                   = (split "/" dir ++ n :: names)%list).
  { rewrite split_append, split_concat;
      [reflexivity | discriminate | apply plain_is_slashFree, Hplain]. }
  assert (Hnorm : normalizeSegments false []
                    (split "/" (dir +:+ String "/" (String.concat "/" (n :: names))))
                  = (normalizeSegments false [] (split "/" dir) ++ n :: names)%list).
  { rewrite Hsplit, normalizeSegments_app, normalizeSegments_kept
      by (apply plain_is_kept, Hplain).
    rewrite rev_involutive. reflexivity. }
  rewrite <- Hnorm. apply normalize_absolute.
  - apply startsWith_append, Habs.
  - rewrite endsWith_append by discriminate.
    change (String "/" (String.concat "/" (n :: names)))
      with ("/" +:+ String.concat "/" (n :: names)).
    rewrite endsWith_append
      by (apply concat_plain_not_empty; [discriminate | exact Hplain]).
    apply concat_plain_no_trailing_slash; [discriminate | exact Hplain].
  - rewrite Hnorm. destruct (normalizeSegments false [] (split "/" dir)); discriminate.
Qed.

(** The segments of an absolute path are read back from it. *)
Lemma absolute_split (path : string) (segs : list string) :
  absolute path segs -> split "/" path = (EmptyString :: segs)%list.
Proof.
  intros (-> & Hne & Hplain).
  change ("/" +:+ String.concat "/" segs) with (EmptyString +:+ String "/" (String.concat "/" segs)).
  rewrite split_append, split_concat; [reflexivity | exact Hne | apply plain_is_slashFree, Hplain].
Qed.

Lemma absolute_inj (path : string) (segs segs' : list string) :
  absolute path segs -> absolute path segs' -> segs = segs'.
Proof.
  intros H H'. apply absolute_split in H, H'. congruence.
Qed.

Lemma absolute_normalizeSegments (path : string) (segs : list string) :
  absolute path segs -> normalizeSegments false [] (split "/" path) = segs.
Proof.
  intros H. rewrite (absolute_split path segs H). simpl.
  destruct H as (_ & _ & Hplain).
  rewrite normalizeSegments_kept by (apply plain_is_kept, Hplain). reflexivity.
Qed.

Lemma absolute_startsWith (path : string) (segs : list string) :
  absolute path segs -> startsWith isSlash path = true.
Proof. intros (-> & _). reflexivity. Qed.

(** A plain name joined to an absolute directory is the directory, a
    slash and the name. *)
Lemma join_plain_name (dir name : string) (segs : list string) :
  absolute dir segs ->
  plainSegment name = true ->
  pathJoin [dir; name] = dir +:+ "/" +:+ name
  /\ absolute (pathJoin [dir; name]) (segs ++ [name]).
Proof.
  intros Hdir Hname.
  assert (Hjoin : absolute (pathJoin [dir; name]) (segs ++ [name])).
  { rewrite <- (absolute_normalizeSegments dir segs Hdir).
    apply join_absolute;
      [exact (absolute_startsWith dir segs Hdir) | discriminate | repeat constructor; exact Hname]. }
  split; [|exact Hjoin].
  destruct Hjoin as (-> & _). destruct Hdir as (-> & Hne & _).
  rewrite concat_snoc by exact Hne. rewrite !append_assoc. reflexivity.
Qed.

(** *** The last character of a joined path *)

(** The piece after the last slash ends as the string does. *)
Lemma split_last (q : ascii -> bool) (s : string) :
  q "/"%char = false -> endsWith q s = true ->
  exists pieces piece,
    split "/" s = (pieces ++ [piece])%list /\ endsWith q piece = true.
Proof.
  intros Hq. induction s as [|c s IH]; [discriminate|]. intros Hend.
  assert (Hrest : s = EmptyString \/ endsWith q s = true).
  { destruct s; [left; reflexivity | right; exact Hend]. }
  simpl split. destruct (Ascii.eqb c "/") eqn:Hc.
  - apply Ascii.eqb_eq in Hc. subst c.
    destruct Hrest as [->|Hs]; [simpl in Hend; congruence|].
    destruct (IH Hs) as (pieces & piece & -> & Hpiece).
    exists (EmptyString :: pieces), piece. split; [reflexivity | exact Hpiece].
  - destruct Hrest as [->|Hs].
    + exists [], (String c EmptyString). split; [reflexivity | exact Hend].
    + destruct (IH Hs) as (pieces & piece & -> & Hpiece).
      destruct pieces as [|x pieces].
      * exists [], (String c piece). split; [reflexivity|].
        simpl. destruct piece; [discriminate | exact Hpiece].
      * exists (String c x :: pieces), piece. split; [reflexivity | exact Hpiece].
Qed.

Lemma endsWith_kept (q : ascii -> bool) (seg : string) :
  q "."%char = false -> endsWith q seg = true -> keptSegment seg = true.
Proof.
  intros Hq Hend. unfold keptSegment.
  destruct (String.eqb_spec seg EmptyString) as [->|_]; [discriminate|].
  destruct (String.eqb_spec seg ".") as [->|_]; [simpl in Hend; congruence|].
  destruct (String.eqb_spec seg "..") as [->|_]; [simpl in Hend; congruence|].
  reflexivity.
Qed.

(** [path.normalize] keeps the last character of a path, unless it is a
    slash or a dot. *)
Lemma normalize_last (q : ascii -> bool) (path : string) :
  q "/"%char = false -> q "."%char = false ->
  endsWith q path = true -> endsWith q (normalize path) = true.
Proof.
  intros Hslash Hdot Hend.
  destruct (split_last q path Hslash Hend) as (pieces & piece & Hsplit & Hpiece).
  assert (Htrail : endsWith isSlash path = false).
  { apply (endsWith_disjoint q); [|exact Hend].
    intros c Hc. unfold isSlash. destruct (Ascii.eqb_spec c "/"); [subst; congruence | reflexivity]. }
  unfold normalize.
  destruct (String.eqb_spec path EmptyString) as [->|_]; [discriminate|].
  rewrite Htrail, Hsplit, normalizeSegments_app.
  rewrite normalizeSegments_kept
    by (repeat constructor; exact (endsWith_kept q piece Hdot Hpiece)).
  rewrite rev_involutive.
  destruct (concat_snoc_any
              (normalizeSegments (negb (startsWith isSlash path)) [] pieces) piece)
    as (before & ->).
  assert (Hne : piece <> EmptyString) by exact (endsWith_not_empty q piece Hpiece).
  destruct (String.eqb_spec (before +:+ piece) EmptyString) as [E|_];
    [exfalso; exact (append_not_empty before piece Hne E)|].
  destruct (startsWith isSlash path).
  - rewrite endsWith_append by (apply append_not_empty, Hne).
    rewrite endsWith_append by exact Hne. exact Hpiece.
  - rewrite endsWith_append by exact Hne. exact Hpiece.
Qed.

Lemma filter_nonEmpty_snoc (parts : list string) (name : string) :
  name <> EmptyString ->
  List.filter (fun part => negb (String.eqb part EmptyString)) (parts ++ [name])
  = (List.filter (fun part => negb (String.eqb part EmptyString)) parts ++ [name])%list.
Proof.
  intros Hne. rewrite List.filter_app. simpl.
  destruct (String.eqb_spec name EmptyString); [contradiction | reflexivity].
Qed.

(** So does [path.join], for the last character of its last part. *)
Lemma pathJoin_last (q : ascii -> bool) (parts : list string) (name : string) :
  q "/"%char = false -> q "."%char = false ->
  endsWith q name = true -> endsWith q (pathJoin (parts ++ [name])) = true.
Proof.
  intros Hslash Hdot Hend. unfold pathJoin, join.
  assert (Hne : name <> EmptyString) by exact (endsWith_not_empty q name Hend).
  rewrite (filter_nonEmpty_snoc parts name Hne).
  destruct (concat_snoc_any
              (List.filter (fun part => negb (String.eqb part EmptyString)) parts) name)
    as (before & Hconcat).
  destruct (List.filter _ parts ++ [name])%list eqn:E;
    [destruct (List.filter _ parts); discriminate|].
  apply normalize_last; [exact Hslash | exact Hdot |].
  rewrite Hconcat, endsWith_append by exact Hne. exact Hend.
Qed.

Lemma x_is_not_n (c : ascii) : isLetterX c = true -> isLetterN c = false.
Proof.
  unfold isLetterX, isLetterN. intros H. apply Ascii.eqb_eq in H. subst. reflexivity.
Qed.

(** *** The paths of a run *)

(** A document name ends in [x]. *)
Lemma filename_last (i : Inputs) (slugText : string) :
  endsWith isLetterX (filenameOf i slugText) = true.
Proof.
  unfold filenameOf.
  rewrite endsWith_append by (apply append_not_empty, append_not_empty; discriminate).
  rewrite endsWith_append by (apply append_not_empty; discriminate).
  rewrite endsWith_append by discriminate. reflexivity.
Qed.

Lemma filepath_last (i : Inputs) (slugText : string) :
  endsWith isLetterX (filepathOf i slugText) = true.
Proof.
  unfold filepathOf.
  apply (pathJoin_last isLetterX [outputDirOf i]); [reflexivity | reflexivity |].
  apply filename_last.
Qed.

Lemma indexPath_last (i : Inputs) : endsWith isLetterN (indexPathOf i) = true.
Proof.
  unfold indexPathOf.
  apply (pathJoin_last isLetterN [outputDirOf i]); reflexivity.
Qed.

Lemma historyIndexPath_last (cwd : string) :
  endsWith isLetterN (historyIndexPath cwd) = true.
Proof.
  unfold historyIndexPath.
  apply (pathJoin_last isLetterN [cwd; "posts"]); reflexivity.
Qed.

(** Whatever the slug, the document is neither the output index nor
    the history index. *)
Lemma filepath_not_index (i : Inputs) (slugText : string) :
  filepathOf i slugText <> indexPathOf i.
Proof.
  intros E. pose proof (filepath_last i slugText) as Hx.
  rewrite E in Hx.
  pose proof (endsWith_disjoint isLetterX isLetterN _ x_is_not_n Hx) as Hn.
  rewrite indexPath_last in Hn. discriminate.
Qed.

Lemma filepath_not_history (i : Inputs) (slugText : string) :
  filepathOf i slugText <> historyIndexPath (cwd i).
Proof.
  intros E. pose proof (filepath_last i slugText) as Hx.
  rewrite E in Hx.
  pose proof (endsWith_disjoint isLetterX isLetterN _ x_is_not_n Hx) as Hn.
  rewrite historyIndexPath_last in Hn. discriminate.
Qed.

(** *** With an absolute working directory *)

Lemma outputDir_absolute (i : Inputs) :
  startsWith isSlash (cwd i) = true ->
  absolute (outputDirOf i)
           (normalizeSegments false [] (split "/" (cwd i)) ++ ["generated-posts"]).
Proof.
  intros Habs. unfold outputDirOf.
  apply join_absolute; [exact Habs | discriminate | repeat constructor].
Qed.

Lemma indexPath_absolute (i : Inputs) :
  startsWith isSlash (cwd i) = true ->
  indexPathOf i = outputDirOf i +:+ "/" +:+ "index.json"
  /\ absolute (indexPathOf i)
       ((normalizeSegments false [] (split "/" (cwd i)) ++ ["generated-posts"])
          ++ ["index.json"]).
Proof.
  intros Habs. unfold indexPathOf.
  apply join_plain_name; [exact (outputDir_absolute i Habs) | reflexivity].
Qed.

Lemma historyIndexPath_absolute (i : Inputs) :
  startsWith isSlash (cwd i) = true ->
  absolute (historyIndexPath (cwd i))
           (normalizeSegments false [] (split "/" (cwd i)) ++ ["posts"; "index.json"]).
Proof.
  intros Habs. unfold historyIndexPath.
  apply join_absolute; [exact Habs | discriminate | repeat constructor].
Qed.

(** The history index is not the output index. *)
Lemma history_not_index (i : Inputs) :
  startsWith isSlash (cwd i) = true -> historyIndexPath (cwd i) <> indexPathOf i.
Proof.
  intros Habs E.
  pose proof (historyIndexPath_absolute i Habs) as Hh.
  pose proof (proj2 (indexPath_absolute i Habs)) as Hi.
  rewrite E in Hh. pose proof (absolute_inj _ _ _ Hh Hi) as Hsegs.
  rewrite <- app_assoc in Hsegs. apply app_inv_head in Hsegs. discriminate.
Qed.

(** A directory on the way to an absolute path has at most as many
    segments as the path. *)
Lemma withParents_segments (path dir : string) (segs segs' : list string) :
  absolute path segs -> absolute dir segs' ->
  In dir (withParents path) -> length segs' <= length segs.
Proof.
  intros Hpath Hdir Hin. unfold withParents in Hin.
  apply filter_In in Hin. destruct Hin as [Hin _].
  apply in_map_iff in Hin. destruct Hin as (n & Hn & Hseq).
  apply in_seq in Hseq.
  rewrite (absolute_split path segs Hpath) in Hn.
  destruct n as [|n]; [lia|].
  change (take (S n) (EmptyString :: segs)) with (EmptyString :: take n segs) in Hn.
  pose proof (absolute_split dir segs' Hdir) as Hsplit.
  rewrite <- Hn, split_concat in Hsplit.
  - injection Hsplit as <-. rewrite length_take. lia.
  - discriminate.
  - constructor; [reflexivity|]. apply Forall_take, plain_is_slashFree.
    destruct Hpath as (_ & _ & Hplain). exact Hplain.
Qed.

(** Neither index is a directory on the way to the output directory. *)
Lemma history_not_parent (i : Inputs) :
  startsWith isSlash (cwd i) = true ->
  ~ In (historyIndexPath (cwd i)) (withParents (outputDirOf i)).
Proof.
  intros Habs Hin.
  pose proof (withParents_segments _ _ _ _ (outputDir_absolute i Habs)
                (historyIndexPath_absolute i Habs) Hin) as Hlen.
  rewrite !length_app in Hlen. simpl in Hlen. lia.
Qed.

Lemma index_not_parent (i : Inputs) :
  startsWith isSlash (cwd i) = true ->
  ~ In (indexPathOf i) (withParents (outputDirOf i)).
Proof.
  intros Habs Hin.
  pose proof (withParents_segments _ _ _ _ (outputDir_absolute i Habs)
                (proj2 (indexPath_absolute i Habs)) Hin) as Hlen.
  rewrite !length_app in Hlen. simpl in Hlen. lia.
Qed.

End PathFacts.

(** ** The date of a run *)
Module DateMore.
Import JsString JsStringFacts Run PathFacts.

(** The first piece of a split is what precedes the first separator. *)
Lemma split_head (sep : ascii) (a b : string) :
  allChars (fun c => negb (Ascii.eqb c sep)) a = true ->
  split sep (a +:+ String sep b) = a :: split sep b.
Proof.
  induction a as [|c a IH].
  - intros _. change (EmptyString +:+ String sep b) with (String sep b).
    simpl. rewrite Ascii.eqb_refl. reflexivity.
  - rewrite append_cons. simpl. rewrite andb_true_iff, negb_true_iff. intros [Hc Ha].
    rewrite Hc, (IH Ha). reflexivity.
Qed.

Lemma split_no_separator (sep : ascii) (a : string) :
  allChars (fun c => negb (Ascii.eqb c sep)) a = true -> split sep a = [a].
Proof.
  induction a as [|c a IH]; simpl; [reflexivity|].
  rewrite andb_true_iff, negb_true_iff. intros [Hc Ha]. rewrite Hc, (IH Ha). reflexivity.
Qed.

(** X23: the date of a run is the part of the timestamp before its
    first [T], and the whole timestamp when it has none. *)
Theorem dateOf_before_T (date rest : string) :
  allChars (fun c => negb (Ascii.eqb c "T")) date = true ->
  dateOf (date +:+ String "T" rest) = date /\ dateOf date = date.
Proof.
  intros H. unfold dateOf.
  rewrite (split_head "T" date rest H), (split_no_separator "T" date H).
  split; reflexivity.
Qed.

Lemma dateOf_before_T_witness :
  dateOf "2026-01-05T09:00:00.000Z" = "2026-01-05".
Proof.
  exact (proj1 (dateOf_before_T "2026-01-05" "09:00:00.000Z" eq_refl)).
Defined.

End DateMore.

(** ** More on a run *)
Module RunMore.
Import JsString JsStringFacts Random RandomFacts Topics TopicFacts Images ImageFacts.
Import Index IndexFacts Slug SlugFacts Path JsValue History Run RunPaths.
Import Samples RunSamples WrittenSamples RunFacts PathFacts KeywordMore.

(** X24: the two selections compose: whatever topic is selected,
    provided or drawn, its category is a key of the curated map and the
    image selected for it is one of that category's images. *)
Theorem image_of_selected_category
        (provided : string) (usedTopics usedImages : list string) (r r' : Q) :
  unitInterval r -> unitInterval r' ->
  exists t images url,
    selectTopic provided usedTopics r = Some t
    /\ categoryImages !! category t = Some images
    /\ selectUniqueImage (category t) usedImages r' = Returns url
    /\ In url images.
Proof.
  intros Hr Hr'.
  destruct (selectTopic_curated provided usedTopics r Hr) as (t & Hsel & [images Himages]).
  destruct (selectUniqueImage_curated (category t) images usedImages r' Himages Hr')
    as (url & Himg & Hin).
  exists t, images, url. auto.
Qed.

Lemma image_of_selected_category_witness :
  exists t images url,
    selectTopic "Zotero for beginners" [] (1 # 2) = Some t
    /\ categoryImages !! category t = Some images
    /\ selectUniqueImage (category t) [] (1 # 2) = Returns url
    /\ In url images.
Proof.
  exact (image_of_selected_category "Zotero for beginners" [] [] (1 # 2) (1 # 2)
           unitInterval_half unitInterval_half).
Defined.

(** *** Steps on the file system *)

Lemma writeFileSync_inv (throws : FileSystem -> string -> bool)
      (fs fs' : FileSystem) (path data : string) :
  writeFileSync throws fs path data = Some fs' ->
  files fs' = <[path := data]> (files fs) /\ directories fs' = directories fs.
Proof.
  unfold writeFileSync. destruct (throws fs path); [discriminate|].
  intros [= <-]. split; reflexivity.
Qed.

Lemma writeFileSync_does_not_throw (throws : FileSystem -> string -> bool)
      (fs : FileSystem) (path data : string) :
  (forall fs', throws fs' path = false) ->
  writeFileSync throws fs path data
  = Some (mkFs (<[path := data]> (files fs)) (directories fs)).
Proof. intros H. unfold writeFileSync. rewrite H. reflexivity. Qed.

Lemma writeFileSync_throws (throws : FileSystem -> string -> bool)
      (fs : FileSystem) (path data : string) :
  (forall fs', throws fs' path = true) -> writeFileSync throws fs path data = None.
Proof. intros H. unfold writeFileSync. rewrite H. reflexivity. Qed.

(** The directory is made when it is missing. *)
Lemma ensured_inv (throws : FileSystem -> string -> bool)
      (fs fs1 : FileSystem) (dir : string) :
  (if negb (existsSync fs dir) then mkdirSync throws fs dir else Some fs) = Some fs1 ->
  files fs1 = files fs
  /\ (forall d, d ∈ directories fs -> d ∈ directories fs1)
  /\ (forall d, d ∈ directories fs1 -> d ∈ directories fs \/ In d (withParents dir)).
Proof.
  destruct (negb (existsSync fs dir)).
  - unfold mkdirSync. destruct (throws fs dir); [discriminate|].
    intros [= <-]. simpl. split; [reflexivity|]. split.
    + intros d Hd. apply elem_of_union. right. exact Hd.
    + intros d Hd. apply elem_of_union in Hd. destruct Hd as [Hd|Hd]; [right | left; exact Hd].
      apply elem_of_list_to_set in Hd. apply list_elem_of_In. exact Hd.
  - intros [= <-]. auto.
Qed.

Lemma ensured_does_not_throw (throws : FileSystem -> string -> bool)
      (fs : FileSystem) (dir : string) :
  (forall fs', throws fs' dir = false) ->
  exists fs1,
    (if negb (existsSync fs dir) then mkdirSync throws fs dir else Some fs) = Some fs1.
Proof.
  intros H. destruct (negb (existsSync fs dir)); [|eauto].
  unfold mkdirSync. rewrite H. eauto.
Qed.

Lemma changedAtMost_refl (paths : list string) (dir : string) (fs : FileSystem) :
  changedAtMost paths dir fs fs.
Proof. unfold changedAtMost. auto. Qed.

Lemma changedAtMost_ensured (throws : FileSystem -> string -> bool)
      (paths : list string) (fs fs1 : FileSystem) (dir : string) :
  (if negb (existsSync fs dir) then mkdirSync throws fs dir else Some fs) = Some fs1 ->
  changedAtMost paths dir fs fs1.
Proof.
  intros H. apply ensured_inv in H. destruct H as (Hfiles & Hsub & Hnew).
  unfold changedAtMost. rewrite Hfiles. auto.
Qed.

Lemma changedAtMost_write (throws : FileSystem -> string -> bool)
      (paths : list string) (dir : string) (fs fs1 fs2 : FileSystem) (path data : string) :
  changedAtMost paths dir fs fs1 ->
  In path paths ->
  writeFileSync throws fs1 path data = Some fs2 ->
  changedAtMost paths dir fs fs2.
Proof.
  intros (Hfiles & Hkeep & Hsub & Hnew) Hin Hw.
  apply writeFileSync_inv in Hw. destruct Hw as [Hf Hd].
  unfold changedAtMost. rewrite Hf, Hd. split; [|split; [|split]]; auto.
  - intros other Hout. rewrite lookup_insert_ne; [auto|].
    intros E. apply Hout. rewrite <- E. exact Hin.
  - intros other Hsome. rewrite lookup_insert. case_decide; eauto.
Qed.

Section Script.
Variable parseIndex : string -> option (list Post).
Variable messageContent : string -> option string.
Variable parseBlogData : string -> option Json.
Variable stringify : Json -> string.
Variable stringifyIndex : list Post -> string.
Variable numberToString : Q -> string.
Variable writeThrows : FileSystem -> string -> bool.
Variable mkdirThrows : FileSystem -> string -> bool.

Local Abbreviation generate :=
  (generateBlogPost parseIndex messageContent parseBlogData stringify stringifyIndex
                    numberToString writeThrows mkdirThrows).
Local Abbreviation run :=
  (script parseIndex messageContent parseBlogData stringify stringifyIndex
          numberToString writeThrows mkdirThrows).
Local Abbreviation write :=
  (writePost parseIndex stringify stringifyIndex numberToString writeThrows mkdirThrows).
Local Abbreviation request := (requestBlogData messageContent parseBlogData).
Local Abbreviation render := (mdxContent stringify numberToString).
Local Abbreviation logs := (logLines numberToString).
Local Abbreviation slugText := (slugTextOf numberToString).

(** The output index as the run loads it. *)
Local Abbreviation loaded :=
  (fun (i : Inputs) (fs : FileSystem) =>
     if existsSync fs (indexPathOf i)
     then contents ← readFileSync fs (indexPathOf i); parseIndex contents
     else Some []).

(** X25: every failure of the request ends the run with exit code 1
    and leaves the file system as it was: a rejected [fetch], a response
    whose body cannot be read, a body without message content, and a
    content that does not parse. *)
Theorem request_failures_exit_without_writing (i : Inputs) (fs : FileSystem) :
  unitInterval (randomTopic i) -> unitInterval (randomImage i) ->
  (reply i = FetchRejected
   \/ (exists status, reply i = Response true status None)
   \/ (exists status body,
          reply i = Response true status (Some body) /\ messageContent body = None)
   \/ (exists status body content,
          reply i = Response true status (Some body)
          /\ messageContent body = Some content
          /\ parseBlogData content = None)) ->
  generate i fs = (fs, Exit 1).
Proof.
  intros Ht Hi Hfail. apply no_payload_exit; [exact Ht | exact Hi |].
  unfold requestBlogData.
  destruct Hfail as [->|[(status & ->)|[(status & body & -> & Hc)
                                        |(status & body & content & -> & Hc & Hp)]]];
    simpl; rewrite ?Hc; simpl; rewrite ?Hp; reflexivity.
Qed.

(** *** What [writePost] leaves behind *)

(** The [try] block after the payload is parsed, stage by stage: the
    stages that succeeded when it returns a path. *)
Lemma writePost_returns (i : Inputs) (blogData : Json) (t : Topic)
      (img : option string) (fs fs' : FileSystem) (p : string) :
  write i blogData t img fs = (fs', Some p) ->
  exists slug text mdx fs1 fs2 posts,
    slugOf blogData = Some slug
    /\ toStringJson numberToString slug = Some text
    /\ render i blogData t img (dateOf (nowDate i)) text (filenameOf i text) = Some mdx
    /\ (if negb (existsSync fs (outputDirOf i))
        then mkdirSync mkdirThrows fs (outputDirOf i) else Some fs) = Some fs1
    /\ writeFileSync writeThrows fs1 (filepathOf i text) mdx = Some fs2
    /\ loaded i fs2 = Some posts
    /\ writeFileSync writeThrows fs2 (indexPathOf i)
         (stringifyIndex
            (newPost i blogData t img (dateOf (nowDate i)) slug (filenameOf i text)
               :: List.filter (strictlyDiffers slug) posts)) = Some fs'
    /\ logs i blogData = Some tt
    /\ p = filepathOf i text.
Proof.
  unfold writePost.
  destruct (slugOf blogData) as [slug|] eqn:Hslug; [|discriminate].
  destruct (toStringJson numberToString slug) as [text|] eqn:Htext; [|discriminate].
  destruct (mdxContent _ _ _ _ _ _ _ _ _) as [mdx|] eqn:Hmdx; [|discriminate].
  destruct (if negb _ then _ else _) as [fs1|] eqn:Hdir; [|discriminate].
  destruct (writeFileSync _ fs1 _ _) as [fs2|] eqn:Hdoc; [|discriminate].
  destruct (if existsSync fs2 _ then _ else _) as [posts|] eqn:Hload; [|discriminate].
  destruct (writeFileSync _ fs2 _ _) as [fs3|] eqn:Hidx; [|discriminate].
  destruct (logLines _ _ _) as [[]|] eqn:Hlog; [|discriminate].
  intros [= <- <-].
  exists slug, text, mdx, fs1, fs2, posts.
  repeat split; first [reflexivity | assumption].
Qed.

(** The stages in the other direction, up to the closing log lines. *)
Lemma writePost_reaches_logs (i : Inputs) (blogData : Json) (t : Topic)
      (img : option string) (fs fs1 fs2 fs3 : FileSystem)
      (slug : Json) (text mdx : string) (posts : list Post) :
  slugOf blogData = Some slug ->
  toStringJson numberToString slug = Some text ->
  render i blogData t img (dateOf (nowDate i)) text (filenameOf i text) = Some mdx ->
  (if negb (existsSync fs (outputDirOf i))
   then mkdirSync mkdirThrows fs (outputDirOf i) else Some fs) = Some fs1 ->
  writeFileSync writeThrows fs1 (filepathOf i text) mdx = Some fs2 ->
  loaded i fs2 = Some posts ->
  writeFileSync writeThrows fs2 (indexPathOf i)
    (stringifyIndex
       (newPost i blogData t img (dateOf (nowDate i)) slug (filenameOf i text)
          :: List.filter (strictlyDiffers slug) posts)) = Some fs3 ->
  write i blogData t img fs
  = (fs3, match logs i blogData with
          | Some _ => Some (filepathOf i text)
          | None => None
          end).
Proof.
  unfold filepathOf, indexPathOf, outputDirOf, filenameOf, writePost.
  intros -> -> -> -> -> -> ->. destruct (logLines _ _ _); reflexivity.
Qed.

(** The stages up to an output index that does not load. *)
Lemma writePost_stops_at_index (i : Inputs) (blogData : Json) (t : Topic)
      (img : option string) (fs fs1 fs2 : FileSystem)
      (slug : Json) (text mdx : string) :
  slugOf blogData = Some slug ->
  toStringJson numberToString slug = Some text ->
  render i blogData t img (dateOf (nowDate i)) text (filenameOf i text) = Some mdx ->
  (if negb (existsSync fs (outputDirOf i))
   then mkdirSync mkdirThrows fs (outputDirOf i) else Some fs) = Some fs1 ->
  writeFileSync writeThrows fs1 (filepathOf i text) mdx = Some fs2 ->
  loaded i fs2 = None ->
  write i blogData t img fs = (fs2, None).
Proof.
  unfold filepathOf, indexPathOf, outputDirOf, filenameOf, writePost.
  intros -> -> -> -> -> ->. reflexivity.
Qed.

(** Whatever happens, [writePost] changes two paths at most. *)
Lemma writePost_framed (i : Inputs) (blogData : Json) (t : Topic)
      (img : option string) (fs : FileSystem) :
  fst (write i blogData t img fs) = fs
  \/ exists text,
      slugText blogData = Some text
      /\ changedAtMost [filepathOf i text; indexPathOf i] (outputDirOf i) fs
                       (fst (write i blogData t img fs)).
Proof.
  unfold writePost, slugTextOf.
  destruct (slugOf blogData) as [slug|]; [|left; reflexivity]. simpl.
  destruct (toStringJson numberToString slug) as [text|]; [|left; reflexivity].
  destruct (mdxContent _ _ _ _ _ _ _ _ _) as [mdx|]; [|left; reflexivity].
  destruct (if negb _ then _ else _) as [fs1|] eqn:Hdir; [|left; reflexivity].
  right. exists text. split; [reflexivity|].
  pose proof (changedAtMost_ensured mkdirThrows [filepathOf i text; indexPathOf i]
                fs fs1 _ Hdir) as H1.
  destruct (writeFileSync _ fs1 _ _) as [fs2|] eqn:Hdoc; [|exact H1].
  assert (H2 : changedAtMost [filepathOf i text; indexPathOf i] (outputDirOf i) fs fs2).
  { eapply changedAtMost_write; [exact H1 | | exact Hdoc]. left. reflexivity. }
  destruct (if existsSync fs2 _ then _ else _) as [posts|]; [|exact H2].
  destruct (writeFileSync _ fs2 _ _) as [fs3|] eqn:Hidx; [|exact H2].
  assert (H3 : changedAtMost [filepathOf i text; indexPathOf i] (outputDirOf i) fs fs3).
  { eapply changedAtMost_write; [exact H2 | | exact Hidx]. right. left. reflexivity. }
  destruct (logLines _ _ _); exact H3.
Qed.

Lemma generate_framed (i : Inputs) (fs : FileSystem) :
  fst (generate i fs) = fs
  \/ exists blogData text,
      request i = Some blogData
      /\ slugText blogData = Some text
      /\ changedAtMost [filepathOf i text; indexPathOf i] (outputDirOf i) fs
                       (fst (generate i fs)).
Proof.
  unfold generateBlogPost.
  destruct (selectTopic _ _ _) as [t|]; [|left; reflexivity].
  destruct (selectUniqueImage _ _ _) as [url| |];
    try (left; reflexivity);
    (destruct (request i) as [blogData|]; [|left; reflexivity]).
  - destruct (writePost_framed i blogData t (Some url) fs) as [H|(text & Hs & H)].
    + left. destruct (write i blogData t (Some url) fs) as [fs' [p|]]; exact H.
    + right. exists blogData, text. split; [reflexivity|]. split; [exact Hs|].
      destruct (write i blogData t (Some url) fs) as [fs' [p|]]; exact H.
  - destruct (writePost_framed i blogData t None fs) as [H|(text & Hs & H)].
    + left. destruct (write i blogData t None fs) as [fs' [p|]]; exact H.
    + right. exists blogData, text. split; [reflexivity|]. split; [exact Hs|].
      destruct (write i blogData t None fs) as [fs' [p|]]; exact H.
Qed.

Lemma script_framed (i : Inputs) (fs : FileSystem) :
  fst (run i fs) = fs
  \/ exists blogData text,
      request i = Some blogData
      /\ slugText blogData = Some text
      /\ changedAtMost [filepathOf i text; indexPathOf i] (outputDirOf i) fs
                       (fst (run i fs)).
Proof.
  unfold script.
  destruct (DEEPSEEK_API_KEY i) as [key|]; [|left; reflexivity].
  destruct (String.eqb key EmptyString); [left; reflexivity | apply generate_framed].
Qed.

(** X17: whatever the inputs, a run leaves the file system as it was
    or it received a payload whose slug converts to a string, and then
    it changes at most two files: the output index and the document at
    [path.join(outputDir, `${date}-${slug}.mdx`)], a path that
    [path.join] normalises, so that a slug with [..] segments names a
    file outside [generated-posts].  No file and no directory is
    removed, and the directories created are [generated-posts] and
    those on the way to it. *)
Theorem run_changes_two_paths_at_most (i : Inputs) (fs : FileSystem) :
  fst (run i fs) = fs
  \/ exists blogData text,
      request i = Some blogData
      /\ slugText blogData = Some text
      /\ changedAtMost [filepathOf i text; indexPathOf i] (outputDirOf i) fs
                       (fst (run i fs)).
Proof. exact (script_framed i fs). Qed.

(** The readers see only the history index. *)
Lemma readers_agree (cwd : string) (fs fs' : FileSystem) :
  files fs' !! historyIndexPath cwd = files fs !! historyIndexPath cwd ->
  (historyIndexPath cwd ∈ directories fs' <-> historyIndexPath cwd ∈ directories fs) ->
  getRecentTopics parseIndex cwd fs' = getRecentTopics parseIndex cwd fs
  /\ getRecentlyUsedImages parseIndex cwd fs' = getRecentlyUsedImages parseIndex cwd fs.
Proof.
  intros Hfiles Hdirs.
  assert (Hex : existsSync fs' (historyIndexPath cwd) = existsSync fs (historyIndexPath cwd)).
  { unfold existsSync. rewrite Hfiles. f_equal. apply bool_decide_ext, Hdirs. }
  unfold getRecentTopics, getRecentlyUsedImages, readFileSync.
  rewrite Hex, Hfiles. split; reflexivity.
Qed.

(** X18: with an absolute working directory, which is what
    [process.cwd()] returns, a run does not change what the history
    readers return, whatever slug the payload carries: they read
    [posts/index.json], the document's path ends in [.mdx], and the
    other file written is [generated-posts/index.json]. *)
Theorem run_leaves_history (i : Inputs) (fs : FileSystem) :
  startsWith isSlash (cwd i) = true ->
  getRecentTopics parseIndex (cwd i) (fst (run i fs))
  = getRecentTopics parseIndex (cwd i) fs
  /\ getRecentlyUsedImages parseIndex (cwd i) (fst (run i fs))
     = getRecentlyUsedImages parseIndex (cwd i) fs.
Proof.
  intros Habs.
  destruct (script_framed i fs) as [->|(blogData & text & _ & _ & Hfiles & _ & Hsub & Hnew)];
    [split; reflexivity|].
  apply readers_agree.
  - apply Hfiles. intros [E|[E|[]]].
    + exact (filepath_not_history i text E).
    + exact (history_not_index i Habs (eq_sym E)).
  - split; [|apply Hsub]. intros H. destruct (Hnew _ H) as [Hd|Hd]; [exact Hd|].
    exfalso. exact (history_not_parent i Habs Hd).
Qed.

(** With valid random values the selection succeeds, and the run is
    the [try] block. *)
Lemma generate_selects (i : Inputs) (fs : FileSystem) :
  unitInterval (randomTopic i) -> unitInterval (randomImage i) ->
  exists t url,
    selectedTopicOf parseIndex i fs = Some t
    /\ selectedImageOf parseIndex i fs t = Some url
    /\ generate i fs
       = match request i with
         | None => (fs, Exit 1)
         | Some blogData =>
             match write i blogData t (Some url) fs with
             | (fs', Some filepath) => (fs', Resolved filepath)
             | (fs', None) => (fs', Exit 1)
             end
         end.
Proof.
  intros Ht Hi. unfold generateBlogPost, selectedTopicOf, selectedImageOf.
  destruct (selectTopic_curated (providedTopic i)
              (getRecentTopics parseIndex (cwd i) fs) (randomTopic i) Ht)
    as (t & -> & [images Himages]).
  destruct (selectUniqueImage_curated (category t) images
              (imageStrings (getRecentlyUsedImages parseIndex (cwd i) fs))
              (randomImage i) Himages Hi) as (url & Hsel & _).
  exists t, url. rewrite Hsel. auto.
Qed.

(** X19: with valid random values a run ends in one of two ways: with
    exit code 1, or by returning the path of the document, which is
    [path.join(outputDir, `${date}-${slug}.mdx`)] for the slug of the
    payload it received; it returns only after the closing log lines,
    so only for a payload whose tags and keywords are arrays with
    elements that convert to strings. *)
Theorem run_ends_with_exit_1_or_document (i : Inputs) (fs : FileSystem) :
  unitInterval (randomTopic i) -> unitInterval (randomImage i) ->
  snd (run i fs) = Exit 1
  \/ exists blogData text,
      request i = Some blogData
      /\ slugText blogData = Some text
      /\ logs i blogData = Some tt
      /\ snd (run i fs) = Resolved (filepathOf i text).
Proof.
  intros Ht Hi. unfold script.
  destruct (DEEPSEEK_API_KEY i) as [key|]; [|left; reflexivity].
  destruct (String.eqb key EmptyString); [left; reflexivity|].
  destruct (generate_selects i fs Ht Hi) as (t & url & _ & _ & ->).
  destruct (request i) as [blogData|]; [|left; reflexivity].
  destruct (write i blogData t (Some url) fs) as [fs' [p|]] eqn:Hw; [|left; reflexivity].
  right. exists blogData.
  destruct (writePost_returns i blogData t (Some url) fs fs' p Hw)
    as (slug & text & mdx & fs1 & fs2 & posts & Hslug & Htext & _ & _ & _ & _ & _ & Hlog & ->).
  exists text. split; [reflexivity|]. split; [|split; [exact Hlog | reflexivity]].
  unfold slugTextOf. rewrite Hslug. exact Htext.
Qed.

(** *** After the payload is received *)

(** The index is loaded after the document is written, yet it is the
    index the run started with: the document is another file. *)
Lemma loaded_after_document (i : Inputs) (fs fs1 fs2 : FileSystem) (text mdx : string) :
  startsWith isSlash (cwd i) = true ->
  (if negb (existsSync fs (outputDirOf i))
   then mkdirSync mkdirThrows fs (outputDirOf i) else Some fs) = Some fs1 ->
  writeFileSync writeThrows fs1 (filepathOf i text) mdx = Some fs2 ->
  loaded i fs2 = outputIndex parseIndex i fs
  /\ files fs2 !! filepathOf i text = Some mdx
  /\ files fs2 !! indexPathOf i = files fs !! indexPathOf i.
Proof.
  intros Habs Hdir Hdoc.
  apply ensured_inv in Hdir. destruct Hdir as (Hf1 & Hsub & Hnew).
  apply writeFileSync_inv in Hdoc. destruct Hdoc as [Hf2 Hd2].
  assert (Hfile : files fs2 !! indexPathOf i = files fs !! indexPathOf i).
  { rewrite Hf2, Hf1. apply lookup_insert_ne, filepath_not_index. }
  assert (Hex : existsSync fs2 (indexPathOf i) = existsSync fs (indexPathOf i)).
  { unfold existsSync. rewrite Hfile, Hd2. f_equal. apply bool_decide_ext. split.
    - intros H. destruct (Hnew _ H) as [Hd|Hd]; [exact Hd|].
      exfalso. exact (index_not_parent i Habs Hd).
    - apply Hsub. }
  split; [|split; [|exact Hfile]].
  - unfold outputIndex, readFileSync. rewrite Hex, Hfile. reflexivity.
  - rewrite Hf2. apply lookup_insert_eq.
Qed.

Section PayloadReceived.
Variable i : Inputs.
Variable fs : FileSystem.
Variable blogData : Json.
Variable slug : Json.
Variable text : string.
Variable t : Topic.
Variable mdx : string.

(** The random values are valid and the working directory is absolute. *)
Hypothesis validTopic : unitInterval (randomTopic i).
Hypothesis validImage : unitInterval (randomImage i).
Hypothesis absoluteCwd : startsWith isSlash (cwd i) = true.
(** The payload arrived; its slug is [slug], which converts to [text]. *)
Hypothesis received : request i = Some blogData.
Hypothesis slugged : slugOf blogData = Some slug.
Hypothesis converted : toStringJson numberToString slug = Some text.
(** The document renders to [mdx] for the selected topic and image. *)
Hypothesis selected : selectedTopicOf parseIndex i fs = Some t.
Hypothesis rendered :
  render i blogData t (selectedImageOf parseIndex i fs t)
         (dateOf (nowDate i)) text (filenameOf i text) = Some mdx.
(** Neither making the output directory nor writing the document
    throws. *)
Hypothesis directoryMade : forall fs', mkdirThrows fs' (outputDirOf i) = false.
Hypothesis documentWritten : forall fs', writeThrows fs' (filepathOf i text) = false.

(** The record of the run. *)
Local Abbreviation entry :=
  (newPost i blogData t (selectedImageOf parseIndex i fs t)
           (dateOf (nowDate i)) slug (filenameOf i text)).

(** The run up to the loading of the index. *)
Lemma run_writes_document :
  exists url fs1 fs2,
    selectedImageOf parseIndex i fs t = Some url
    /\ generate i fs
       = match write i blogData t (Some url) fs with
         | (fs', Some filepath) => (fs', Resolved filepath)
         | (fs', None) => (fs', Exit 1)
         end
    /\ (if negb (existsSync fs (outputDirOf i))
        then mkdirSync mkdirThrows fs (outputDirOf i) else Some fs) = Some fs1
    /\ writeFileSync writeThrows fs1 (filepathOf i text) mdx = Some fs2
    /\ loaded i fs2 = outputIndex parseIndex i fs
    /\ files fs2 !! filepathOf i text = Some mdx
    /\ files fs2 !! indexPathOf i = files fs !! indexPathOf i.
Proof.
  destruct (generate_selects i fs validTopic validImage) as (t' & url & Ht' & Hurl & Hgen).
  rewrite selected in Ht'. injection Ht' as <-.
  destruct (ensured_does_not_throw mkdirThrows fs (outputDirOf i) directoryMade)
    as (fs1 & Hdir).
  pose proof (writeFileSync_does_not_throw writeThrows fs1 (filepathOf i text) mdx
                documentWritten) as Hdoc.
  destruct (loaded_after_document i fs fs1 _ text mdx absoluteCwd Hdir Hdoc)
    as (Hload & Hfile & Hidx).
  exists url, fs1. eexists. rewrite Hgen, received.
  split; [exact Hurl|]. split; [reflexivity|]. split; [exact Hdir|].
  split; [exact Hdoc|]. split; [exact Hload|]. split; [exact Hfile | exact Hidx].
Qed.

(** The run when the index loads and is written. *)
Lemma run_writes_both (posts : list Post) :
  outputIndex parseIndex i fs = Some posts ->
  (forall fs', writeThrows fs' (indexPathOf i) = false) ->
  exists fs3,
    generate i fs
    = (fs3, match logs i blogData with
            | Some _ => Resolved (filepathOf i text)
            | None => Exit 1
            end)
    /\ files fs3 !! filepathOf i text = Some mdx
    /\ files fs3 !! indexPathOf i
       = Some (stringifyIndex (entry :: List.filter (strictlyDiffers slug) posts)).
Proof.
  intros Hindex Hwrites.
  destruct run_writes_document
    as (url & fs1 & fs2 & Hurl & Hgen & Hdir & Hdoc & Hload & Hfile & _).
  rewrite Hindex in Hload.
  pose proof rendered as Hmdx. rewrite Hurl in Hmdx.
  pose proof (writeFileSync_does_not_throw writeThrows fs2 (indexPathOf i)
                (stringifyIndex
                   (newPost i blogData t (Some url) (dateOf (nowDate i)) slug
                            (filenameOf i text)
                      :: List.filter (strictlyDiffers slug) posts)) Hwrites) as Hidx.
  eexists. rewrite Hgen.
  rewrite (writePost_reaches_logs i blogData t (Some url) fs fs1 fs2 _ slug text mdx posts
             slugged converted Hmdx Hdir Hdoc Hload Hidx).
  rewrite Hurl. split; [destruct (logs i blogData); reflexivity|].
  cbn [files]. split; [|apply lookup_insert_eq].
  rewrite lookup_insert_ne by (intros E; exact (filepath_not_index i text (eq_sym E))).
  exact Hfile.
Qed.

(** X20: a run that received a payload returns the document's path,
    with the document at that path and the upserted list in the output
    index, when every later step goes through: the slug converts to a
    string, the document renders, the directory and the two files can
    be written, the output index loads, and the closing log lines do
    not throw. *)
Theorem successful_run_writes_both (posts : list Post) :
  outputIndex parseIndex i fs = Some posts ->
  (forall fs', writeThrows fs' (indexPathOf i) = false) ->
  logs i blogData = Some tt ->
  snd (generate i fs) = Resolved (filepathOf i text)
  /\ files (fst (generate i fs)) !! filepathOf i text = Some mdx
  /\ files (fst (generate i fs)) !! indexPathOf i
     = Some (stringifyIndex (entry :: List.filter (strictlyDiffers slug) posts)).
Proof.
  intros Hindex Hwrites Hlogs.
  destruct (run_writes_both posts Hindex Hwrites) as (fs3 & -> & Hdoc & Hidx).
  rewrite Hlogs. auto.
Qed.

(** X26: when the closing log lines throw, the run ends with exit code
    1 although the document and the index are both written: the lines
    call [join] on [blogData.tags] and on the keywords after the two
    writes, and the [catch] branch removes nothing. *)
Theorem late_failure_leaves_both_files (posts : list Post) :
  outputIndex parseIndex i fs = Some posts ->
  (forall fs', writeThrows fs' (indexPathOf i) = false) ->
  logs i blogData = None ->
  snd (generate i fs) = Exit 1
  /\ files (fst (generate i fs)) !! filepathOf i text = Some mdx
  /\ files (fst (generate i fs)) !! indexPathOf i
     = Some (stringifyIndex (entry :: List.filter (strictlyDiffers slug) posts)).
Proof.
  intros Hindex Hwrites Hlogs.
  destruct (run_writes_both posts Hindex Hwrites) as (fs3 & -> & Hdoc & Hidx).
  rewrite Hlogs. auto.
Qed.

(** X22: when the payload arrives but the output index does not load,
    the run ends with exit code 1 after the document is written: the
    document is on disk and the index file is as it was. *)
Theorem broken_index_leaves_document :
  outputIndex parseIndex i fs = None ->
  snd (generate i fs) = Exit 1
  /\ files (fst (generate i fs)) !! filepathOf i text = Some mdx
  /\ files (fst (generate i fs)) !! indexPathOf i = files fs !! indexPathOf i.
Proof.
  intros Hindex.
  destruct run_writes_document
    as (url & fs1 & fs2 & Hurl & Hgen & Hdir & Hdoc & Hload & Hfile & Hidx).
  rewrite Hindex in Hload.
  pose proof rendered as Hmdx. rewrite Hurl in Hmdx.
  rewrite Hgen.
  rewrite (writePost_stops_at_index i blogData t (Some url) fs fs1 fs2 slug text mdx
             slugged converted Hmdx Hdir Hdoc Hload).
  auto.
Qed.

End PayloadReceived.

(** X27: when writing the document throws, as it does for a slug that
    names a directory that does not exist, the run ends with exit code
    1 and no file is written or changed. *)
Theorem failed_document_write_exits (i : Inputs) (fs : FileSystem)
        (blogData : Json) (text : string) :
  unitInterval (randomTopic i) -> unitInterval (randomImage i) ->
  request i = Some blogData ->
  slugText blogData = Some text ->
  (forall fs', writeThrows fs' (filepathOf i text) = true) ->
  snd (generate i fs) = Exit 1
  /\ files (fst (generate i fs)) = files fs.
Proof.
  intros Ht Hi Hreq Hslug Hthrows.
  destruct (generate_selects i fs Ht Hi) as (t & url & _ & _ & ->).
  rewrite Hreq. unfold slugTextOf in Hslug.
  unfold filepathOf, outputDirOf, filenameOf in Hthrows. unfold writePost.
  destruct (slugOf blogData) as [slug|]; [|discriminate]. simpl in Hslug.
  rewrite Hslug.
  destruct (mdxContent _ _ _ _ _ _ _ _ _) as [mdx|]; [|auto].
  destruct (if negb _ then _ else _) as [fs1|] eqn:Hdir; [|auto].
  rewrite (writeFileSync_throws writeThrows fs1 _ mdx Hthrows).
  apply ensured_inv in Hdir. destruct Hdir as (Hfiles & _). auto.
Qed.

(** *** The list written to the index *)

Lemma newPost_slug (i : Inputs) (blogData : Json) (t : Topic) (img : option string)
      (date : string) (slug : Json) (filename : string) :
  newPost i blogData t img date slug filename !! "slug" = Some slug.
Proof. unfold newPost. simpl. apply lookup_insert_eq. Qed.

(** A slug compared by value differs from no record that has it. *)
Lemma strictlyDiffers_same (slug : Json) (p : Post) :
  comparedByValue slug = true -> p !! "slug" = Some slug ->
  strictlyDiffers slug p = false.
Proof.
  intros Hvalue Hp. unfold strictlyDiffers. rewrite Hp.
  destruct slug as [|b|q|s|items|members]; try discriminate; simpl.
  - reflexivity.
  - destruct b; reflexivity.
  - rewrite (proj2 (Qeq_bool_iff q q) (Qeq_refl q)). reflexivity.
  - rewrite String.eqb_refl. reflexivity.
Qed.

Lemma slug_not_kept (slug : Json) (posts : list Post) :
  comparedByValue slug = true ->
  slug ∉ slugValues (List.filter (strictlyDiffers slug) posts).
Proof.
  intros Hvalue. unfold slugValues. rewrite list_elem_of_omap. intros (p & Hp & Hv).
  apply list_elem_of_In, filter_In in Hp. destruct Hp as [_ Hdiff].
  rewrite (strictlyDiffers_same slug p Hvalue Hv) in Hdiff. discriminate.
Qed.

(** X21: the list a run that returns has written to the index is the
    run's record followed by the loaded records whose slug is not
    strictly equal to the run's; the record carries the slug; for a
    string slug this is the upsert of the index; and when the slug is
    compared by value (it is not an array or an object), slugs that
    were unique in the loaded index are unique in the written one. *)
Theorem successful_run_upserts (i : Inputs) (fs fs' : FileSystem) (p : string) :
  startsWith isSlash (cwd i) = true ->
  generate i fs = (fs', Resolved p) ->
  exists blogData slug posts record,
    request i = Some blogData
    /\ slugOf blogData = Some slug
    /\ outputIndex parseIndex i fs = Some posts
    /\ files fs' !! indexPathOf i
       = Some (stringifyIndex (record :: List.filter (strictlyDiffers slug) posts))
    /\ record !! "slug" = Some slug
    /\ (forall s, slug = JString s ->
          record :: List.filter (strictlyDiffers slug) posts = upsert s record posts)
    /\ (comparedByValue slug = true -> uniqueSlugs posts ->
          uniqueSlugs (record :: List.filter (strictlyDiffers slug) posts)).
Proof.
  intros Habs. unfold generateBlogPost.
  destruct (selectTopic _ _ _) as [t|]; [|discriminate].
  set (chosen := selectUniqueImage _ _ _).
  set (img := match chosen with Returns u => Some u | _ => None end).
  intros Hgen.
  assert (Hrun : match request i with
                 | None => (fs, Exit 1)
                 | Some blogData =>
                     match write i blogData t img fs with
                     | (fs', Some filepath) => (fs', Resolved filepath)
                     | (fs', None) => (fs', Exit 1)
                     end
                 end = (fs', Resolved p)).
  { unfold img. destruct chosen; [exact Hgen | exact Hgen | discriminate]. }
  clear Hgen. destruct (request i) as [blogData|]; [|discriminate].
  destruct (write i blogData t img fs) as [fs'' [p'|]] eqn:Hw; [|discriminate].
  injection Hrun as -> ->.
  destruct (writePost_returns i blogData t img fs fs' p Hw)
    as (slug & text & mdx & fs1 & fs2 & posts
        & Hslug & _ & _ & Hdir & Hdoc & Hload & Hidx & _ & _).
  destruct (loaded_after_document i fs fs1 fs2 text mdx Habs Hdir Hdoc) as (Hsame & _ & _).
  rewrite Hsame in Hload.
  apply writeFileSync_inv in Hidx. destruct Hidx as [Hfiles _].
  exists blogData, slug, posts,
         (newPost i blogData t img (dateOf (nowDate i)) slug (filenameOf i text)).
  split; [reflexivity|]. split; [exact Hslug|]. split; [exact Hload|].
  split; [rewrite Hfiles; apply lookup_insert_eq|].
  split; [apply newPost_slug|]. split.
  - intros s ->. unfold upsert. f_equal.
  - intros Hvalue Huniq. unfold uniqueSlugs. rewrite slugValues_cons, newPost_slug.
    apply NoDup_cons. split; [apply slug_not_kept, Hvalue|].
    apply uniqueSlugs_filter, Huniq.
Qed.

(** *** The keywords of the post *)

Lemma newPost_keywords (i : Inputs) (blogData : Json) (t : Topic) (img : option string)
      (date : string) (slug : Json) (filename : string) :
  newPost i blogData t img date slug filename !! "keywords"
  = Some (keywordsOf i blogData).
Proof.
  unfold newPost, property. generalize (keywordsOf i blogData). intros keywords.
  destruct (member blogData "title"), (member blogData "excerpt"),
    (member blogData "description"), (member blogData "author"),
    (member blogData "tags");
    simpl; repeat (rewrite lookup_insert_ne by discriminate); apply lookup_insert_eq.
Qed.

(** X15: when [KEYWORDS] is set, even to the empty string, the keywords
    the script selects are its comma-separated pieces, each without
    white space at its ends; there is at least one, so the built-in
    keyword lists are not used.  The keywords of the post, in the index
    record and in the front matter, are [blogData.keywords ||
    selectedKeywords]: the payload's [keywords] when that value is
    truthy, whatever it is, and the selected ones otherwise. *)
Theorem keywords_from_environment (i : Inputs) (k : string) (blogData : Json) :
  KEYWORDS i = Some k ->
  (selectedKeywords i = map JString (map trim (split "," k))
   /\ 1 <= length (selectedKeywords i)
   /\ Forall (fun w => startsWith isWhiteSpace w = false
                       /\ endsWith isWhiteSpace w = false) (envKeywords i))
  /\ (forall keywords, member blogData "keywords" = Some keywords ->
         truthy keywords = true -> keywordsOf i blogData = keywords)
  /\ ((forall keywords, member blogData "keywords" = Some keywords ->
          truthy keywords = false) ->
      keywordsOf i blogData = JArray (map JString (map trim (split "," k))))
  /\ (forall t img date slug filename,
         newPost i blogData t img date slug filename !! "keywords"
         = Some (keywordsOf i blogData))
  /\ (forall t img date text filename mdx,
         render i blogData t img date text filename = Some mdx ->
         exists before after,
           mdx = before +:+ line "keywords" (stringify (keywordsOf i blogData))
                        +:+ after).
Proof.
  intros Hk. pose proof (selectedKeywords_from_environment i k Hk) as Hselected.
  split; [exact Hselected|]. destruct Hselected as (Heq & _ & _).
  split; [|split; [|split]].
  - intros keywords Hmember Htruthy. unfold keywordsOf. rewrite Hmember, Htruthy.
    reflexivity.
  - intros Hfalsy. unfold keywordsOf. rewrite Heq.
    destruct (member blogData "keywords") as [keywords|] eqn:Hmember; [|reflexivity].
    rewrite (Hfalsy keywords eq_refl). reflexivity.
  - apply newPost_keywords.
  - intros t img date text filename mdx. unfold mdxContent.
    destruct (toStringValue numberToString (member blogData "title")) as [title|];
      [|discriminate].
    destruct (toStringValue numberToString (member blogData "description"))
      as [description|]; [|discriminate].
    destruct (toStringValue numberToString (member blogData "excerpt")) as [excerpt|];
      [|discriminate].
    destruct (toStringValue numberToString (member blogData "author")) as [author|];
      [|discriminate].
    destruct (toStringValue numberToString (member blogData "readTime")) as [readTime|];
      [|discriminate].
    destruct (toStringValue numberToString (member blogData "content")) as [content|];
      [|discriminate].
    intros [= <-].
    exists ("---" +:+ nl
            +:+ line "title" (quoted title)
            +:+ line "description" (quoted description)
            +:+ line "excerpt" (quoted excerpt)
            +:+ line "date" (quoted date)
            +:+ line "publishedAt" (quoted (nowFrontMatter i))
            +:+ line "author" (quoted author)
            +:+ line "category" (quoted (category t))
            +:+ line "tags" (tagsText stringify blogData)).
    eexists. rewrite !append_assoc. reflexivity.
Qed.

(** *** A slug derived from the title *)

Lemma allChars_append (q : ascii -> bool) (a b : string) :
  allChars q (a +:+ b) = allChars q a && allChars q b.
Proof.
  induction a as [|c a IH]; [reflexivity|].
  rewrite append_cons. simpl. rewrite IH, andb_assoc. reflexivity.
Qed.

Lemma slugChar_not_slash (c : ascii) : slugChar c = true -> negb (isSlash c) = true.
Proof.
  intros H. destruct (isSlash c) eqn:E; [|reflexivity].
  unfold isSlash in E. apply Ascii.eqb_eq in E. subst c. discriminate.
Qed.

(** X28: a payload without a slug gets the slug of its title, and then
    the document lies directly in the output directory: with an absolute
    working directory and a date without a slash, its path is the
    output directory, a slash, and [`${date}-${slug}.mdx`], a name
    without a slash. *)
Theorem derived_slug_stays_in_output_directory
        (i : Inputs) (blogData : Json) (title : string) :
  startsWith isSlash (cwd i) = true ->
  slashFree (dateOf (nowDate i)) = true ->
  member blogData "title" = Some (JString title) ->
  (forall v, member blogData "slug" = Some v -> truthy v = false) ->
  slugText blogData = Some (generateSlug title)
  /\ slashFree (filenameOf i (generateSlug title)) = true
  /\ filepathOf i (generateSlug title)
     = outputDirOf i +:+ "/" +:+ filenameOf i (generateSlug title).
Proof.
  intros Habs Hdate Htitle Hslug.
  assert (Hfree : slashFree (filenameOf i (generateSlug title)) = true).
  { unfold slashFree, filenameOf in *. rewrite !allChars_append, Hdate.
    destruct (generateSlug_slugChars title) as (_ & Hchars & _).
    rewrite (allChars_impl slugChar _ _ slugChar_not_slash Hchars). reflexivity. }
  split; [|split; [exact Hfree|]].
  - unfold slugTextOf, slugOf. rewrite Htitle.
    destruct blogData; try discriminate.
    destruct (member _ "slug") as [v|] eqn:Hv; [|reflexivity].
    rewrite (Hslug v eq_refl). reflexivity.
  - unfold filepathOf.
    apply (join_plain_name _ _ _ (outputDir_absolute i Habs)).
    unfold plainSegment. rewrite Hfree, andb_true_r.
    exact (endsWith_kept isLetterX _ eq_refl (filename_last i (generateSlug title))).
Qed.

End Script.

(** *** A slug with [..] segments *)

(** X29: the slug of the payload is not validated, and [path.join]
    resolves its [..] segments: with the slug [x/../../<name>] the
    document path is [path.join(cwd, `<name>.mdx`)], a file of the
    working directory itself and not of [generated-posts]. *)
Theorem dot_dot_slug_leaves_output_directory (i : Inputs) (name : string) :
  startsWith isSlash (cwd i) = true ->
  slashFree (dateOf (nowDate i)) = true ->
  slashFree name = true ->
  filepathOf i ("x/../../" +:+ name) = pathJoin [cwd i; name +:+ ".mdx"]
  /\ filepathOf i ("x/../../" +:+ name)
     <> outputDirOf i +:+ "/" +:+ filenameOf i ("x/../../" +:+ name).
Proof.
  intros Habs Hdate Hname.
  set (base := normalizeSegments false [] (split "/" (cwd i))).
  set (first := dateOf (nowDate i) +:+ "-x").
  set (last := name +:+ ".mdx").
  assert (Hfirst : keptSegment first = true /\ slashFree first = true).
  { split.
    - apply (endsWith_kept isLetterX); [reflexivity|].
      unfold first. rewrite endsWith_append by discriminate. reflexivity.
    - unfold first, slashFree in *. rewrite allChars_append, Hdate. reflexivity. }
  assert (Hlast : plainSegment last = true).
  { unfold plainSegment. apply andb_true_iff. split.
    - apply (endsWith_kept isLetterX); [reflexivity|].
      unfold last. rewrite endsWith_append by discriminate. reflexivity.
    - unfold last, slashFree in *. rewrite allChars_append, Hname. reflexivity. }
  assert (Hfilename : filenameOf i ("x/../../" +:+ name)
                      = first +:+ String "/" (".." +:+ String "/" (".."
                          +:+ String "/" last))).
  { unfold filenameOf, first, last. rewrite !append_assoc. reflexivity. }
  assert (Hpieces : split "/" (filenameOf i ("x/../../" +:+ name))
                    = [first; ".."; ".."; last]).
  { rewrite Hfilename, !split_append.
    rewrite (split_slashFree first (proj2 Hfirst)).
    rewrite (split_slashFree last)
      by (unfold plainSegment in Hlast; apply andb_true_iff in Hlast; tauto).
    reflexivity. }
  pose proof (outputDir_absolute i Habs) as Hdir. fold base in Hdir.
  assert (Hjoined : absolute (pathJoin [cwd i; last]) (base ++ [last])).
  { apply join_absolute; [exact Habs | discriminate | repeat constructor; exact Hlast]. }
  assert (Hpath : absolute (filepathOf i ("x/../../" +:+ name)) (base ++ [last])).
  { assert (Hne : outputDirOf i <> EmptyString)
      by (destruct Hdir as (-> & _); discriminate).
    assert (Hsegments :
              normalizeSegments false []
                (split "/" (outputDirOf i +:+ String "/" (filenameOf i ("x/../../" +:+ name))))
              = (base ++ [last])%list).
    { rewrite split_append, Hpieces, (absolute_split _ _ Hdir).
      change ((EmptyString :: base ++ ["generated-posts"]) ++ [first; ".."; ".."; last])%list
        with (EmptyString :: (base ++ ["generated-posts"]) ++ [first; ".."; ".."; last])%list.
      cbn [normalizeSegments String.eqb orb].
      rewrite normalizeSegments_app.
      destruct Hdir as (_ & _ & Hplain).
      rewrite (normalizeSegments_kept false _ [] (plain_is_kept _ Hplain)).
      cbn [rev app]. rewrite rev_app_distr. cbn [rev app].
      destruct (keptSegment_tests first (proj1 Hfirst)) as [H1 H2].
      assert (Hkept : keptSegment last = true)
        by (unfold plainSegment in Hlast; apply andb_true_iff in Hlast; tauto).
      destruct (keptSegment_tests last Hkept) as [H3 H4].
      cbn [normalizeSegments]. rewrite H1, H2, H3, H4.
      cbn [String.eqb Ascii.eqb Bool.eqb orb andb].
      cbn [rev app]. rewrite rev_involutive. reflexivity. }
    unfold filepathOf, pathJoin, join. simpl List.filter.
    destruct (String.eqb_spec (outputDirOf i) EmptyString) as [E|_]; [contradiction|].
    assert (Hfile : filenameOf i ("x/../../" +:+ name) <> EmptyString).
    { rewrite Hfilename. apply append_not_empty. discriminate. }
    destruct (String.eqb_spec (filenameOf i ("x/../../" +:+ name)) EmptyString)
      as [E|_]; [contradiction|].
    cbn [negb]. rewrite concat_two.
    change (String.concat "/" [filenameOf i ("x/../../" +:+ name)])
      with (filenameOf i ("x/../../" +:+ name)).
    change ("/" +:+ filenameOf i ("x/../../" +:+ name))
      with (String "/" (filenameOf i ("x/../../" +:+ name))).
    rewrite <- Hsegments. apply normalize_absolute.
    - apply startsWith_append. exact (absolute_startsWith _ _ Hdir).
    - rewrite endsWith_append by discriminate.
      change (String "/" (filenameOf i ("x/../../" +:+ name)))
        with ("/" +:+ filenameOf i ("x/../../" +:+ name)).
      rewrite endsWith_append by exact Hfile.
      apply (endsWith_disjoint isLetterX); [|apply filename_last].
      intros c Hc. unfold isLetterX in Hc. apply Ascii.eqb_eq in Hc. subst c. reflexivity.
    - rewrite Hsegments. destruct base; discriminate. }
  assert (Heq : filepathOf i ("x/../../" +:+ name) = pathJoin [cwd i; last]).
  { destruct Hpath as (-> & _). destruct Hjoined as (-> & _). reflexivity. }
  split; [exact Heq|].
  intros E.
  assert (Hsplit : split "/" (outputDirOf i +:+ "/" +:+ filenameOf i ("x/../../" +:+ name))
                   = (EmptyString :: (base ++ ["generated-posts"])
                        ++ [first; ".."; ".."; last])%list).
  { change ("/" +:+ filenameOf i ("x/../../" +:+ name))
      with (String "/" (filenameOf i ("x/../../" +:+ name))).
    rewrite split_append, Hpieces, (absolute_split _ _ Hdir). reflexivity. }
  rewrite <- E, (absolute_split _ _ Hpath) in Hsplit.
  injection Hsplit as Hsplit. apply (f_equal (@length string)) in Hsplit.
  rewrite !length_app in Hsplit. simpl in Hsplit. lia.
Qed.

Lemma keywords_from_environment_witness :
  selectedKeywords keywordInputs
  = [JString "thesis writing"; JString "academic writing"; JString "ai"]
  /\ keywordsOf keywordInputs sampleBlogData
     = JArray [JString "thesis writing"; JString "academic writing"; JString "ai"].
Proof.
  destruct (keywords_from_environment printJson printNumber keywordInputs
              " thesis writing, academic writing ,ai " sampleBlogData eq_refl)
    as ((Heq & _ & _) & _ & Hselected & _).
  split; [rewrite Heq; reflexivity|].
  rewrite Hselected; [reflexivity|].
  intros keywords Hmember. vm_compute in Hmember. discriminate.
Defined.

Lemma request_failures_exit_without_writing_witness :
  generateBlogPost parseEmptyArray (fun _ => None) parseSamplePayload printJson printIndex
                   printNumber neverThrows neverThrows successInputs usedFs
  = (usedFs, Exit 1).
Proof.
  apply request_failures_exit_without_writing;
    [exact unitInterval_half | exact unitInterval_half |].
  right. right. left. exists 200%Z, "body". split; reflexivity.
Defined.

Lemma run_leaves_history_witness :
  getRecentTopics parseEmptyArray "/repo"
    (fst (script parseEmptyArray contentOfBody parseEscapingPayload printJson printIndex
                 printNumber neverThrows neverThrows successInputs usedFs))
  = getRecentTopics parseEmptyArray "/repo" usedFs.
Proof.
  exact (proj1 (run_leaves_history parseEmptyArray contentOfBody parseEscapingPayload
                  printJson printIndex printNumber neverThrows neverThrows
                  successInputs usedFs eq_refl)).
Defined.

(** The slug [x/../../pwned] puts the document above the output
    directory. *)
Lemma run_ends_with_exit_1_or_document_witness :
  snd (script parseEmptyArray contentOfBody parseEscapingPayload printJson printIndex
              printNumber neverThrows neverThrows successInputs emptyFs)
  = Resolved "/repo/pwned.mdx".
Proof.
  destruct (run_ends_with_exit_1_or_document
              parseEmptyArray contentOfBody parseEscapingPayload printJson printIndex
              printNumber neverThrows neverThrows successInputs emptyFs
              unitInterval_half unitInterval_half)
    as [Hexit|(blogData & text & Hreq & Htext & _ & Hend)].
  - vm_compute in Hexit. discriminate.
  - vm_compute in Hreq. injection Hreq as <-.
    vm_compute in Htext. injection Htext as <-.
    rewrite Hend. vm_compute. reflexivity.
Defined.

Lemma successful_run_writes_both_witness :
  snd (generateBlogPost parseEmptyArray contentOfBody parseSamplePayload printJson
         printIndex printNumber neverThrows neverThrows successInputs usedFs)
  = Resolved "/repo/generated-posts/2026-01-05-ten-thesis-tips.mdx"
  /\ files (fst (generateBlogPost parseEmptyArray contentOfBody parseSamplePayload
                   printJson printIndex printNumber neverThrows neverThrows
                   successInputs usedFs))
           !! "/repo/generated-posts/index.json"
     = Some "index".
Proof.
  assert (Ht : selectedTopicOf parseEmptyArray successInputs usedFs = Some sampleTopic)
    by (vm_compute; reflexivity).
  assert (Hmdx : mdxContent printJson printNumber successInputs sampleBlogData sampleTopic
                   (selectedImageOf parseEmptyArray successInputs usedFs sampleTopic)
                   (dateOf (nowDate successInputs)) "ten-thesis-tips"
                   (filenameOf successInputs "ten-thesis-tips")
                 = Some (documentFor sampleBlogData "ten-thesis-tips"))
    by (vm_compute; reflexivity).
  assert (Hidx : outputIndex parseEmptyArray successInputs usedFs = Some [])
    by (vm_compute; reflexivity).
  destruct (successful_run_writes_both
              parseEmptyArray contentOfBody parseSamplePayload printJson printIndex
              printNumber neverThrows neverThrows successInputs usedFs
              sampleBlogData (JString "ten-thesis-tips") "ten-thesis-tips" sampleTopic
              (documentFor sampleBlogData "ten-thesis-tips")
              unitInterval_half unitInterval_half eq_refl eq_refl eq_refl eq_refl
              Ht Hmdx (fun _ => eq_refl) (fun _ => eq_refl)
              [] Hidx (fun _ => eq_refl) eq_refl) as (Hend & _ & Hfile).
  split; [rewrite Hend; vm_compute; reflexivity|].
  assert (Hpath : indexPathOf successInputs = "/repo/generated-posts/index.json")
    by (vm_compute; reflexivity).
  rewrite <- Hpath. exact Hfile.
Defined.

(** Tags that are one string: both files are written, the exit code
    is 1. *)
Lemma late_failure_leaves_both_files_witness :
  snd (generateBlogPost parseEmptyArray contentOfBody parseUntaggedPayload printJson
         printIndex printNumber neverThrows neverThrows successInputs usedFs)
  = Exit 1
  /\ files (fst (generateBlogPost parseEmptyArray contentOfBody parseUntaggedPayload
                   printJson printIndex printNumber neverThrows neverThrows
                   successInputs usedFs))
           !! "/repo/generated-posts/2026-01-05-ten-thesis-tips.mdx"
     = Some (documentFor untaggedBlogData "ten-thesis-tips").
Proof.
  assert (Ht : selectedTopicOf parseEmptyArray successInputs usedFs = Some sampleTopic)
    by (vm_compute; reflexivity).
  assert (Hmdx : mdxContent printJson printNumber successInputs untaggedBlogData sampleTopic
                   (selectedImageOf parseEmptyArray successInputs usedFs sampleTopic)
                   (dateOf (nowDate successInputs)) "ten-thesis-tips"
                   (filenameOf successInputs "ten-thesis-tips")
                 = Some (documentFor untaggedBlogData "ten-thesis-tips"))
    by (vm_compute; reflexivity).
  assert (Hidx : outputIndex parseEmptyArray successInputs usedFs = Some [])
    by (vm_compute; reflexivity).
  destruct (late_failure_leaves_both_files
              parseEmptyArray contentOfBody parseUntaggedPayload printJson printIndex
              printNumber neverThrows neverThrows successInputs usedFs
              untaggedBlogData (JString "ten-thesis-tips") "ten-thesis-tips" sampleTopic
              (documentFor untaggedBlogData "ten-thesis-tips")
              unitInterval_half unitInterval_half eq_refl eq_refl eq_refl eq_refl
              Ht Hmdx (fun _ => eq_refl) (fun _ => eq_refl)
              [] Hidx (fun _ => eq_refl) eq_refl) as (Hend & Hfile & _).
  split; [exact Hend|].
  assert (Hpath : filepathOf successInputs "ten-thesis-tips"
                  = "/repo/generated-posts/2026-01-05-ten-thesis-tips.mdx")
    by (vm_compute; reflexivity).
  rewrite <- Hpath. exact Hfile.
Defined.

Lemma broken_index_leaves_document_witness :
  snd (generateBlogPost parseEmptyArray contentOfBody parseSamplePayload printJson
         printIndex printNumber neverThrows neverThrows successInputs brokenIndexFs)
  = Exit 1
  /\ files (fst (generateBlogPost parseEmptyArray contentOfBody parseSamplePayload
                   printJson printIndex printNumber neverThrows neverThrows
                   successInputs brokenIndexFs))
           !! "/repo/generated-posts/index.json"
     = Some "{ broken".
Proof.
  assert (Ht : selectedTopicOf parseEmptyArray successInputs brokenIndexFs
               = Some sampleTopic)
    by (vm_compute; reflexivity).
  assert (Hmdx : mdxContent printJson printNumber successInputs sampleBlogData sampleTopic
                   (selectedImageOf parseEmptyArray successInputs brokenIndexFs sampleTopic)
                   (dateOf (nowDate successInputs)) "ten-thesis-tips"
                   (filenameOf successInputs "ten-thesis-tips")
                 = Some (documentFor sampleBlogData "ten-thesis-tips"))
    by (vm_compute; reflexivity).
  assert (Hidx : outputIndex parseEmptyArray successInputs brokenIndexFs = None)
    by (vm_compute; reflexivity).
  destruct (broken_index_leaves_document
              parseEmptyArray contentOfBody parseSamplePayload printJson printIndex
              printNumber neverThrows neverThrows successInputs brokenIndexFs
              sampleBlogData (JString "ten-thesis-tips") "ten-thesis-tips" sampleTopic
              (documentFor sampleBlogData "ten-thesis-tips")
              unitInterval_half unitInterval_half eq_refl eq_refl eq_refl eq_refl
              Ht Hmdx (fun _ => eq_refl) (fun _ => eq_refl) Hidx) as (Hend & _ & Hfile).
  split; [exact Hend|].
  assert (Hold : files brokenIndexFs !! indexPathOf successInputs = Some "{ broken")
    by (vm_compute; reflexivity).
  assert (Hpath : indexPathOf successInputs = "/repo/generated-posts/index.json")
    by (vm_compute; reflexivity).
  rewrite <- Hpath. exact (eq_trans Hfile Hold).
Defined.

(** A file system that refuses every write. *)
Lemma failed_document_write_exits_witness :
  snd (generateBlogPost parseEmptyArray contentOfBody parseSamplePayload printJson
         printIndex printNumber alwaysThrows neverThrows successInputs usedFs)
  = Exit 1
  /\ files (fst (generateBlogPost parseEmptyArray contentOfBody parseSamplePayload
                   printJson printIndex printNumber alwaysThrows neverThrows
                   successInputs usedFs))
     = files usedFs.
Proof.
  exact (failed_document_write_exits
           parseEmptyArray contentOfBody parseSamplePayload printJson printIndex
           printNumber alwaysThrows neverThrows successInputs usedFs
           sampleBlogData "ten-thesis-tips"
           unitInterval_half unitInterval_half eq_refl eq_refl (fun _ => eq_refl)).
Defined.

Lemma successful_run_upserts_witness :
  exists posts record,
    outputIndex parseEmptyArray successInputs usedFs = Some posts
    /\ record !! "slug" = Some (JString "ten-thesis-tips")
    /\ files (fst (generateBlogPost parseEmptyArray contentOfBody parseSamplePayload
                     printJson printIndex printNumber neverThrows neverThrows
                     successInputs usedFs))
             !! indexPathOf successInputs
       = Some (printIndex (upsert "ten-thesis-tips" record posts)).
Proof.
  assert (Hrun : generateBlogPost parseEmptyArray contentOfBody parseSamplePayload
                   printJson printIndex printNumber neverThrows neverThrows
                   successInputs usedFs
                 = (fst (generateBlogPost parseEmptyArray contentOfBody parseSamplePayload
                           printJson printIndex printNumber neverThrows neverThrows
                           successInputs usedFs),
                    Resolved "/repo/generated-posts/2026-01-05-ten-thesis-tips.mdx"))
    by (vm_compute; reflexivity).
  destruct (successful_run_upserts
              parseEmptyArray contentOfBody parseSamplePayload printJson printIndex
              printNumber neverThrows neverThrows successInputs usedFs _ _ eq_refl Hrun)
    as (blogData & slug & posts & record & Hreq & Hslug & Hidx & Hfile & Hrec & Hups & _).
  vm_compute in Hreq. injection Hreq as <-.
  vm_compute in Hslug. injection Hslug as <-.
  exists posts, record. split; [exact Hidx|]. split; [exact Hrec|].
  rewrite Hfile, (Hups "ten-thesis-tips" eq_refl). reflexivity.
Defined.

Lemma dot_dot_slug_leaves_output_directory_witness :
  filepathOf successInputs "x/../../pwned" = "/repo/pwned.mdx".
Proof.
  destruct (dot_dot_slug_leaves_output_directory successInputs "pwned"
              eq_refl eq_refl eq_refl) as (Hpath & _).
  change ("x/../../" +:+ "pwned") with "x/../../pwned" in Hpath.
  rewrite Hpath. vm_compute. reflexivity.
Defined.

Lemma derived_slug_stays_in_output_directory_witness :
  filepathOf successInputs (generateSlug "Ten Thesis Tips")
  = "/repo/generated-posts/2026-01-05-ten-thesis-tips.mdx".
Proof.
  destruct (derived_slug_stays_in_output_directory printNumber successInputs sampleBlogData
              "Ten Thesis Tips" eq_refl eq_refl eq_refl) as (_ & _ & Hpath).
  - intros v Hv. vm_compute in Hv. discriminate.
  - rewrite Hpath. vm_compute. reflexivity.
Defined.

End RunMore.
